(** * X-manage-app: rate-limited request admission and cron orchestration

    A shallow embedding of

    - [apps/api/src/rate-limiter.ts] (class [XAPIRateLimiter]), and
    - the cron handlers that import it as [./rate-limiter]
      ([handleDailyXSync], [checkLastSyncHealth])

    together with the properties the design document states about them.

    Conventions.  A JavaScript [number] that only ever holds an integer
    (counters, millisecond clock readings, configuration values) is a [Z].
    Numbers that may be [NaN] or a proper fraction (results of [parseInt],
    of [/] and of [* 0.2]) are values of [number], whose finite values are
    rationals; where the code's result depends on the rounding of doubles
    the rounding is modelled ([JS.nearest]).  A thrown value is an [Error]
    and is represented by its [message].  [console.log] / [console.error]
    calls have no effect on the modelled state and are omitted; what is
    evaluated to build their argument is not, when it can throw. *)

From Stdlib Require Import ZArith QArith Qminmax Qround Qpower Qabs Lqa SpecFloat.
From Stdlib Require Import String Ascii List Bool Lia DecimalString.
From stdpp Require Import gmap strings list fin_maps sorting.
From Equations Require Import Equations.
Import ListNotations.

Local Open Scope string_scope.
Local Open Scope list_scope.
Local Open Scope Z_scope.

(** ** Results of computations that may throw *)

Inductive Result (A : Type) : Type :=
| Ok (value : A)
| Throw (message : string).
Arguments Ok {A} value.
Arguments Throw {A} message.

(** ** JavaScript values *)

Module JS.

(** [number]: IEEE doubles restricted to what the modelled code can
    produce.  A finite value is kept as the rational it is; signed zeros
    are not distinguished.  [parseInt], [mul] and [round] give the double
    nearest to the exact result; [sub] and [div] give the exact result,
    to be rounded with [round] where the rounding can change what the
    code does. *)
Inductive number : Type :=
| NaN
| PInf
| NInf
| Fin (q : Q).

Definition of_Z (z : Z) : number := Fin (inject_Z z).

Definition Qlt_bool (a b : Q) : bool := negb (Qle_bool b a).

(** *** Rounding to a double *)

(** The integer nearest to [q]; of two that are equally near, the even
    one. *)
Definition roundHalfEven (q : Q) : Z :=
  let below := Qfloor q in
  match (q - inject_Z below ?= 1 # 2)%Q with
  | Lt => below
  | Gt => below + 1
  | Eq => if Z.even below then below else below + 1
  end.

(** The exponent of a positive [q]: the [e] with [2^e <= q < 2^(e+1)]. *)
Definition exponent (q : Q) : Z :=
  let e := Z.log2 (Qnum q) - Z.log2 (Zpos (Qden q)) in
  if Qle_bool (2 ^ e) q then e else e - 1.

(** The multiple of the unit in the last place that is nearest to a
    positive [a]: 53 significant bits, and no exponent below -1022, which
    the subnormal numbers share. *)
Definition nearestMagnitude (a : Q) : Q :=
  let e := Z.max (exponent a) (-1022) in
  let ulp := (2 ^ (e - 52))%Q in
  (inject_Z (roundHalfEven (a / ulp)) * ulp)%Q.

(** The double nearest to [q], ties going to the even significand, and
    an infinity from 2^1024 on. *)
Definition nearest (q : Q) : number :=
  if Qeq_bool q 0 then Fin 0
  else
    let r := nearestMagnitude (Qabs q) in
    if Qle_bool (2 ^ 1024) r then (if Qle_bool 0 q then PInf else NInf)
    else Fin (Qred (if Qle_bool 0 q then r else - r)).

(** A value of the Standard Library's specification of IEEE 754 numbers,
    as a [number], and an integer below 2^53 in magnitude as a value of
    its format binary64; [nearest] is checked against that specification
    below. *)
Definition of_spec_float (f : spec_float) : number :=
  match f with
  | S754_zero _ => Fin 0
  | S754_infinity negative => if negative then NInf else PInf
  | S754_nan => NaN
  | S754_finite negative m e =>
      Fin (Qred ((if negative then -1 else 1) * inject_Z (Zpos m) * 2 ^ e))
  end.

Definition binary64_of_Z (n : Z) : spec_float :=
  match n with
  | 0 => S754_zero false
  | _ => binary_normalize 53 1024 n 0 false
  end.

(** A number as the double it is stored as. *)
Definition round (n : number) : number :=
  match n with
  | Fin q => nearest q
  | _ => n
  end.

(** [a === b] on numbers. *)
Definition strict_eq (a b : number) : bool :=
  match a, b with
  | Fin x, Fin y => Qeq_bool x y
  | PInf, PInf => true
  | NInf, NInf => true
  | _, _ => false
  end.

(** [a < b] on numbers: every comparison with [NaN] is false. *)
Definition lt (a b : number) : bool :=
  match a, b with
  | NaN, _ | _, NaN => false
  | Fin x, Fin y => Qlt_bool x y
  | NInf, NInf => false
  | NInf, _ => true
  | _, NInf => false
  | PInf, _ => false
  | Fin _, PInf => true
  end.

(** [a / b] on numbers: the exact quotient, which [round] makes a
    double. *)
Definition div (a b : number) : number :=
  match a, b with
  | NaN, _ | _, NaN => NaN
  | Fin x, Fin y =>
      if Qeq_bool y 0 then
        (if Qeq_bool x 0 then NaN
         else if Qlt_bool 0 x then PInf else NInf)
      else Fin (x / y)
  | Fin _, (PInf | NInf) => Fin 0
  | (PInf | NInf), (PInf | NInf) => NaN
  | PInf, Fin y => if Qlt_bool y 0 then NInf else PInf
  | NInf, Fin y => if Qlt_bool y 0 then PInf else NInf
  end.

(** [a * b] on numbers, rounded. *)
Definition mul (a b : number) : number :=
  match a, b with
  | NaN, _ | _, NaN => NaN
  | Fin x, Fin y => nearest (x * y)
  | PInf, Fin y | Fin y, PInf =>
      if Qeq_bool y 0 then NaN else if Qlt_bool 0 y then PInf else NInf
  | NInf, Fin y | Fin y, NInf =>
      if Qeq_bool y 0 then NaN else if Qlt_bool 0 y then NInf else PInf
  | PInf, PInf | NInf, NInf => PInf
  | PInf, NInf | NInf, PInf => NInf
  end.

(** [new Date(value)] holds a time when [value] is finite and at most
    8.64e15 ms from the epoch; otherwise it is an invalid date, for which
    [toISOString()] throws a [RangeError]. *)
Definition isTimeValue (value : number) : bool :=
  match value with
  | Fin q => Qle_bool (Qabs q) (inject_Z 8640000000000000)
  | _ => false
  end.

(** [a - b] on numbers. *)
Definition sub (a b : number) : number :=
  match a, b with
  | NaN, _ | _, NaN => NaN
  | Fin x, Fin y => Fin (x - y)
  | PInf, PInf | NInf, NInf => NaN
  | PInf, _ | _, NInf => PInf
  | NInf, _ | _, PInf => NInf
  end.

(** [String(n)] for an integer [n]. *)
Definition show (z : Z) : string := NilZero.string_of_int (Z.to_int z).

(** [hay.includes(needle)] *)
Fixpoint includes (needle hay : string) : bool :=
  String.prefix needle hay ||
  match hay with
  | EmptyString => false
  | String _ rest => includes needle rest
  end.

(** *** [parseInt(s)] with no radix argument *)

(** The white space and line terminators [parseInt] skips, among the
    characters a [string] here can hold (code units below 256, which is
    all a header value has): TAB to CR, SP and NBSP. *)
Definition isWhiteSpace (c : ascii) : bool :=
  let n := nat_of_ascii c in
  ((9 <=? n) && (n <=? 13))%nat || (n =? 32)%nat || (n =? 160)%nat.

Fixpoint trimStart (s : string) : string :=
  match s with
  | String c rest => if isWhiteSpace c then trimStart rest else s
  | EmptyString => s
  end.

(** The value of [c] as a digit in the given radix, if it is one. *)
Definition digitValue (radix : Z) (c : ascii) : option Z :=
  let n := Z.of_nat (nat_of_ascii c) in
  let v :=
    if (48 <=? n) && (n <=? 57) then Some (n - 48)
    else if (97 <=? n) && (n <=? 122) then Some (n - 87)
    else if (65 <=? n) && (n <=? 90) then Some (n - 55)
    else None in
  match v with
  | Some d => if d <? radix then Some d else None
  | None => None
  end.

(** Reads the longest prefix of digits; [acc] is [None] until a digit
    has been seen. *)
Fixpoint parseDigits (radix : Z) (acc : option Z) (s : string) : option Z :=
  match s with
  | EmptyString => acc
  | String c rest =>
      match digitValue radix c with
      | Some d =>
          parseDigits radix
            (Some (match acc with Some a => a * radix + d | None => d end))
            rest
      | None => acc
      end
  end.

Definition stripHexPrefix (s : string) : option string :=
  match s with
  | String "0" (String ("x" | "X") rest) => Some rest
  | _ => None
  end.

(** The result is the double nearest to the integer that is read; the
    standard lets an engine approximate an integer of more than 20
    significant digits, which is not modelled. *)
Definition parseInt (input : string) : number :=
  let s := trimStart input in
  let '(sign, s) :=
    match s with
    | String "-" rest => (-1, rest)
    | String "+" rest => (1, rest)
    | _ => (1, s)
    end in
  let '(radix, s) :=
    match stripHexPrefix s with
    | Some rest => (16, rest)
    | None => (10, s)
    end in
  match parseDigits radix None s with
  | Some v => nearest (inject_Z (sign * v))
  | None => NaN
  end.

(** [a || b] on strings: the empty string is falsy, and so is a missing
    value ([null]). *)
Definition or_default (a : option string) (b : string) : string :=
  match a with
  | Some s => if String.eqb s "" then b else s
  | None => b
  end.

(** The integer [parseInt(input)] reads, if it reads one, as it is
    written ([parseInt] returns the double nearest to it, which is that
    integer up to 2^53); [parseInt] gives [NaN] otherwise. *)
Definition parseInteger (input : string) : option Z :=
  let s := trimStart input in
  let '(sign, s) :=
    match s with
    | String "-" rest => (-1, rest)
    | String "+" rest => (1, rest)
    | _ => (1, s)
    end in
  let '(radix, s) :=
    match stripHexPrefix s with
    | Some rest => (16, rest)
    | None => (10, s)
    end in
  match parseDigits radix None s with
  | Some v => Some (sign * v)
  | None => None
  end.

(** [n || d] for a number [n] that is [NaN] ([None]) or an integer: [NaN]
    and 0 are falsy. *)
Definition integer_or (n : option Z) (d : Z) : Z :=
  match n with
  | None => d
  | Some v => if v =? 0 then d else v
  end.

End JS.

(** ** The rate limiter ([rate-limiter.ts]) *)

Module RateLimiter.

(** [interface XAPIRateLimit] *)
Record XAPIRateLimit : Type := {
  limit : JS.number;
  remaining : JS.number;
  reset : JS.number;
}.

(** [interface RateLimiterConfig] *)
Record RateLimiterConfig : Type := {
  maxRequestsPerWindow : Z;
  windowDurationMs : Z;
  requestDelayMs : Z;
  maxRetries : Z;
}.

(** The part of a fetch [Response] the limiter looks at.  Header names are
    stored in lower case, which is how [Headers.get] looks them up;
    [json] is what [response.json()] settles to. *)
Record Response : Type := {
  status : Z;
  statusText : string;
  headers : gmap string string;
  json : Result string;
}.

(** [response.ok]: the status is in the range 200-299. *)
Definition ok (response : Response) : bool :=
  (200 <=? status response) && (status response <=? 299).

(** What one call of a [requestFn] settles to. *)
Inductive Outcome : Type :=
| Rejects (message : string)
| Fulfils (response : Response).

(** A unit of work: [requestFn k] is what the call made at attempt [k]
    settles to. *)
Definition RequestFn : Type := Z -> Outcome.

(** What the backoff wrapper does, in order. *)
Inductive Event : Type :=
| EvInvoke
| EvDelay (ms : Z).

Definition parseRateLimitHeaders (response : Response) : XAPIRateLimit :=
  {| limit := JS.parseInt (JS.or_default (headers response !! "x-rate-limit-limit") "0");
     remaining := JS.parseInt (JS.or_default (headers response !! "x-rate-limit-remaining") "0");
     reset := JS.parseInt (JS.or_default (headers response !! "x-rate-limit-reset") "0") |}.

(** [shouldBackoff(rateLimit)]: the quotient is a double, and so is the
    literal [0.15]. *)
Definition shouldBackoff (rateLimit : XAPIRateLimit) : bool :=
  if JS.strict_eq (limit rateLimit) (JS.of_Z 0) then false
  else
    let remainingPercentage :=
      JS.round (JS.div (remaining rateLimit) (limit rateLimit)) in
    JS.lt remainingPercentage (JS.nearest (15 # 100)).

(** [logRateLimitStatus(rateLimit)]: with a positive limit it formats
    [new Date(rateLimit.reset * 1000).toISOString()] for its log line,
    which throws a [RangeError] when the date is invalid; the message is
    the one V8 gives, the engine of the Workers runtime. *)
Definition logRateLimitStatus (rateLimit : XAPIRateLimit) : Result unit :=
  if JS.lt (JS.of_Z 0) (limit rateLimit) then
    if JS.isTimeValue (JS.mul (reset rateLimit) (JS.of_Z 1000)) then Ok tt
    else Throw "Invalid time value"
  else Ok tt.

Definition isRetryableError (message : string) : bool :=
  if JS.includes "Rate limited" message then true
  else if JS.includes "HTTP 5" message then true
  else if JS.includes "timeout" message then true
  else false.

(** [Math.min(1000 * Math.pow(2, attempt), 60000)] *)
Definition backoffTime (attempt : Z) : Z :=
  Z.min (1000 * 2 ^ attempt) 60000.

(** The [try] block of [makeRequestWithBackoff] from the point where
    [requestFn()] has settled: the log line, the proactive slowdown, then
    the classification of the response. *)
Definition attemptOnce (config : RateLimiterConfig) (outcome : Outcome)
  : Result Response * list Event :=
  match outcome with
  | Rejects message => (Throw message, [])
  | Fulfils response =>
      let rateLimit := parseRateLimitHeaders response in
      match logRateLimitStatus rateLimit with
      | Throw error => (Throw error, [])
      | Ok _ =>
          let slowdown :=
            if shouldBackoff rateLimit
            then [EvDelay (requestDelayMs config * 2)] else [] in
          if status response =? 429 then (Throw "Rate limited", slowdown)
          else if negb (ok response) then
            (Throw ("HTTP " ++ JS.show (status response) ++ ": "
                      ++ statusText response),
             slowdown)
          else (Ok response, slowdown)
      end
  end.

Equations? makeRequestWithBackoff (config : RateLimiterConfig)
    (requestFn : RequestFn) (attempt : Z) : Result Response * list Event
    by wf (Z.to_nat (maxRetries config - attempt)) lt :=
  makeRequestWithBackoff config requestFn attempt
    with attemptOnce config (requestFn attempt) => {
    | (Ok response, events) := (Ok response, EvInvoke :: events);
    | (Throw error, events)
        with Logic.inspect ((attempt <? maxRetries config) && isRetryableError error) => {
        | exist _ true retry :=
            let rest := makeRequestWithBackoff config requestFn (attempt + 1) in
            (fst rest,
             EvInvoke :: events ++ EvDelay (backoffTime attempt) :: snd rest);
        | exist _ false _ := (Throw error, EvInvoke :: events) } }.
Proof.
  apply andb_prop in retry as [retry _].
  apply Z.ltb_lt in retry. lia.
Qed.

(** *** The queue and the worker loop *)

(** The state of the promise returned by [makeRequest]. *)
Inductive PromiseState : Type :=
| Pending
| Resolved (data : string)
| Rejected (error : string).

(** An element of [requestQueue]: the closure pushed by [makeRequest].
    It captures the [resolve]/[reject] pair of one promise, named here by
    the promise's serial number, and the caller's [requestFn]. *)
Record QueuedRequest : Type := {
  promise : nat;
  requestFn : RequestFn;
}.

(** The private fields of [class XAPIRateLimiter]. *)
Record XAPIRateLimiter : Type := {
  requestQueue : list QueuedRequest;
  requestCount : Z;
  windowStart : Z;
  isProcessing : bool;
}.

(** What an observer can see the limiter do. *)
Inductive Action : Type :=
| Dispatched (promise : nat)
| Slept (ms : Z)
| Cleared (promises : list nat).

(** The limiter together with the promises it has handed out, the
    requests that were started and have not settled yet, and the
    chronological record of its actions. *)
Record System : Type := {
  this : XAPIRateLimiter;
  promises : list PromiseState;
  inFlight : list QueuedRequest;
  journal : list Action;
}.

(** [new XAPIRateLimiter(config)], constructed when the clock reads [now]. *)
Definition create (now : Z) : System :=
  {| this := {| requestQueue := []; requestCount := 0;
                windowStart := now; isProcessing := false |};
     promises := []; inFlight := []; journal := [] |}.

(** The body of the queued closure once it is called: the backoff wrapper,
    then [response.json()], then [resolve] or [reject]. *)
Definition settlement (config : RateLimiterConfig) (request : QueuedRequest)
  : PromiseState :=
  match fst (makeRequestWithBackoff config (requestFn request) 0) with
  | Ok response =>
      match json response with
      | Ok data => Resolved data
      | Throw error => Rejected error
      end
  | Throw error => Rejected error
  end.

(** Lines 59-63: the window is replaced once it is older than
    [windowDurationMs]. *)
Definition rollover (config : RateLimiterConfig) (now : Z)
    (l : XAPIRateLimiter) : XAPIRateLimiter :=
  if now - windowStart l >=? windowDurationMs config then
    {| requestQueue := requestQueue l; requestCount := 0;
       windowStart := now; isProcessing := isProcessing l |}
  else l.

(** One pass of the [while] loop of [processQueue], from the loop test up
    to the next [await]; [now] is what [Date.now()] returns in that pass.
    When the queue is empty the loop is left and [isProcessing] is
    cleared. *)
Definition processQueue_loop (config : RateLimiterConfig) (now : Z)
    (sys : System) : System :=
  match requestQueue (this sys) with
  | [] =>
      {| this := {| requestQueue := []; requestCount := requestCount (this sys);
                    windowStart := windowStart (this sys);
                    isProcessing := false |};
         promises := promises sys; inFlight := inFlight sys;
         journal := journal sys |}
  | _ :: _ =>
      let l := rollover config now (this sys) in
      if requestCount l <? maxRequestsPerWindow config then
        match requestQueue l with
        | request :: rest =>
            {| this := {| requestQueue := rest;
                          requestCount := requestCount l + 1;
                          windowStart := windowStart l;
                          isProcessing := isProcessing l |};
               promises := promises sys;
               inFlight := inFlight sys ++ [request];
               journal := journal sys ++ [Dispatched (promise request)] |}
        | [] =>
            {| this := l; promises := promises sys; inFlight := inFlight sys;
               journal := journal sys |}
        end
      else
        let waitTime := windowDurationMs config - (now - windowStart l) in
        {| this := l; promises := promises sys; inFlight := inFlight sys;
           journal := journal sys ++ [Slept waitTime] |}
  end.

(** [processQueue()] up to its first [await]. *)
Definition processQueue (config : RateLimiterConfig) (now : Z)
    (sys : System) : System :=
  if isProcessing (this sys) || (length (requestQueue (this sys)) =? 0)%nat
  then sys
  else
    processQueue_loop config now
      {| this := {| requestQueue := requestQueue (this sys);
                    requestCount := requestCount (this sys);
                    windowStart := windowStart (this sys);
                    isProcessing := true |};
         promises := promises sys; inFlight := inFlight sys;
         journal := journal sys |}.

(** [makeRequest(requestFn)]: a new promise is created, the closure is
    pushed, and [processQueue()] is called. *)
Definition makeRequest (config : RateLimiterConfig) (fn : RequestFn)
    (now : Z) (sys : System) : System :=
  let request := {| promise := length (promises sys); requestFn := fn |} in
  processQueue config now
    {| this := {| requestQueue := requestQueue (this sys) ++ [request];
                  requestCount := requestCount (this sys);
                  windowStart := windowStart (this sys);
                  isProcessing := isProcessing (this sys) |};
       promises := promises sys ++ [Pending];
       inFlight := inFlight sys;
       journal := journal sys |}.

(** The [k]-th request in flight settles: its promise is resolved or
    rejected, and the worker that awaited it goes on to line 79, where it
    sleeps [requestDelayMs] if the queue is not empty and leaves the loop
    otherwise. *)
Definition requestSettles (config : RateLimiterConfig) (k : nat)
    (sys : System) : System :=
  match inFlight sys !! k with
  | None => sys
  | Some request =>
      let settled :=
        <[promise request := settlement config request]> (promises sys) in
      match requestQueue (this sys) with
      | _ :: _ =>
          {| this := this sys; promises := settled;
             inFlight := delete k (inFlight sys);
             journal := journal sys ++ [Slept (requestDelayMs config)] |}
      | [] =>
          {| this := {| requestQueue := [];
                        requestCount := requestCount (this sys);
                        windowStart := windowStart (this sys);
                        isProcessing := false |};
             promises := settled;
             inFlight := delete k (inFlight sys);
             journal := journal sys |}
      end
  end.

(** [clearQueue()] *)
Definition clearQueue (sys : System) : System :=
  {| this := {| requestQueue := [];
                requestCount := requestCount (this sys);
                windowStart := windowStart (this sys);
                isProcessing := false |};
     promises := promises sys;
     inFlight := inFlight sys;
     journal := journal sys ++ [Cleared (map promise (requestQueue (this sys)))] |}.

(** [getStatus()] *)
Record Status : Type := {
  queueLength : nat;
  status_requestCount : Z;
  maxRequests : Z;
  status_windowStart : Z;
  status_isProcessing : bool;
}.

Definition getStatus (config : RateLimiterConfig) (sys : System) : Status :=
  {| queueLength := length (requestQueue (this sys));
     status_requestCount := requestCount (this sys);
     maxRequests := maxRequestsPerWindow config;
     status_windowStart := windowStart (this sys);
     status_isProcessing := isProcessing (this sys) |}.

(** Everything that can happen to a limiter: a caller invokes
    [makeRequest] or [clearQueue], a request in flight settles, or a
    worker wakes up from a [delay] and runs the loop again. *)
Inductive Step : Type :=
| MakeRequest (fn : RequestFn) (now : Z)
| Settles (k : nat)
| Wakes (now : Z)
| ClearQueue.

Definition step (config : RateLimiterConfig) (sys : System) (s : Step) : System :=
  match s with
  | MakeRequest fn now => makeRequest config fn now sys
  | Settles k => requestSettles config k sys
  | Wakes now => processQueue_loop config now sys
  | ClearQueue => clearQueue sys
  end.

Definition run (config : RateLimiterConfig) (steps : list Step) (sys : System)
  : System :=
  fold_left (step config) steps sys.

(** How many times [makeRequest] is called in a sequence of steps. *)
Fixpoint makeRequests (steps : list Step) : nat :=
  match steps with
  | [] => 0%nat
  | MakeRequest _ _ :: rest => S (makeRequests rest)
  | _ :: rest => makeRequests rest
  end.

(** The promises whose requests were started, in the order they were. *)
Fixpoint dispatched (actions : list Action) : list nat :=
  match actions with
  | [] => []
  | Dispatched p :: rest => p :: dispatched rest
  | _ :: rest => dispatched rest
  end.

(** The promises whose requests [clearQueue] threw away. *)
Fixpoint dropped (actions : list Action) : list nat :=
  match actions with
  | [] => []
  | Cleared ps :: rest => ps ++ dropped rest
  | _ :: rest => dropped rest
  end.

(** *** Vocabulary for the properties of the limiter *)

(** The window's invariant: the count is a count, and it is within a
    bound that the limit does not exceed. *)
Definition withinBound (bound : Z) (sys : System) : Prop :=
  0 <= requestCount (this sys) <= bound.

(** The promises of the requests that wait in the queue, head first. *)
Definition queued (sys : System) : list nat :=
  map promise (requestQueue (this sys)).

(** The bookkeeping that holds of every limiter since its construction,
    stated of the promises of the requests started ([D]), waiting ([Q])
    and thrown away ([X]), of the promises handed out ([P]) and of the
    requests in flight ([F]).  Promises are numbered in the order
    [makeRequest] was called, so [lt] on promises is "was enqueued
    before". *)
Record Bookkeeping (D Q X : list nat) (P : list PromiseState)
    (F : list QueuedRequest) : Prop := {
  (** started requests, then waiting ones, are in enqueue order *)
  in_order : StronglySorted lt (D ++ Q);
  (** every promise mentioned has been handed out *)
  handed_out : forall p, p ∈ D ++ Q ++ X -> (p < length P)%nat;
  (** every promise handed out is started, waiting, or was thrown away *)
  accounted : forall p, (p < length P)%nat -> p ∈ D \/ p ∈ Q \/ p ∈ X;
  (** a request in flight was started *)
  started : forall request, request ∈ F -> promise request ∈ D;
  (** what was thrown away is neither started nor waiting *)
  apart : forall p, p ∈ X -> p ∉ D ++ Q;
  (** the promise of a request that waits or was thrown away is pending *)
  unsettled : forall p, p ∈ Q ++ X -> P !! p = Some Pending;
}.

Definition consistent (sys : System) : Prop :=
  Bookkeeping (dispatched (journal sys)) (queued sys) (dropped (journal sys))
              (promises sys) (inFlight sys).

(** *** Vocabulary for the properties of the backoff wrapper *)

(** A call of the unit of work ends in an error the wrapper retries. *)
Definition failsRetryably (config : RateLimiterConfig) (outcome : Outcome) : Prop :=
  exists error,
    fst (attemptOnce config outcome) = Throw error /\
    isRetryableError error = true.

(** The number of times the unit of work was called. *)
Fixpoint invocations (events : list Event) : nat :=
  match events with
  | [] => 0%nat
  | EvInvoke :: rest => S (invocations rest)
  | EvDelay _ :: rest => invocations rest
  end.

(** The proactive slowdown that follows the call made at attempt [k]. *)
Definition slowdownAfter (config : RateLimiterConfig) (fn : RequestFn) (k : Z)
  : list Event :=
  snd (attemptOnce config (fn k)).


(** [DEFAULT_RATE_LIMIT_CONFIG] *)
Definition DEFAULT_RATE_LIMIT_CONFIG : RateLimiterConfig :=
  {| maxRequestsPerWindow := 200;
     windowDurationMs := 15 * 60 * 1000;
     requestDelayMs := 4500;
     maxRetries := 3 |}.

(** The two variables of the environment [createRateLimiter] looks at;
    [None] is a variable that is not set (or an [env] that is
    [undefined]), for which [parseInt] gives [NaN]. *)
Record LimiterEnv : Type := {
  MAX_REQUESTS_PER_WINDOW : option string;
  REQUEST_DELAY_MS : option string;
}.

(** [parseInt(env?.NAME)] *)
Definition parseVariable (value : option string) : option Z :=
  match value with
  | Some s => JS.parseInteger s
  | None => None
  end.

(** [createRateLimiter(env)], as the configuration of the limiter it
    constructs. *)
Definition createRateLimiter (env : LimiterEnv) : RateLimiterConfig :=
  {| maxRequestsPerWindow :=
       JS.integer_or (parseVariable (MAX_REQUESTS_PER_WINDOW env))
                     (maxRequestsPerWindow DEFAULT_RATE_LIMIT_CONFIG);
     windowDurationMs := windowDurationMs DEFAULT_RATE_LIMIT_CONFIG;
     requestDelayMs :=
       JS.integer_or (parseVariable (REQUEST_DELAY_MS env))
                     (requestDelayMs DEFAULT_RATE_LIMIT_CONFIG);
     maxRetries := maxRetries DEFAULT_RATE_LIMIT_CONFIG |}.

(** *** More vocabulary *)

(** What the wrapper does when the attempts before [k] are retried and
    attempt [k] is the last: each retried attempt is a call, its slowdown
    if any, and the backoff wait; the last is a call and its slowdown. *)
Definition retriedSchedule (config : RateLimiterConfig) (fn : RequestFn)
    (k : Z) : list Event :=
  concat
    (map (fun j =>
            EvInvoke :: slowdownAfter config fn j
              ++ [EvDelay (Z.min (1000 * 2 ^ j) 60000)])
         (seqZ 0 k))
  ++ EvInvoke :: slowdownAfter config fn k.

(** The readings of the clock that a sequence of steps makes. *)
Fixpoint readings (steps : list Step) : list Z :=
  match steps with
  | [] => []
  | MakeRequest _ now :: rest => now :: readings rest
  | Wakes now :: rest => now :: readings rest
  | _ :: rest => readings rest
  end.

(** While the clock stays inside the window that began at [now0], the
    count is the number of requests started. *)
Definition countsDispatches (config : RateLimiterConfig) (now0 : Z)
    (sys : System) : Prop :=
  windowStart (this sys) = now0 /\
  requestCount (this sys) = Z.of_nat (length (dispatched (journal sys))) /\
  requestCount (this sys) <= Z.max 0 (maxRequestsPerWindow config).

(** The requests in flight have different promises, all pending. *)
Definition flightsPending (sys : System) : Prop :=
  NoDup (map promise (inFlight sys)) /\
  forall request,
    request ∈ inFlight sys -> promises sys !! promise request = Some Pending.

End RateLimiter.

(** ** The cron handlers *)

Module Cron.

(** An element of the array [getConnectedXAccounts] resolves to;
    [account_id] is its field [id]. *)
Record Account : Type := {
  account_id : string;
  username : string;
  userId : string;
}.

(** [syncProgress] *)
Record SyncProgress : Type := {
  totalAccounts : Z;
  processedAccounts : Z;
  successfulAccounts : Z;
  failedAccounts : Z;
  totalTweets : Z;
  errors : list string;
}.

(** [syncResult] and [errorResult]: [progress] stands for the six fields
    that are spread into, or written out in, the object literal; [error]
    is present in [errorResult] only.  [timestamp] is kept as the clock
    reading that [toISOString] prints. *)
Record SyncResult : Type := {
  id : string;
  timestamp : Z;
  duration : Z;
  error : option string;
  progress : SyncProgress;
}.

(** A value held by the [SYNC_STATE] namespace: the text
    [JSON.stringify] makes of a sync result, or any other text. *)
Inductive KVText : Type :=
| JSON_stringify (result : SyncResult)
| Text (s : string).

(** The argument of [ANALYTICS.writeDataPoint]. *)
Record DataPoint : Type := {
  blobs : list string;
  doubles : list Z;
  indexes : list Z;
}.

(** Everything the handlers depend on and do not define: the clock, the
    account directory, the outcome of each account's sync, and the
    key-value store's failures.  In the repository [getConnectedXAccounts]
    is a placeholder that resolves to one fixed account; it stands for a
    database query, so what it settles to is left open here. *)
Record Externals : Type := {
  (** the [n]-th reading of the clock, by [Date.now()] or [new Date()] *)
  clock : nat -> Z;
  (** what [getConnectedXAccounts(env)] settles to *)
  connectedXAccounts : Result (list Account);
  (** what [syncAccountData(account, rateLimiter, env)] settles to for the
      account at a position of the list: [tweetsProcessed], or an error.
      A sync whose request the limiter never dispatches does not settle,
      and the handler waits for it for ever; the handlers are modelled
      for the runs in which every sync settles. *)
  accountData : nat -> Account -> Result Z;
  (** the error of the [n]-th [SYNC_STATE.put], if it throws *)
  putError : nat -> option string;
  (** the error of [SYNC_STATE.get], if it throws *)
  getError : option string;
  (** [new Date(JSON.parse(text).timestamp).getTime()] for a text that is
      not a stored sync result *)
  markerTime : string -> Result JS.number;
  (** [env.ENVIRONMENT] *)
  ENVIRONMENT : string;
}.

(** What the handlers change. *)
Record World : Type := {
  clockReadings : nat;
  puts : nat;
  SYNC_STATE : gmap string KVText;
  ANALYTICS : list DataPoint;
  alerts : list (string * SyncResult);
}.

(** A computation that reads and changes the world and may throw. *)
Definition M (A : Type) : Type := World -> Result A * World.

Definition ret {A} (a : A) : M A := fun w => (Ok a, w).

Definition throw {A} (message : string) : M A := fun w => (Throw message, w).

Definition bind {A B} (c : M A) (k : A -> M B) : M B :=
  fun w =>
    match c w with
    | (Ok a, w') => k a w'
    | (Throw message, w') => (Throw message, w')
    end.

(** [try { c } catch (error) { handler }], with [error.message] bound in
    the handler. *)
Definition try_catch {A} (c : M A) (handler : string -> M A) : M A :=
  fun w =>
    match c w with
    | (Ok a, w') => (Ok a, w')
    | (Throw message, w') => handler message w'
    end.

(** [await] of something that settles outside the handlers. *)
Definition await {A} (r : Result A) : M A := fun w => (r, w).

Notation "'let*' x ':=' c 'in' k" := (bind c (fun x => k))
  (at level 10, x name, c at level 100, k at level 200).

Section Handlers.

Variable env : Externals.

(** [Date.now()] *)
Definition Date_now : M Z :=
  fun w =>
    (Ok (clock env (clockReadings w)),
     {| clockReadings := S (clockReadings w); puts := puts w;
        SYNC_STATE := SYNC_STATE w; ANALYTICS := ANALYTICS w;
        alerts := alerts w |}).

(** [env.SYNC_STATE.put(key, value, ...)] *)
Definition SYNC_STATE_put (key : string) (value : KVText) : M unit :=
  fun w =>
    match putError env (puts w) with
    | Some message =>
        (Throw message,
         {| clockReadings := clockReadings w; puts := S (puts w);
            SYNC_STATE := SYNC_STATE w; ANALYTICS := ANALYTICS w;
            alerts := alerts w |})
    | None =>
        (Ok tt,
         {| clockReadings := clockReadings w; puts := S (puts w);
            SYNC_STATE := <[key := value]> (SYNC_STATE w);
            ANALYTICS := ANALYTICS w; alerts := alerts w |})
    end.

(** [env.SYNC_STATE.get(key)] *)
Definition SYNC_STATE_get (key : string) : M (option KVText) :=
  fun w =>
    match getError env with
    | Some message => (Throw message, w)
    | None => (Ok (SYNC_STATE w !! key), w)
    end.

(** [env.ANALYTICS.writeDataPoint(point)] *)
Definition writeDataPoint (point : DataPoint) : M unit :=
  fun w =>
    (Ok tt,
     {| clockReadings := clockReadings w; puts := puts w;
        SYNC_STATE := SYNC_STATE w; ANALYTICS := ANALYTICS w ++ [point];
        alerts := alerts w |}).

(** [sendSyncAlert(message, data, env)] *)
Definition sendSyncAlert (message : string) (data : SyncResult) : M unit :=
  fun w =>
    (Ok tt,
     {| clockReadings := clockReadings w; puts := puts w;
        SYNC_STATE := SYNC_STATE w; ANALYTICS := ANALYTICS w;
        alerts := alerts w ++ [(message, data)] |}).

(** [saveSyncResult(result, env)] *)
Definition saveSyncResult (result : SyncResult) : M unit :=
  let key := ("sync-result-" ++ id result)%string in
  SYNC_STATE_put key (JSON_stringify result).

(** The [for] loop of [handleDailyXSync] (lines 63-85), from the account
    at position [index] on. *)
Fixpoint syncAccounts (index : nat) (accounts : list Account)
    (syncProgress : SyncProgress) : M SyncProgress :=
  match accounts with
  | [] => ret syncProgress
  | account :: rest =>
      let* syncProgress :=
        try_catch
          (let* tweetsProcessed := await (accountData env index account) in
           ret {| totalAccounts := totalAccounts syncProgress;
                  processedAccounts := processedAccounts syncProgress + 1;
                  successfulAccounts := successfulAccounts syncProgress + 1;
                  failedAccounts := failedAccounts syncProgress;
                  totalTweets := totalTweets syncProgress + tweetsProcessed;
                  errors := errors syncProgress |})
          (fun message =>
             ret {| totalAccounts := totalAccounts syncProgress;
                    processedAccounts := processedAccounts syncProgress + 1;
                    successfulAccounts := successfulAccounts syncProgress;
                    failedAccounts := failedAccounts syncProgress + 1;
                    totalTweets := totalTweets syncProgress;
                    errors := errors syncProgress
                                ++ [(username account ++ ": " ++ message)%string] |}) in
      syncAccounts (S index) rest syncProgress
  end.

(** [syncProgress.failedAccounts > syncProgress.totalAccounts * 0.2],
    over exact rationals.  In doubles [n * 0.2] is [n / 5] when 5 divides
    [n] and is otherwise off by far less than the distance to the nearest
    integer, so for two integer counts the comparison comes out the
    same. *)
Definition highFailureRate (syncProgress : SyncProgress) : bool :=
  JS.Qlt_bool (inject_Z (totalAccounts syncProgress) * (2 # 10))
              (inject_Z (failedAccounts syncProgress)).

(** [handleDailyXSync(env)].  The rate limiter made on line 41 is only
    handed to [syncAccountData], whose outcome is [accountData env]. *)
Definition handleDailyXSync : M unit :=
  let* startTime := Date_now in
  let* stamp := Date_now in
  let syncId := ("sync-" ++ JS.show stamp)%string in
  try_catch
    (let* connectedAccounts := await (connectedXAccounts env) in
     if (length connectedAccounts =? 0)%nat then ret tt
     else
       let* syncProgress :=
         syncAccounts 0 connectedAccounts
           {| totalAccounts := Z.of_nat (length connectedAccounts);
              processedAccounts := 0; successfulAccounts := 0;
              failedAccounts := 0; totalTweets := 0; errors := [] |} in
       let* date := Date_now in
       let* finish := Date_now in
       let syncResult :=
         {| id := syncId; timestamp := date; duration := finish - startTime;
            error := None; progress := syncProgress |} in
       let* _ := saveSyncResult syncResult in
       let* _ :=
         writeDataPoint
           {| blobs := [syncId; ENVIRONMENT env];
              doubles := [totalTweets syncProgress; duration syncResult];
              indexes := [successfulAccounts syncProgress] |} in
       if highFailureRate syncProgress
       then sendSyncAlert "High failure rate in daily sync" syncResult
       else ret tt)
    (fun message =>
       let* date := Date_now in
       let* finish := Date_now in
       let errorResult :=
         {| id := syncId; timestamp := date; duration := finish - startTime;
            error := Some message;
            progress :=
              {| totalAccounts := 0; processedAccounts := 0;
                 successfulAccounts := 0; failedAccounts := 0;
                 totalTweets := 0; errors := [message] |} |} in
       let* _ := saveSyncResult errorResult in
       let* _ := sendSyncAlert "Daily sync completely failed" errorResult in
       throw message).

(** [!data] for a text read from the store: only the empty string is
    falsy. *)
Definition isEmpty (data : KVText) : bool :=
  match data with
  | Text s => String.eqb s ""
  | JSON_stringify _ => false
  end.

(** [new Date(JSON.parse(data).timestamp).getTime()] *)
Definition lastSyncTimeOf (data : KVText) : M JS.number :=
  match data with
  | JSON_stringify result => ret (JS.of_Z (timestamp result))
  | Text s => await (markerTime env s)
  end.

(** [checkLastSyncHealth(env)]; [handleHealthCheck] stores its answer in
    [healthChecks.lastSync].  The quotient by the milliseconds of an hour
    is compared with 25 over exact rationals, which for integer clock
    readings is what the doubles give. *)
Definition checkLastSyncHealth : M bool :=
  try_catch
    (let lastSyncKey := "last-successful-sync" in
     let* lastSyncData := SYNC_STATE_get lastSyncKey in
     match lastSyncData with
     | None => ret false
     | Some data =>
         if isEmpty data then ret false
         else
           let* lastSyncTime := lastSyncTimeOf data in
           let* now := Date_now in
           let hoursSinceLastSync :=
             JS.div (JS.sub (JS.of_Z now) lastSyncTime)
                    (JS.of_Z (1000 * 60 * 60)) in
           ret (JS.lt hoursSinceLastSync (JS.of_Z 25))
     end)
    (fun _ => ret false).

(** *** Vocabulary for the properties of the sync run *)

(** The accounts, from position [index] on, whose sync throws, each with
    the message of its error. *)
Fixpoint failures (index : nat) (accounts : list Account)
  : list (Account * string) :=
  match accounts with
  | [] => []
  | account :: rest =>
      match accountData env index account with
      | Throw message => (account, message) :: failures (S index) rest
      | Ok _ => failures (S index) rest
      end
  end.

(** The accounts, from position [index] on, whose sync succeeds, each with
    its number of tweets. *)
Fixpoint successes (index : nat) (accounts : list Account)
  : list (Account * Z) :=
  match accounts with
  | [] => []
  | account :: rest =>
      match accountData env index account with
      | Throw _ => successes (S index) rest
      | Ok tweetsProcessed => (account, tweetsProcessed) :: successes (S index) rest
      end
  end.

(** The identifier a run that starts in [w] gives itself: the second
    reading of the clock. *)
Definition syncIdAt (w : World) : string :=
  ("sync-" ++ JS.show (clock env (S (clockReadings w))))%string.

End Handlers.

(** The entry of [errors] for a failed account. *)
Definition errorLine (failure : Account * string) : string :=
  (username (fst failure) ++ ": " ++ snd failure)%string.

Definition sumZ (zs : list Z) : Z := fold_right Z.add 0 zs.

(** The sync result of a run that starts in [w], gets [accounts] from the
    directory and goes through to the end. *)
Definition completedRun (env : Externals) (w : World) (accounts : list Account)
  : SyncResult :=
  {| id := syncIdAt env w;
     timestamp := clock env (2 + clockReadings w);
     duration := clock env (3 + clockReadings w) - clock env (clockReadings w);
     error := None;
     progress :=
       {| totalAccounts := Z.of_nat (length accounts);
          processedAccounts := Z.of_nat (length accounts);
          successfulAccounts := Z.of_nat (length (successes env 0 accounts));
          failedAccounts := Z.of_nat (length (failures env 0 accounts));
          totalTweets := sumZ (map snd (successes env 0 accounts));
          errors := map errorLine (failures env 0 accounts) |} |}.

(** The sync result of a run that starts in [w] and whose [try] block
    throws [message]. *)
Definition failedRun (env : Externals) (w : World) (message : string)
  : SyncResult :=
  {| id := syncIdAt env w;
     timestamp := clock env (2 + clockReadings w);
     duration := clock env (3 + clockReadings w) - clock env (clockReadings w);
     error := Some message;
     progress :=
       {| totalAccounts := 0; processedAccounts := 0; successfulAccounts := 0;
          failedAccounts := 0; totalTweets := 0; errors := [message] |} |}.

(** The sync result of a run that starts in [w] and whose [try] block
    throws [message] after the loop, when the clock has been read four
    times. *)
Definition lateFailedRun (env : Externals) (w : World) (message : string)
  : SyncResult :=
  {| id := syncIdAt env w;
     timestamp := clock env (4 + clockReadings w);
     duration := clock env (5 + clockReadings w) - clock env (clockReadings w);
     error := Some message;
     progress :=
       {| totalAccounts := 0; processedAccounts := 0; successfulAccounts := 0;
          failedAccounts := 0; totalTweets := 0; errors := [message] |} |}.

(** The key under which a run that starts in [w] saves its result. *)
Definition resultKeyAt (env : Externals) (w : World) : string :=
  ("sync-result-" ++ syncIdAt env w)%string.

(** The world before a handler's first run. *)
Definition pristine : World :=
  {| clockReadings := 0; puts := 0; SYNC_STATE := ∅; ANALYTICS := [];
     alerts := [] |}.

End Cron.

(** ** The worker: scheduled events and health checks *)

Module Worker.

Import Cron.

(** [healthChecks] *)
Record HealthChecks : Type := {
  database : bool;
  xApi : bool;
  cache : bool;
  lastSync : bool;
}.

(** A value held by the [CACHE] namespace: the text [JSON.stringify]
    makes of a health snapshot, or any other text. *)
Inductive CacheText : Type :=
| HealthSnapshot (timestamp : Z) (checks : HealthChecks) (healthy : bool)
| Plain (s : string).

(** The second argument of [sendHealthAlert]. *)
Inductive HealthAlertData : Type :=
| Checks (checks : HealthChecks)
| ErrorMessage (message : string).

(** What the worker depends on besides what the cron handlers do: the
    outcome of the probe of the X API ([response.ok], or an error), the
    failures of the cache, and the text [JSON.stringify] makes of the
    marker of a successful sync. *)
Record Surroundings : Type := {
  cronEnv : Externals;
  xApiProbe : Result bool;
  cachePutError : nat -> option string;
  cacheGetError : option string;
  stringifyMarker : Z -> string -> string;
}.

(** What the worker changes: the world of the cron handlers, the cache
    (each value with its [expirationTtl], in seconds) and the health
    alerts. *)
Record State : Type := {
  world : World;
  CACHE : gmap string (CacheText * Z);
  cachePuts : nat;
  healthAlerts : list (string * HealthAlertData);
}.

Definition W (A : Type) : Type := State -> Result A * State.

Definition wret {A} (a : A) : W A := fun s => (Ok a, s).

Definition wthrow {A} (message : string) : W A := fun s => (Throw message, s).

Definition wbind {A B} (c : W A) (k : A -> W B) : W B :=
  fun s =>
    match c s with
    | (Ok a, s') => k a s'
    | (Throw message, s') => (Throw message, s')
    end.

Definition wtry {A} (c : W A) (handler : string -> W A) : W A :=
  fun s =>
    match c s with
    | (Ok a, s') => (Ok a, s')
    | (Throw message, s') => handler message s'
    end.

(** A cron handler run by the worker. *)
Definition lift {A} (c : M A) : W A :=
  fun s =>
    let '(r, w) := c (world s) in
    (r, {| world := w; CACHE := CACHE s; cachePuts := cachePuts s;
           healthAlerts := healthAlerts s |}).

Notation "'let+' x ':=' c 'in' k" := (wbind c (fun x => k))
  (at level 10, x name, c at level 100, k at level 200).

Section Worker.

Variable sur : Surroundings.

(** [env.CACHE.put(key, value, { expirationTtl: ttl })] *)
Definition CACHE_put (key : string) (value : CacheText) (ttl : Z) : W unit :=
  fun s =>
    match cachePutError sur (cachePuts s) with
    | Some message =>
        (Throw message,
         {| world := world s; CACHE := CACHE s; cachePuts := S (cachePuts s);
            healthAlerts := healthAlerts s |})
    | None =>
        (Ok tt,
         {| world := world s; CACHE := <[key := (value, ttl)]> (CACHE s);
            cachePuts := S (cachePuts s); healthAlerts := healthAlerts s |})
    end.

(** [env.CACHE.get(key)] *)
Definition CACHE_get (key : string) : W (option CacheText) :=
  fun s =>
    match cacheGetError sur with
    | Some message => (Throw message, s)
    | None => (Ok (fst <$> CACHE s !! key), s)
    end.

(** [sendHealthAlert(message, data, env)] *)
Definition sendHealthAlert (message : string) (data : HealthAlertData) : W unit :=
  fun s =>
    (Ok tt,
     {| world := world s; CACHE := CACHE s; cachePuts := cachePuts s;
        healthAlerts := healthAlerts s ++ [(message, data)] |}).

(** [checkDatabaseHealth(env)]: its [try] block only returns [true]. *)
Definition checkDatabaseHealth : W bool :=
  wtry (wret true) (fun _ => wret false).

(** [checkXAPIHealth(env)] *)
Definition checkXAPIHealth : W bool :=
  wtry (fun s => (xApiProbe sur, s)) (fun _ => wret false).

(** [retrieved === testValue] *)
Definition sameText (retrieved : option CacheText) (testValue : string) : bool :=
  match retrieved with
  | Some (Plain s) => String.eqb s testValue
  | _ => false
  end.

(** [checkCacheHealth(env)] *)
Definition checkCacheHealth : W bool :=
  wtry
    (let testKey := "health-check-test" in
     let+ now := lift (Date_now (cronEnv sur)) in
     let testValue := JS.show now in
     let+ _ := CACHE_put testKey (Plain testValue) 60 in
     let+ retrieved := CACHE_get testKey in
     wret (sameText retrieved testValue))
    (fun _ => wret false).

(** [handleHealthCheck(env)] *)
Definition handleHealthCheck : W unit :=
  wtry
    (let+ database := checkDatabaseHealth in
     let+ xApi := checkXAPIHealth in
     let+ cache := checkCacheHealth in
     let+ lastSync := lift (checkLastSyncHealth (cronEnv sur)) in
     let healthChecks :=
       {| database := database; xApi := xApi; cache := cache;
          lastSync := lastSync |} in
     let allHealthy := database && xApi && cache && lastSync in
     let+ _ :=
       if negb allHealthy
       then sendHealthAlert "Health check failed" (Checks healthChecks)
       else wret tt in
     let+ date := lift (Date_now (cronEnv sur)) in
     CACHE_put "health-check" (HealthSnapshot date healthChecks allHealthy)
               (6 * 60 * 60))
    (fun message => sendHealthAlert "Health check error" (ErrorMessage message)).

(** [handleMonthlyCleanup(env)]: it computes a cutoff date from the clock
    and does nothing with it. *)
Definition handleMonthlyCleanup : W unit :=
  wtry
    (let+ cutoffDate := lift (Date_now (cronEnv sur)) in
     wret tt)
    (fun _ => wret tt).

(** [handleScheduled(event, env, ctx)], for an event whose [cron] is the
    given pattern and whose [scheduledTime] is a time, as the runtime's
    are: the log line on line 206 formats it with [toISOString]. *)
Definition handleScheduled (cron : string) : W unit :=
  wtry
    (if String.eqb cron "30 2 * * *" then
       let+ _ := lift (handleDailyXSync (cronEnv sur)) in
       let+ date := lift (Date_now (cronEnv sur)) in
       lift (SYNC_STATE_put (cronEnv sur) "last-successful-sync"
               (Text (stringifyMarker sur date cron)))
     else if String.eqb cron "0 */6 * * *" then handleHealthCheck
     else if String.eqb cron "0 0 1 * *" then handleMonthlyCleanup
     else wret tt)
    (fun message => wthrow message).

(** *** Vocabulary for the properties of the health check *)

(** The answer of the probe of the X API. *)
Definition probeAnswer : bool :=
  match xApiProbe sur with
  | Ok b => b
  | Throw _ => false
  end.

(** The answer of the cache check in state [s]. *)
Definition cacheAnswer (s : State) : bool :=
  match cachePutError sur (cachePuts s), cacheGetError sur with
  | None, None => true
  | _, _ => false
  end.

(** The cache after the cache check in state [s]. *)
Definition cacheAfterTest (s : State) : gmap string (CacheText * Z) :=
  match cachePutError sur (cachePuts s) with
  | None =>
      <["health-check-test" :=
          (Plain (JS.show (clock (cronEnv sur) (clockReadings (world s)))), 60)]>
        (CACHE s)
  | Some _ => CACHE s
  end.

(** The world in which the freshness check runs: after the cache check
    has read the clock. *)
Definition worldAtFreshnessCheck (s : State) : World :=
  snd (Date_now (cronEnv sur) (world s)).

(** The answer of the freshness check in that world. *)
Definition freshnessAnswer (s : State) : bool :=
  match fst (checkLastSyncHealth (cronEnv sur) (worldAtFreshnessCheck s)) with
  | Ok b => b
  | Throw _ => false
  end.

(** The four answers, and their conjunction. *)
Definition checksOf (s : State) : HealthChecks :=
  {| database := true; xApi := probeAnswer; cache := cacheAnswer s;
     lastSync := freshnessAnswer s |}.

Definition allHealthy (s : State) : bool :=
  true && probeAnswer && cacheAnswer s && freshnessAnswer s.

End Worker.

(** The milliseconds of a day, and of 02:30 into it. *)
Definition msPerDay : Z := 24 * 60 * 60 * 1000.

Definition syncTimeOfDay : Z := (2 * 60 + 30) * 60 * 1000.

(** [getNextSyncTime()] for a clock that reads [now]: the date is set to
    02:30:00.000 UTC of the day of [now], and moved to the next day if
    that is not after [now].  The result is the time that [toISOString]
    prints. *)
Definition nextSyncAfter (now : Z) : Z :=
  let nextSync := now - now mod msPerDay + syncTimeOfDay in
  if nextSync <=? now then nextSync + msPerDay else nextSync.

Definition getNextSyncTime (env : Externals) : M Z :=
  let* now := Date_now env in
  ret (nextSyncAfter now).

(** The state of a worker that has done nothing yet. *)
Definition atRest (w : World) : State :=
  {| world := w; CACHE := ∅; cachePuts := 0; healthAlerts := [] |}.

End Worker.

(** ** Sample inputs *)

Module Samples.

Import RateLimiter.

(** A response that carries no rate-limit header at all. *)
Definition bareResponse : Response :=
  {| status := 200; statusText := "OK"; headers := ∅; json := Ok "{}" |}.

(** A server that answers every call with 503 and a nearly spent quota. *)
Definition unavailable : Response :=
  {| status := 503; statusText := "Service Unavailable";
     headers := {[ "x-rate-limit-limit" := "300";
                   "x-rate-limit-remaining" := "12";
                   "x-rate-limit-reset" := "1700000000" ]};
     json := Throw "Unexpected token" |}.

Definition alwaysUnavailable : RequestFn := fun _ => Fulfils unavailable.

(** A small quota: two requests per second. *)
Definition tight : RateLimiterConfig :=
  {| maxRequestsPerWindow := 2; windowDurationMs := 1000;
     requestDelayMs := 100; maxRetries := 1 |}.

Definition succeeds : RequestFn := fun _ => Fulfils bareResponse.

(** Three requests made in a burst; the third has to wait for the next
    window. *)
Definition burst : list Step :=
  [MakeRequest succeeds 0; MakeRequest succeeds 1; MakeRequest succeeds 2;
   Settles 0; Wakes 110; Settles 0; Wakes 220; Wakes 1005; Settles 0].

(** Two requests, the second still waiting. *)
Definition oneWaiting : list Step :=
  [MakeRequest succeeds 0; MakeRequest succeeds 1].

Import Cron.

Definition account (n : string) : Account :=
  {| account_id := ("x_account_" ++ n)%string;
     username := ("user_" ++ n)%string;
     userId := ("user_id_" ++ n)%string |}.

Definition fiveAccounts : list Account :=
  [account "1"; account "2"; account "3"; account "4"; account "5"].

Definition tenAccounts : list Account :=
  fiveAccounts
    ++ [account "6"; account "7"; account "8"; account "9"; account "10"].

Definition steadyClock : nat -> Z := fun n => 1700000000000 + 1000 * Z.of_nat n.

(** A deployment whose directory answers [listing] and in which the sync
    of the accounts at the given positions fails. *)
Definition deployment (listing : Result (list Account)) (failing : list nat)
  : Externals :=
  {| clock := steadyClock;
     connectedXAccounts := listing;
     accountData := fun index _ =>
       if existsb (Nat.eqb index) failing then Throw "HTTP 401: Unauthorized"
       else Ok 7;
     putError := fun _ => None;
     getError := None;
     markerTime := fun _ => Throw "SyntaxError";
     ENVIRONMENT := "production" |}.

(** Five accounts of which the second and the fourth fail. *)
Definition twoOfFive : Externals := deployment (Ok fiveAccounts) [1; 3]%nat.

Definition threeOfTen : Externals := deployment (Ok tenAccounts) [1; 3; 8]%nat.

Definition twoOfTen : Externals := deployment (Ok tenAccounts) [1; 3]%nat.

Definition noAccounts : Externals := deployment (Ok []) [].

Definition directoryDown : Externals :=
  deployment (Throw "connect ECONNREFUSED") [].

(** A deployment in which the marker of the last successful sync was
    written [hours] hours before the clock's first reading. *)
Definition checkedAfter (hours : Z) : Externals :=
  {| clock := steadyClock;
     connectedXAccounts := Ok [];
     accountData := fun _ _ => Ok 0;
     putError := fun _ => None;
     getError := None;
     markerTime := fun _ =>
       Ok (JS.of_Z (1700000000000 - hours * (60 * 60 * 1000)));
     ENVIRONMENT := "production" |}.

Definition markerText : string := "{timestamp, cron}".

Definition marked : World :=
  {| clockReadings := 0; puts := 0;
     SYNC_STATE := {[ "last-successful-sync" := Text markerText ]};
     ANALYTICS := []; alerts := [] |}.

(** A server that throttles the first call and answers the second. *)
Definition throttled : Response :=
  {| status := 429; statusText := "Too Many Requests"; headers := ∅;
     json := Throw "Unexpected token" |}.

Definition throttledOnce : RequestFn :=
  fun attempt => if attempt =? 0 then Fulfils throttled else Fulfils bareResponse.

(** A server that throttles every call and sends a reset time that is
    not a number. *)
Definition unreadable : Response :=
  {| status := 429; statusText := "Too Many Requests";
     headers := {[ "x-rate-limit-limit" := "300";
                   "x-rate-limit-remaining" := "0";
                   "x-rate-limit-reset" := "soon" ]};
     json := Throw "Unexpected token" |}.

Definition alwaysUnreadable : RequestFn := fun _ => Fulfils unreadable.

(** Pairs of integers whose quotients and products exercise the rounding
    of doubles: ratios near 0.15, ties, tiny and huge results. *)
Definition numberPairs : list (Z * Z) :=
  [(15, 100); (44, 300); (45, 300); (12, 300); (1, 3); (2, 3); (-1, 3);
   (600000000000001, 4000000000000007); (600000000000002, 4000000000000007);
   (9007199254740991, 9007199254740989); (1, 9007199254740991);
   (9007199254740991, 7); (-9007199254740991, 1000); (1700000000, 1000);
   (8640000000000, 1000); (8640000000001, 1000); (4503599627370497, 2);
   (4503599627370499, 2); (0, 5)].

(** An environment that sets a negative limit. *)
Definition negativeLimit : LimiterEnv :=
  {| MAX_REQUESTS_PER_WINDOW := Some "-5"; REQUEST_DELAY_MS := None |}.

(** A response near the end of the quota. *)
Definition nearlySpent : Response :=
  {| status := 200; statusText := "OK";
     headers := {[ "x-rate-limit-limit" := "300";
                   "x-rate-limit-remaining" := "44" ]};
     json := Ok "{}" |}.

(** [twoOfFive] with a store that refuses the first write. *)
Definition storeHiccup : Externals :=
  {| clock := steadyClock;
     connectedXAccounts := Ok fiveAccounts;
     accountData := accountData twoOfFive;
     putError := fun n => if (n =? 0)%nat then Some "KV put failed" else None;
     getError := None;
     markerTime := fun _ => Throw "SyntaxError";
     ENVIRONMENT := "production" |}.

(** [twoOfFive] with a store that refuses every write. *)
Definition storeDown : Externals :=
  {| clock := steadyClock;
     connectedXAccounts := Ok fiveAccounts;
     accountData := accountData twoOfFive;
     putError := fun _ => Some "KV put failed";
     getError := None;
     markerTime := fun _ => Throw "SyntaxError";
     ENVIRONMENT := "production" |}.

(** A deployment in which the directory and the store are both down. *)
Definition allDown : Externals :=
  {| clock := steadyClock;
     connectedXAccounts := Throw "connect ECONNREFUSED";
     accountData := fun _ _ => Ok 0;
     putError := fun _ => Some "KV put failed";
     getError := None;
     markerTime := fun _ => Throw "SyntaxError";
     ENVIRONMENT := "production" |}.

Definition allOfFive : Externals :=
  deployment (Ok fiveAccounts) [0; 1; 2; 3; 4]%nat.

Definition noneOfFive : Externals := deployment (Ok fiveAccounts) [].

Import Worker.

(** A worker whose surroundings all work; the marker's text stands for
    its timestamp, which [markerTime] reads back. *)
Definition healthy (cron : Externals) : Surroundings :=
  {| cronEnv := cron;
     xApiProbe := Ok true;
     cachePutError := fun _ => None;
     cacheGetError := None;
     stringifyMarker := fun date _ => JS.show date |}.

(** A worker whose cache refuses every write. *)
Definition cacheDown (cron : Externals) : Surroundings :=
  {| cronEnv := cron;
     xApiProbe := Ok true;
     cachePutError := fun _ => Some "KV put failed";
     cacheGetError := None;
     stringifyMarker := fun date _ => JS.show date |}.

(** A deployment in which a marker reads as 1700000004000. *)
Definition readsMarker (listing : Result (list Account)) (failing : list nat)
  : Externals :=
  {| clock := steadyClock;
     connectedXAccounts := listing;
     accountData := accountData (deployment listing failing);
     putError := fun _ => None;
     getError := None;
     markerTime := fun _ => Ok (JS.of_Z 1700000004000);
     ENVIRONMENT := "production" |}.

End Samples.

(** * Properties *)

#[local] Set Warnings "-clear-no-such-hyp".

Import RateLimiter.

(** ** JavaScript values *)

Example parseInt_decimal : JS.parseInt "300" = JS.of_Z 300.
Proof. reflexivity. Qed.

Example parseInt_garbage : JS.parseInt "abc" = JS.NaN.
Proof. reflexivity. Qed.

Example parseInt_signed : JS.parseInt "  -12px" = JS.of_Z (-12).
Proof. reflexivity. Qed.

Example parseInt_hex : JS.parseInt "0x1f" = JS.of_Z 31.
Proof. reflexivity. Qed.

Example includes_http5 :
  JS.includes "HTTP 5" "HTTP 503: Service Unavailable" = true.
Proof. reflexivity. Qed.

Example show_429 : JS.show 429 = "429".
Proof. reflexivity. Qed.

Lemma Qlt_bool_iff (a b : Q) : JS.Qlt_bool a b = true <-> (a < b)%Q.
Proof.
  unfold JS.Qlt_bool. rewrite negb_true_iff.
  split.
  - intros H. apply Qnot_le_lt. intros Hle.
    apply Qle_bool_iff in Hle. congruence.
  - intros H. destruct (Qle_bool b a) eqn:E; [| reflexivity].
    apply Qle_bool_iff in E. exfalso. exact (Qlt_not_le _ _ H E).
Qed.

(** ** The proactive slowdown *)

Lemma parseRateLimitHeaders_missing_limit (response : Response) :
  headers response !! "x-rate-limit-limit" = None ->
  limit (parseRateLimitHeaders response) = JS.of_Z 0.
Proof.
  intros H. unfold parseRateLimitHeaders. cbn [limit]. rewrite H. reflexivity.
Qed.

(** Nothing is logged, so nothing is formatted, when the limit is 0. *)
Lemma logRateLimitStatus_without_limit (rateLimit : XAPIRateLimit) :
  JS.strict_eq (limit rateLimit) (JS.of_Z 0) = true ->
  logRateLimitStatus rateLimit = Ok tt.
Proof.
  intros H. unfold logRateLimitStatus.
  destruct (limit rateLimit) as [| | | q]; try discriminate H; try reflexivity.
  unfold JS.strict_eq, JS.of_Z in H. apply Qeq_bool_iff in H.
  assert (E : JS.lt (JS.of_Z 0) (JS.Fin q) = false).
  { apply not_true_is_false. unfold JS.lt, JS.of_Z. rewrite Qlt_bool_iff.
    change (inject_Z 0) with 0%Q in *. lra. }
  rewrite E. reflexivity.
Qed.

(** C10.  When the limit parsed from a response is 0, which is what a
    response without an [x-rate-limit-limit] header parses to,
    [shouldBackoff] answers [false] whatever [remaining] is: the quotient
    [remaining / limit] plays no part in the answer.  Such a response
    therefore never adds the [2 * requestDelayMs] delay to the wrapper's
    events. *)
Theorem shouldBackoff_false_without_limit :
  (forall rateLimit : XAPIRateLimit,
      JS.strict_eq (limit rateLimit) (JS.of_Z 0) = true ->
      shouldBackoff rateLimit = false) /\
  (forall (config : RateLimiterConfig) (response : Response),
      headers response !! "x-rate-limit-limit" = None \/
      JS.strict_eq (limit (parseRateLimitHeaders response)) (JS.of_Z 0) = true ->
      shouldBackoff (parseRateLimitHeaders response) = false /\
      snd (attemptOnce config (Fulfils response)) = []).
Proof.
  assert (G : forall rateLimit : XAPIRateLimit,
             JS.strict_eq (limit rateLimit) (JS.of_Z 0) = true ->
             shouldBackoff rateLimit = false).
  { intros rateLimit H. unfold shouldBackoff. rewrite H. reflexivity. }
  split; [exact G |].
  intros config response H.
  assert (Z0 : JS.strict_eq (limit (parseRateLimitHeaders response)) (JS.of_Z 0) = true).
  { destruct H as [H | H]; [| exact H].
    rewrite (parseRateLimitHeaders_missing_limit _ H). reflexivity. }
  split; [apply G, Z0 |].
  unfold attemptOnce.
  rewrite (logRateLimitStatus_without_limit _ Z0), (G _ Z0).
  destruct (status response =? 429); [reflexivity |].
  destruct (negb (ok response)); reflexivity.
Qed.

Lemma shouldBackoff_false_without_limit_witness :
  shouldBackoff (parseRateLimitHeaders Samples.bareResponse) = false /\
  snd (attemptOnce DEFAULT_RATE_LIMIT_CONFIG (Fulfils Samples.bareResponse)) = [].
Proof.
  apply (proj2 shouldBackoff_false_without_limit DEFAULT_RATE_LIMIT_CONFIG Samples.bareResponse).
  left. reflexivity.
Defined.

(** ** The backoff wrapper *)

(** The wrapper, read as the source is written. *)
Lemma makeRequestWithBackoff_unfold config fn attempt :
  makeRequestWithBackoff config fn attempt =
  match attemptOnce config (fn attempt) with
  | (Ok response, events) => (Ok response, EvInvoke :: events)
  | (Throw error, events) =>
      if (attempt <? maxRetries config) && isRetryableError error then
        let rest := makeRequestWithBackoff config fn (attempt + 1) in
        (fst rest,
         EvInvoke :: events ++ EvDelay (backoffTime attempt) :: snd rest)
      else (Throw error, EvInvoke :: events)
  end.
Proof.
  etransitivity; [apply makeRequestWithBackoff_equation_1 |].
  destruct (attemptOnce config (fn attempt)) as [[response | error] events]; simpl.
  - reflexivity.
  - destruct ((attempt <? maxRetries config) && isRetryableError error);
      reflexivity.
Qed.

Example backoff_default_schedule :
  makeRequestWithBackoff DEFAULT_RATE_LIMIT_CONFIG (fun _ => Rejects "timeout") 0
  = (Throw "timeout",
     [EvInvoke; EvDelay 1000; EvInvoke; EvDelay 2000; EvInvoke; EvDelay 4000;
      EvInvoke]).
Proof. vm_compute. reflexivity. Qed.

Example backoffTime_capped : backoffTime 6 = 60000 /\ backoffTime 5 = 32000.
Proof. split; reflexivity. Qed.

Lemma attemptOnce_no_invoke config outcome :
  invocations (snd (attemptOnce config outcome)) = 0%nat.
Proof.
  destruct outcome as [message | response]; unfold attemptOnce; [reflexivity |].
  destruct (logRateLimitStatus (parseRateLimitHeaders response));
    [| reflexivity].
  destruct (status response =? 429), (negb (ok response)),
    (shouldBackoff (parseRateLimitHeaders response)); reflexivity.
Qed.

Lemma invocations_app (xs ys : list Event) :
  invocations (xs ++ ys) = (invocations xs + invocations ys)%nat.
Proof.
  induction xs as [| [| ms] xs IH]; simpl; [reflexivity | |]; rewrite IH; reflexivity.
Qed.






(** ** The request window *)

Lemma rollover_replaces config now l :
  now - windowStart l >= windowDurationMs config ->
  requestCount (rollover config now l) = 0 /\
  windowStart (rollover config now l) = now /\
  requestQueue (rollover config now l) = requestQueue l.
Proof.
  intros H. unfold rollover.
  destruct (Z.geb_spec (now - windowStart l) (windowDurationMs config)); [| lia].
  simpl. auto.
Qed.

Lemma rollover_keeps config now l :
  now - windowStart l < windowDurationMs config ->
  rollover config now l = l.
Proof.
  intros H. unfold rollover.
  destruct (Z.geb_spec (now - windowStart l) (windowDurationMs config)); [lia |].
  reflexivity.
Qed.

Lemma rollover_queue config now l :
  requestQueue (rollover config now l) = requestQueue l.
Proof. unfold rollover. destruct (_ >=? _); reflexivity. Qed.

Lemma rollover_count config now l :
  requestCount (rollover config now l) = 0 \/
  requestCount (rollover config now l) = requestCount l.
Proof. unfold rollover. destruct (_ >=? _); simpl; auto. Qed.

(** What one pass of the loop does: it leaves the loop when the queue is
    empty; otherwise it admits the head of the queue, adding one to the
    count of the window in force (after a possible replacement), which it
    does only below the limit; otherwise it sleeps until the window
    ends. *)
Lemma processQueue_loop_cases config now sys :
  let l := rollover config now (this sys) in
  let sys' := processQueue_loop config now sys in
  promises sys' = promises sys /\
  ((requestQueue (this sys) = [] /\
    requestQueue (this sys') = [] /\
    requestCount (this sys') = requestCount (this sys) /\
    inFlight sys' = inFlight sys /\
    journal sys' = journal sys) \/
   (exists request rest,
       requestQueue (this sys) = request :: rest /\
       requestCount l < maxRequestsPerWindow config /\
       requestCount (this sys') = requestCount l + 1 /\
       windowStart (this sys') = windowStart l /\
       requestQueue (this sys') = rest /\
       inFlight sys' = inFlight sys ++ [request] /\
       journal sys' = journal sys ++ [Dispatched (promise request)]) \/
   (requestQueue (this sys) <> [] /\
    maxRequestsPerWindow config <= requestCount l /\
    this sys' = l /\
    inFlight sys' = inFlight sys /\
    journal sys' =
      journal sys
        ++ [Slept (windowDurationMs config - (now - windowStart l))])).
Proof.
  intros l sys'. subst l sys'. unfold processQueue_loop.
  destruct (requestQueue (this sys)) as [| request rest] eqn:Q.
  - split; [reflexivity |]. left. simpl. auto.
  - destruct (Z.ltb_spec (requestCount (rollover config now (this sys)))
                         (maxRequestsPerWindow config)) as [Hlt | Hge].
    + rewrite rollover_queue, Q. split; [reflexivity |].
      right. left. exists request, rest. simpl.
      repeat split; auto.
    + split; [reflexivity |].
      right. right. simpl. repeat split; auto; congruence.
Qed.

Lemma processQueue_loop_withinBound config bound now sys :
  maxRequestsPerWindow config <= bound ->
  withinBound bound sys -> withinBound bound (processQueue_loop config now sys).
Proof.
  unfold withinBound. intros Hbound H.
  pose proof (rollover_count config now (this sys)) as Hr.
  destruct (processQueue_loop_cases config now sys)
    as (_ & [(_ & _ & Hc & _) | [(request & rest & _ & Hlt & Hc & _) | (_ & _ & Hc & _)]]).
  - rewrite Hc. exact H.
  - rewrite Hc. lia.
  - rewrite Hc. lia.
Qed.

Lemma processQueue_withinBound config bound now sys :
  maxRequestsPerWindow config <= bound ->
  withinBound bound sys -> withinBound bound (processQueue config now sys).
Proof.
  intros Hbound H. unfold processQueue.
  destruct (isProcessing (this sys) || (length (requestQueue (this sys)) =? 0)%nat);
    [exact H |].
  apply processQueue_loop_withinBound; [exact Hbound | exact H].
Qed.

Lemma step_withinBound config bound sys s :
  maxRequestsPerWindow config <= bound ->
  withinBound bound sys -> withinBound bound (step config sys s).
Proof.
  intros Hbound H. destruct s as [fn now | k | now |]; simpl.
  - unfold makeRequest. apply processQueue_withinBound; [exact Hbound | exact H].
  - unfold requestSettles.
    destruct (inFlight sys !! k); [| exact H].
    destruct (requestQueue (this sys)); exact H.
  - apply processQueue_loop_withinBound; [exact Hbound | exact H].
  - exact H.
Qed.

Lemma run_withinBound config bound steps sys :
  maxRequestsPerWindow config <= bound ->
  withinBound bound sys -> withinBound bound (run config steps sys).
Proof.
  intros Hbound. revert sys.
  induction steps as [| s steps IH]; intros sys H; simpl.
  - exact H.
  - apply IH, step_withinBound; [exact Hbound | exact H].
Qed.

(** C1, as the code has it.  A pass of the worker loop replaces the
    window when [now - windowStart >= windowDurationMs] (the count becomes
    0 and the window starts at [now]) before it looks at the count; with a
    request waiting it adds one to the count when the count of the window
    in force is below the limit and leaves the count alone when it is
    not; and whatever callers and workers do, in whatever order, a count
    that is within the limit stays within it.  In every state a limiter
    can reach from its construction the count is at least 0 and at most
    [max(0, maxRequestsPerWindow)]: it is within the limit when the limit
    is not negative, and with a negative limit, which the constructor
    accepts, it is 0. *)
Theorem requestCount_within_limit (config : RateLimiterConfig) :
  (forall now l,
      now - windowStart l >= windowDurationMs config ->
      requestCount (rollover config now l) = 0 /\
      windowStart (rollover config now l) = now) /\
  (forall now sys,
      let l := rollover config now (this sys) in
      let sys' := processQueue_loop config now sys in
      (requestQueue (this sys) = [] ->
       requestCount (this sys') = requestCount (this sys)) /\
      (requestQueue (this sys) <> [] ->
       requestCount l < maxRequestsPerWindow config ->
       requestCount (this sys') = requestCount l + 1) /\
      (requestQueue (this sys) <> [] ->
       maxRequestsPerWindow config <= requestCount l ->
       requestCount (this sys') = requestCount l)) /\
  (forall steps sys,
      0 <= requestCount (this sys) <= maxRequestsPerWindow config ->
      0 <= requestCount (this (run config steps sys))
        <= maxRequestsPerWindow config) /\
  (forall now0 steps,
      0 <= requestCount (this (run config steps (create now0)))
        <= Z.max 0 (maxRequestsPerWindow config)) /\
  (forall now0 steps,
      0 <= maxRequestsPerWindow config ->
      requestCount (this (run config steps (create now0)))
        <= maxRequestsPerWindow config) /\
  (forall now0 steps,
      maxRequestsPerWindow config < 0 ->
      requestCount (this (run config steps (create now0))) = 0).
Proof.
  assert (Reach : forall now0 steps,
             0 <= requestCount (this (run config steps (create now0)))
               <= Z.max 0 (maxRequestsPerWindow config)).
  { intros now0 steps.
    apply (run_withinBound config (Z.max 0 (maxRequestsPerWindow config))
             steps (create now0)); [lia |].
    unfold withinBound. simpl. lia. }
  split; [| split; [| split; [| split; [| split]]]].
  - intros now l H. destruct (rollover_replaces config now l H) as (? & ? & _).
    auto.
  - intros now sys l sys'.
    destruct (processQueue_loop_cases config now sys)
      as (_ & [(HQ & _ & Hc & _)
              | [(request & rest & HQ & Hlt & Hc & _) | (Hne & Hge & Hc & _)]]).
    + split; [intros _; exact Hc | split; intros Hne; congruence].
    + split; [intros Hnil; congruence |].
      split; [intros _ _; exact Hc | intros _ Hge; subst l; lia].
    + split; [intros Hnil; congruence |].
      split; [intros _ Hlt; subst l; lia |].
      intros _ _. subst l sys'. rewrite Hc. reflexivity.
  - intros steps sys H.
    apply (run_withinBound config (maxRequestsPerWindow config) steps sys);
      [lia | exact H].
  - exact Reach.
  - intros now0 steps H. specialize (Reach now0 steps). lia.
  - intros now0 steps H. specialize (Reach now0 steps). lia.
Qed.

Example burst_journal :
  journal (run Samples.tight Samples.burst (create 0))
  = [Dispatched 0; Slept 100; Dispatched 1; Slept 100; Slept 780; Dispatched 2]
  /\ promises (run Samples.tight Samples.burst (create 0))
     = [Resolved "{}"; Resolved "{}"; Resolved "{}"]
  /\ this (run Samples.tight Samples.burst (create 0))
     = {| requestQueue := []; requestCount := 1; windowStart := 1005;
          isProcessing := false |}.
Proof. vm_compute. repeat split; reflexivity. Qed.

Lemma requestCount_within_limit_witness :
  (requestCount (rollover Samples.tight 1005 (this (create 0))) = 0 /\
   windowStart (rollover Samples.tight 1005 (this (create 0))) = 1005) /\
  0 <= requestCount (this (run Samples.tight Samples.burst (create 0))) <= 2 /\
  requestCount (this (run Samples.tight Samples.burst (create 0))) <= 2 /\
  requestCount
    (this (run (createRateLimiter Samples.negativeLimit) Samples.burst (create 0)))
  = 0.
Proof.
  pose proof (requestCount_within_limit Samples.tight)
    as (Hroll & _ & Hrun & _ & Hreach & _).
  pose proof (requestCount_within_limit (createRateLimiter Samples.negativeLimit))
    as (_ & _ & _ & _ & _ & Hnegative).
  split; [| split; [| split]].
  - apply Hroll. simpl. lia.
  - apply (Hrun Samples.burst (create 0)). simpl. lia.
  - apply (Hreach 0 Samples.burst). simpl. lia.
  - apply (Hnegative 0 Samples.burst). vm_compute. reflexivity.
Defined.

(** C1, as the design document has it, fails for a limiter whose limit
    is negative, which is what [createRateLimiter] makes when
    [MAX_REQUESTS_PER_WINDOW] is ["-5"]: such a limiter never admits a
    request, and its count, 0, exceeds its limit in every state, here
    with two requests waiting. *)
Lemma requestCount_exceeds_negative_limit :
  let config := createRateLimiter Samples.negativeLimit in
  let sys := run config Samples.oneWaiting (create 0) in
  maxRequestsPerWindow config = -5 /\
  length (requestQueue (this sys)) = 2%nat /\
  requestCount (this sys) = 0 /\
  (requestCount (this sys) <= maxRequestsPerWindow config -> False).
Proof.
  intros config sys.
  split; [reflexivity |]. split; [reflexivity |]. split; [reflexivity |].
  vm_compute. intros H. apply H. reflexivity.
Qed.

(** ** The queue's bookkeeping *)

Lemma dispatched_app (xs ys : list Action) :
  dispatched (xs ++ ys) = dispatched xs ++ dispatched ys.
Proof.
  induction xs as [| [p | ms | ps] xs IH]; simpl; [reflexivity | | |];
    rewrite IH; reflexivity.
Qed.

Lemma dropped_app (xs ys : list Action) :
  dropped (xs ++ ys) = dropped xs ++ dropped ys.
Proof.
  induction xs as [| [p | ms | ps] xs IH]; simpl; [reflexivity | | |];
    rewrite IH; [reflexivity | reflexivity |].
  rewrite app_assoc. reflexivity.
Qed.

Section Bookkeeping.

Variables (D Q X : list nat) (P : list PromiseState) (F : list QueuedRequest).
Hypothesis B : Bookkeeping D Q X P F.

Lemma started_not_waiting p : p ∈ D -> p ∉ Q.
Proof.
  intros HD HQ.
  pose proof (StronglySorted_app_1_elem_of _ _ _ _ _ (in_order _ _ _ _ _ B) HD HQ).
  lia.
Qed.

Lemma bookkeeping_enqueue :
  Bookkeeping D (Q ++ [length P]) X (P ++ [Pending]) F.
Proof.
  destruct B as [Hord Hout Hacc Hst Hapart Huns].
  constructor.
  - rewrite app_assoc. apply StronglySorted_app.
    split; [| split; [exact Hord | repeat constructor]].
    intros x y Hx Hy. apply list_elem_of_singleton in Hy. subst y.
    apply Hout. set_solver.
  - intros p Hp. rewrite length_app. simpl.
    rewrite !elem_of_app, list_elem_of_singleton in Hp.
    destruct Hp as [Hp | [[Hp | ->] | Hp]]; [| | lia |];
      (assert (p < length P)%nat by (apply Hout; set_solver)); lia.
  - intros p Hp. rewrite length_app in Hp. simpl in Hp.
    destruct (decide (p = length P)) as [-> | Hne].
    + right. left. set_solver.
    + destruct (Hacc p) as [H | [H | H]]; [lia | | |]; set_solver.
  - exact Hst.
  - intros p Hp Hin.
    rewrite app_assoc, elem_of_app, list_elem_of_singleton in Hin.
    destruct Hin as [Hin | ->].
    + exact (Hapart p Hp Hin).
    + assert (length P < length P)%nat by (apply Hout; set_solver). lia.
  - intros p Hp.
    rewrite !elem_of_app, list_elem_of_singleton in Hp.
    destruct Hp as [[Hp | ->] | Hp].
    + rewrite lookup_app_l by (apply Hout; set_solver).
      apply Huns. set_solver.
    + rewrite lookup_app_r by lia. rewrite Nat.sub_diag. reflexivity.
    + rewrite lookup_app_l by (apply Hout; set_solver).
      apply Huns. set_solver.
Qed.

Lemma bookkeeping_settle k request state :
  F !! k = Some request ->
  Bookkeeping D Q X (<[promise request := state]> P) (delete k F).
Proof.
  intros Hk.
  pose proof started_not_waiting as Hnw.
  destruct B as [Hord Hout Hacc Hst Hapart Huns].
  assert (HD : promise request ∈ D)
    by (apply Hst; eapply list_elem_of_lookup_2; exact Hk).
  constructor.
  - exact Hord.
  - intros p Hp. rewrite length_insert. apply Hout, Hp.
  - intros p Hp. rewrite length_insert in Hp. apply Hacc, Hp.
  - intros r Hr. apply Hst.
    eapply list_elem_of_delete_inv. exact Hr.
  - exact Hapart.
  - intros p Hp.
    rewrite list_lookup_insert_ne; [apply Huns, Hp |].
    intros <-. apply elem_of_app in Hp as [Hp | Hp].
    + exact (Hnw _ HD Hp).
    + apply (Hapart _ Hp). set_solver.
Qed.

Lemma bookkeeping_clear : Bookkeeping D [] (X ++ Q) P F.
Proof.
  pose proof started_not_waiting as Hnw.
  destruct B as [Hord Hout Hacc Hst Hapart Huns].
  constructor.
  - rewrite app_nil_r. eapply StronglySorted_app_1_l. exact Hord.
  - intros p Hp. apply Hout. set_solver.
  - intros p Hp. destruct (Hacc p Hp) as [H | [H | H]]; set_solver.
  - exact Hst.
  - intros p Hp Hin. rewrite app_nil_r in Hin.
    apply elem_of_app in Hp as [Hp | Hp].
    + apply (Hapart p Hp). set_solver.
    + exact (Hnw p Hin Hp).
  - intros p Hp. apply Huns. set_solver.
Qed.

End Bookkeeping.

Lemma bookkeeping_dispatch D request rest X P F :
  Bookkeeping D (promise request :: rest) X P F ->
  Bookkeeping (D ++ [promise request]) rest X P (F ++ [request]).
Proof.
  intros [Hord Hout Hacc Hst Hapart Huns].
  constructor.
  - rewrite <- app_assoc. exact Hord.
  - intros p Hp. apply Hout. set_solver.
  - intros p Hp. destruct (Hacc p Hp) as [H | [H | H]]; set_solver.
  - intros r Hr. apply elem_of_app in Hr as [Hr | Hr].
    + apply elem_of_app. left. apply Hst, Hr.
    + apply list_elem_of_singleton in Hr as ->. set_solver.
  - intros p Hp Hin. apply (Hapart p Hp). set_solver.
  - intros p Hp. apply Huns. set_solver.
Qed.

Lemma consistent_create now : consistent (create now).
Proof.
  unfold consistent, create, queued. simpl.
  constructor; simpl; try (intros; set_solver).
  - constructor.
  - intros p Hp. lia.
Qed.

Lemma processQueue_loop_consistent config now sys :
  consistent sys -> consistent (processQueue_loop config now sys).
Proof.
  unfold consistent, queued. intros H.
  destruct (processQueue_loop_cases config now sys)
    as (HP & [(HQ & HQ' & _ & HF & HJ)
             | [(request & rest & HQ & _ & _ & _ & HQ' & HF & HJ)
               | (_ & _ & Hthis & HF & HJ)]]).
  - rewrite HP, HQ', HF, HJ. rewrite HQ in H. exact H.
  - rewrite HP, HQ', HF, HJ, dispatched_app, dropped_app. simpl.
    rewrite app_nil_r. rewrite HQ in H. simpl in H.
    apply bookkeeping_dispatch, H.
  - rewrite HP, Hthis, rollover_queue, HF, HJ, dispatched_app, dropped_app.
    simpl. rewrite !app_nil_r. exact H.
Qed.

Lemma processQueue_consistent config now sys :
  consistent sys -> consistent (processQueue config now sys).
Proof.
  intros H. unfold processQueue.
  destruct (isProcessing (this sys) || (length (requestQueue (this sys)) =? 0)%nat);
    [exact H |].
  apply processQueue_loop_consistent. exact H.
Qed.

Lemma makeRequest_consistent config fn now sys :
  consistent sys -> consistent (makeRequest config fn now sys).
Proof.
  intros H. unfold makeRequest. apply processQueue_consistent.
  unfold consistent, queued in *. simpl. rewrite map_app. simpl.
  apply bookkeeping_enqueue, H.
Qed.

Lemma requestSettles_consistent config k sys :
  consistent sys -> consistent (requestSettles config k sys).
Proof.
  intros H. unfold requestSettles.
  destruct (inFlight sys !! k) as [request |] eqn:Hk; [| exact H].
  unfold consistent, queued in *.
  destruct (requestQueue (this sys)) as [| q rest] eqn:HQ; simpl.
  - apply bookkeeping_settle; assumption.
  - rewrite dispatched_app, dropped_app. simpl. rewrite !app_nil_r.
    rewrite HQ. apply bookkeeping_settle; assumption.
Qed.

Lemma clearQueue_consistent sys : consistent sys -> consistent (clearQueue sys).
Proof.
  intros H. unfold consistent, queued, clearQueue in *. simpl.
  rewrite dispatched_app, dropped_app. simpl. rewrite !app_nil_r.
  apply bookkeeping_clear, H.
Qed.

Lemma step_consistent config sys s :
  consistent sys -> consistent (step config sys s).
Proof.
  destruct s as [fn now | k | now |]; simpl;
    auto using makeRequest_consistent, requestSettles_consistent,
      processQueue_loop_consistent, clearQueue_consistent.
Qed.

Lemma run_consistent config steps sys :
  consistent sys -> consistent (run config steps sys).
Proof.
  revert sys. induction steps as [| s steps IH]; intros sys H; simpl.
  - exact H.
  - apply IH, step_consistent, H.
Qed.

(** The journal only grows. *)
Lemma step_journal config sys s :
  exists more, journal (step config sys s) = journal sys ++ more.
Proof.
  assert (L : forall now sys,
             exists more,
               journal (processQueue_loop config now sys) = journal sys ++ more).
  { intros now sys0.
    destruct (processQueue_loop_cases config now sys0)
      as (_ & [(_ & _ & _ & _ & HJ)
              | [(request & rest & _ & _ & _ & _ & _ & _ & HJ)
                | (_ & _ & _ & _ & HJ)]]);
      rewrite HJ; [exists []; rewrite app_nil_r | eexists | eexists];
      reflexivity. }
  destruct s as [fn now | k | now |]; simpl.
  - unfold makeRequest, processQueue. simpl.
    destruct (isProcessing (this sys) || _).
    + exists []. simpl. rewrite app_nil_r. reflexivity.
    + destruct (L now
        {| this := {| requestQueue :=
                        requestQueue (this sys)
                          ++ [{| promise := length (promises sys); requestFn := fn |}];
                      requestCount := requestCount (this sys);
                      windowStart := windowStart (this sys);
                      isProcessing := true |};
           promises := promises sys ++ [Pending];
           inFlight := inFlight sys; journal := journal sys |}) as [more Hmore].
      exists more. exact Hmore.
  - unfold requestSettles.
    destruct (inFlight sys !! k); [| exists []; rewrite app_nil_r; reflexivity].
    destruct (requestQueue (this sys)); simpl;
      [exists []; rewrite app_nil_r; reflexivity | eexists; reflexivity].
  - apply L.
  - eexists. reflexivity.
Qed.

Lemma run_journal config steps sys :
  exists more, journal (run config steps sys) = journal sys ++ more.
Proof.
  revert sys. induction steps as [| s steps IH]; intros sys; simpl.
  - exists []. rewrite app_nil_r. reflexivity.
  - destruct (step_journal config sys s) as [m1 H1].
    destruct (IH (step config sys s)) as [m2 H2].
    exists (m1 ++ m2). rewrite H2, H1, app_assoc. reflexivity.
Qed.

(** ** Order of admission *)

Lemma StronglySorted_lookup_lt (l : list nat) a b x y :
  StronglySorted lt l ->
  l !! a = Some x -> l !! b = Some y -> (a < b)%nat -> (x < y)%nat.
Proof.
  intros Hs. revert a b.
  induction Hs as [| z l Hs IH Hall]; intros a b Ha Hb Hab.
  - rewrite lookup_nil in Ha. discriminate.
  - destruct b as [| b]; [lia |].
    destruct a as [| a]; simpl in *.
    + injection Ha as ->.
      rewrite Forall_forall in Hall. apply Hall.
      eapply list_elem_of_lookup_2. exact Hb.
    + apply (IH a b); [assumption | assumption | lia].
Qed.

Lemma step_promises_length config sys s :
  length (promises (step config sys s)) =
  (length (promises sys)
   + match s with MakeRequest _ _ => 1 | _ => 0 end)%nat.
Proof.
  destruct s as [fn now | k | now |]; simpl.
  - unfold makeRequest, processQueue. simpl.
    destruct (isProcessing (this sys) || _); simpl.
    + rewrite length_app. reflexivity.
    + destruct (processQueue_loop_cases config now
        {| this := {| requestQueue :=
                        requestQueue (this sys)
                          ++ [{| promise := length (promises sys); requestFn := fn |}];
                      requestCount := requestCount (this sys);
                      windowStart := windowStart (this sys);
                      isProcessing := true |};
           promises := promises sys ++ [Pending];
           inFlight := inFlight sys; journal := journal sys |}) as [HP _].
      rewrite HP. simpl. rewrite length_app. reflexivity.
  - unfold requestSettles.
    destruct (inFlight sys !! k); [| lia].
    destruct (requestQueue (this sys)); simpl; rewrite length_insert; lia.
  - destruct (processQueue_loop_cases config now sys) as [HP _].
    rewrite HP. lia.
  - lia.
Qed.

Lemma run_promises_length config steps sys :
  length (promises (run config steps sys)) =
  (length (promises sys) + makeRequests steps)%nat.
Proof.
  revert sys. induction steps as [| s steps IH]; intros sys; simpl.
  - lia.
  - rewrite IH, step_promises_length. destruct s; lia.
Qed.

(** C8.  Requests are started in the order they were enqueued.  The
    promise of the [n]-th call of [makeRequest] is number [n] (counting
    from 0), so a smaller number means an earlier call.  In the record of
    a limiter's actions, however callers' and workers' steps interleave, a
    request with a smaller number that was started at all was started
    earlier; and when a request has been started, every request enqueued
    before it has been started too, unless [clearQueue] threw it away. *)
Theorem dispatch_in_enqueue_order (config : RateLimiterConfig) (now0 : Z)
    (steps : list Step) :
  let sys := run config steps (create now0) in
  let order := dispatched (journal sys) in
  length (promises sys) = makeRequests steps /\
  (forall a b i j,
      order !! a = Some i -> order !! b = Some j ->
      (i < j)%nat -> (a < b)%nat) /\
  (forall i j,
      (i < j)%nat -> j ∈ order ->
      i ∈ order \/ i ∈ dropped (journal sys)).
Proof.
  intros sys order.
  assert (C : consistent sys) by apply run_consistent, consistent_create.
  destruct C as [Hord Hout Hacc _ _ _]. fold order in Hord, Hout, Hacc.
  split; [| split].
  - subst sys. rewrite run_promises_length. reflexivity.
  - intros a b i j Ha Hb Hij.
    assert (Hs : StronglySorted lt order)
      by (eapply StronglySorted_app_1_l; exact Hord).
    destruct (Nat.lt_trichotomy a b) as [Hlt | [-> | Hgt]]; [exact Hlt | |].
    + rewrite Ha in Hb. injection Hb as ->. lia.
    + pose proof (StronglySorted_lookup_lt order b a j i Hs Hb Ha Hgt). lia.
  - intros i j Hij Hj.
    assert (Hlen : (j < length (promises sys))%nat)
      by (apply Hout; set_solver).
    destruct (Hacc i) as [H | [H | H]]; [lia | auto | | auto].
    pose proof (StronglySorted_app_1_elem_of _ _ _ _ _ Hord Hj H). lia.
Qed.

Lemma dispatch_in_enqueue_order_witness :
  let sys := run Samples.tight Samples.burst (create 0) in
  dispatched (journal sys) = [0; 1; 2]%nat /\
  (0 < 2)%nat /\
  (0%nat ∈ dispatched (journal sys) \/ 0%nat ∈ dropped (journal sys)).
Proof.
  intros sys.
  split; [vm_compute; reflexivity |].
  split; [lia |].
  apply (proj2 (proj2 (dispatch_in_enqueue_order Samples.tight 0 Samples.burst))
           0%nat 2%nat).
  - lia.
  - change (dispatched (journal (run Samples.tight Samples.burst (create 0))))
      with [0; 1; 2]%nat.
    set_solver.
Defined.

(** ** Emergency stop *)

(** C5, as the code has it.  [clearQueue()] empties the queue and clears
    [isProcessing], and that is all: it settles no promise.  The promise
    of every request that was waiting is pending before the call, pending
    after it, and pending after anything the limiter does later, because
    the closure that would settle it is gone. *)
Theorem clearQueue_abandons_waiting (config : RateLimiterConfig) (now0 : Z)
    (before after : list Step) :
  let sys := run config before (create now0) in
  let cleared := clearQueue sys in
  requestQueue (this cleared) = [] /\
  isProcessing (this cleared) = false /\
  promises cleared = promises sys /\
  forall request,
    request ∈ requestQueue (this sys) ->
    promises sys !! promise request = Some Pending /\
    promises (run config after cleared) !! promise request = Some Pending.
Proof.
  intros sys cleared.
  split; [reflexivity |]. split; [reflexivity |]. split; [reflexivity |].
  intros request Hin.
  assert (C : consistent sys) by apply run_consistent, consistent_create.
  assert (C' : consistent (run config after cleared))
    by apply run_consistent, clearQueue_consistent, C.
  split.
  - apply (unsettled _ _ _ _ _ C). apply elem_of_app. left.
    unfold queued. apply list_elem_of_fmap_2. exact Hin.
  - apply (unsettled _ _ _ _ _ C'). apply elem_of_app. right.
    destruct (run_journal config after cleared) as [more ->].
    subst cleared. unfold clearQueue. simpl.
    rewrite !dropped_app. simpl. rewrite app_nil_r.
    apply elem_of_app. left. apply elem_of_app. right.
    apply list_elem_of_fmap_2. exact Hin.
Qed.

Lemma clearQueue_abandons_waiting_witness :
  let sys := run DEFAULT_RATE_LIMIT_CONFIG Samples.oneWaiting (create 0) in
  let request := {| promise := 1; requestFn := Samples.succeeds |} in
  request ∈ requestQueue (this sys) /\
  promises sys !! 1%nat = Some Pending /\
  promises (run DEFAULT_RATE_LIMIT_CONFIG [Settles 0; Wakes 5000] (clearQueue sys))
    !! 1%nat = Some Pending.
Proof.
  intros sys request.
  assert (Hin : request ∈ requestQueue (this sys)).
  { change (requestQueue (this sys)) with [request]. set_solver. }
  split; [exact Hin |].
  apply (proj2 (proj2 (proj2
           (clearQueue_abandons_waiting DEFAULT_RATE_LIMIT_CONFIG 0
              Samples.oneWaiting [Settles 0; Wakes 5000]))) request Hin).
Defined.

(** C5, as the design document has it, fails: here a request is waiting
    when [clearQueue()] is called, and its promise is not rejected. *)
Lemma clearQueue_rejects_nothing :
  let sys := run DEFAULT_RATE_LIMIT_CONFIG Samples.oneWaiting (create 0) in
  map promise (requestQueue (this sys)) = [1%nat] /\
  promises (clearQueue sys) !! 1%nat = Some Pending /\
  ~ (forall request,
        request ∈ requestQueue (this sys) ->
        exists error,
          promises (clearQueue sys) !! promise request = Some (Rejected error)).
Proof.
  intros sys.
  split; [reflexivity |]. split; [reflexivity |].
  intros H.
  destruct (H {| promise := 1; requestFn := Samples.succeeds |}) as [error He].
  - change (requestQueue (this sys))
      with [{| promise := 1; requestFn := Samples.succeeds |}].
    set_solver.
  - discriminate He.
Qed.

(** ** The daily sync *)

Import Cron.

Example twoOfFive_run :
  let '(outcome, w) := handleDailyXSync Samples.twoOfFive pristine in
  outcome = Ok tt /\
  SYNC_STATE w !! "sync-result-sync-1700000001000" =
  Some (JSON_stringify
          {| id := "sync-1700000001000"; timestamp := 1700000002000;
             duration := 3000; error := None;
             progress :=
               {| totalAccounts := 5; processedAccounts := 5;
                  successfulAccounts := 3; failedAccounts := 2;
                  totalTweets := 21;
                  errors := ["user_2: HTTP 401: Unauthorized";
                             "user_4: HTTP 401: Unauthorized"] |} |}) /\
  length (alerts w) = 1%nat.
Proof. vm_compute. repeat split; reflexivity. Qed.

Lemma failures_successes_length env index accounts :
  (length (successes env index accounts) + length (failures env index accounts)
   = length accounts)%nat.
Proof.
  revert index. induction accounts as [| account rest IH]; intros index; simpl.
  - reflexivity.
  - specialize (IH (S index)).
    destruct (accountData env index account); simpl; lia.
Qed.

(** The loop never throws and leaves the world alone; it counts every
    account, as a success or as a failure, and records a line for each
    failure. *)
Lemma syncAccounts_tally env accounts :
  forall index syncProgress w,
    syncAccounts env index accounts syncProgress w =
    (Ok {| totalAccounts := totalAccounts syncProgress;
           processedAccounts :=
             processedAccounts syncProgress + Z.of_nat (length accounts);
           successfulAccounts :=
             successfulAccounts syncProgress
             + Z.of_nat (length (successes env index accounts));
           failedAccounts :=
             failedAccounts syncProgress
             + Z.of_nat (length (failures env index accounts));
           totalTweets :=
             totalTweets syncProgress
             + sumZ (map snd (successes env index accounts));
           errors :=
             errors syncProgress
               ++ map errorLine (failures env index accounts) |},
     w).
Proof.
  induction accounts as [| account rest IH]; intros index syncProgress w.
  - simpl. unfold ret. destruct syncProgress; simpl.
    rewrite !Z.add_0_r, app_nil_r. reflexivity.
  - simpl syncAccounts. unfold bind at 1. unfold try_catch, bind, await, ret.
    destruct (accountData env index account) as [tweetsProcessed | message] eqn:E;
      rewrite IH; simpl; rewrite E; simpl.
    + do 3 f_equal; lia.
    + do 3 f_equal; try lia. rewrite <- app_assoc. reflexivity.
Qed.

(** A run that gets a non-empty list of accounts and whose write to the
    store succeeds. *)
Lemma handleDailyXSync_completes env w accounts :
  connectedXAccounts env = Ok accounts ->
  accounts <> [] ->
  putError env (puts w) = None ->
  handleDailyXSync env w =
  (Ok tt,
   {| clockReadings := 4 + clockReadings w;
      puts := S (puts w);
      SYNC_STATE :=
        <[("sync-result-" ++ syncIdAt env w)%string :=
            JSON_stringify (completedRun env w accounts)]> (SYNC_STATE w);
      ANALYTICS :=
        ANALYTICS w
          ++ [{| blobs := [syncIdAt env w; ENVIRONMENT env];
                 doubles := [sumZ (map snd (successes env 0 accounts));
                             duration (completedRun env w accounts)];
                 indexes := [Z.of_nat (length (successes env 0 accounts))] |}];
      alerts :=
        alerts w
          ++ (if highFailureRate (progress (completedRun env w accounts))
              then [("High failure rate in daily sync",
                     completedRun env w accounts)]
              else []) |}).
Proof.
  intros Hlist Hne Hput.
  unfold handleDailyXSync, bind, try_catch, await, Date_now. simpl.
  rewrite Hlist.
  destruct accounts as [| account rest]; [congruence |].
  cbn [length Nat.eqb].
  rewrite syncAccounts_tally. cbn [totalAccounts processedAccounts
    successfulAccounts failedAccounts totalTweets errors clockReadings puts
    SYNC_STATE ANALYTICS alerts].
  unfold saveSyncResult, SYNC_STATE_put, writeDataPoint. cbn [puts id].
  rewrite Hput.
  unfold completedRun, syncIdAt. cbn [progress clockReadings].
  rewrite !Z.add_0_l. cbn [app].
  destruct (highFailureRate _); unfold sendSyncAlert, ret; simpl;
    rewrite ?app_nil_r; reflexivity.
Qed.

Lemma prefix_app (a b : string) : String.prefix a (a ++ b)%string = true.
Proof.
  induction a as [| c a IH]; simpl.
  - destruct b; reflexivity.
  - destruct (Ascii.ascii_dec c c); [exact IH | congruence].
Qed.

Lemma string_app_assoc (a b c : string) :
  ((a ++ b) ++ c = a ++ (b ++ c))%string.
Proof.
  induction a as [| x a IH]; [reflexivity |].
  change (String x ((a ++ b) ++ c) = String x (a ++ (b ++ c)))%string.
  rewrite IH. reflexivity.
Qed.

Lemma errorLine_prefix failure :
  String.prefix (username (fst failure) ++ ": ")%string (errorLine failure) = true.
Proof.
  unfold errorLine. rewrite <- string_app_assoc. apply prefix_app.
Qed.

(** C2, as the code has it.  A run over a non-empty list of accounts, of
    which any may fail, and whose result the store accepts, stores a sync
    result in which [totalAccounts] is the length of the list,
    [processedAccounts] equals it, [successfulAccounts] and
    [failedAccounts] count the accounts whose sync succeeded and failed,
    and [errors] has one line per failed account, in order, made of the
    account's [username], [": "] and the error's message.  No failure
    stops the loop: every account is processed and the run ends
    normally. *)
Theorem bulkhead (env : Externals) (w : World) (accounts : list Account) :
  connectedXAccounts env = Ok accounts ->
  accounts <> [] ->
  putError env (puts w) = None ->
  let failed := failures env 0 accounts in
  let succeeded := successes env 0 accounts in
  exists syncRun,
    fst (handleDailyXSync env w) = Ok tt /\
    SYNC_STATE (snd (handleDailyXSync env w))
      !! ("sync-result-" ++ id syncRun)%string = Some (JSON_stringify syncRun) /\
    totalAccounts (progress syncRun) = Z.of_nat (length accounts) /\
    processedAccounts (progress syncRun) = totalAccounts (progress syncRun) /\
    successfulAccounts (progress syncRun) = Z.of_nat (length succeeded) /\
    failedAccounts (progress syncRun) = Z.of_nat (length failed) /\
    (length succeeded + length failed = length accounts)%nat /\
    length (errors (progress syncRun)) = length failed /\
    Forall2
      (fun line failure =>
         line = (username (fst failure) ++ ": " ++ snd failure)%string /\
         String.prefix (username (fst failure) ++ ": ")%string line = true)
      (errors (progress syncRun)) failed.
Proof.
  intros Hlist Hne Hput failed succeeded.
  exists (completedRun env w accounts).
  rewrite (handleDailyXSync_completes env w accounts Hlist Hne Hput).
  cbn [fst snd SYNC_STATE completedRun id progress totalAccounts
       processedAccounts successfulAccounts failedAccounts errors].
  repeat split.
  - apply lookup_insert_eq.
  - apply failures_successes_length.
  - apply length_map.
  - fold failed. induction failed as [| failure rest IH]; simpl; constructor.
    + split; [reflexivity | apply errorLine_prefix].
    + exact IH.
Qed.

Lemma bulkhead_witness :
  exists syncRun,
    fst (handleDailyXSync Samples.twoOfFive pristine) = Ok tt /\
    SYNC_STATE (snd (handleDailyXSync Samples.twoOfFive pristine))
      !! ("sync-result-" ++ id syncRun)%string = Some (JSON_stringify syncRun) /\
    totalAccounts (progress syncRun) = 5 /\
    processedAccounts (progress syncRun) = totalAccounts (progress syncRun) /\
    successfulAccounts (progress syncRun) = 3 /\
    failedAccounts (progress syncRun) = 2 /\
    (3 + 2 = 5)%nat /\
    length (errors (progress syncRun)) = 2%nat /\
    Forall2
      (fun line failure =>
         line = (username (fst failure) ++ ": " ++ snd failure)%string /\
         String.prefix (username (fst failure) ++ ": ")%string line = true)
      (errors (progress syncRun))
      [(Samples.account "2", "HTTP 401: Unauthorized");
       (Samples.account "4", "HTTP 401: Unauthorized")].
Proof.
  apply (bulkhead Samples.twoOfFive pristine Samples.fiveAccounts).
  - reflexivity.
  - discriminate.
  - reflexivity.
Defined.

(** C2, as the design document has it, fails on the prefix: with five
    accounts of which the second and the fourth fail, the counts are 5, 5,
    3 and 2 and there are two lines in [errors], but the lines begin with
    the accounts' usernames, not with their ids. *)
Lemma bulkhead_lines_not_prefixed_by_id :
  let w := snd (handleDailyXSync Samples.twoOfFive pristine) in
  let failed := failures Samples.twoOfFive 0 Samples.fiveAccounts in
  exists syncRun,
    SYNC_STATE w !! "sync-result-sync-1700000001000"
      = Some (JSON_stringify syncRun) /\
    map (fun failure => account_id (fst failure)) failed
      = ["x_account_2"; "x_account_4"] /\
    errors (progress syncRun)
      = ["user_2: HTTP 401: Unauthorized"; "user_4: HTTP 401: Unauthorized"] /\
    ~ Forall2
        (fun line failure =>
           String.prefix (account_id (fst failure)) line = true)
        (errors (progress syncRun)) failed.
Proof.
  intros w failed.
  eexists. split; [vm_compute; reflexivity |].
  split; [reflexivity |]. split; [reflexivity |].
  intros H. inversion H as [| line failure lines rest Hhead _]; subst.
  vm_compute in Hhead. discriminate Hhead.
Qed.

(** A run that gets an empty list of accounts. *)
Lemma handleDailyXSync_skips env w :
  connectedXAccounts env = Ok [] ->
  handleDailyXSync env w =
  (Ok tt,
   {| clockReadings := S (S (clockReadings w)); puts := puts w;
      SYNC_STATE := SYNC_STATE w; ANALYTICS := ANALYTICS w;
      alerts := alerts w |}).
Proof.
  intros Hlist.
  unfold handleDailyXSync, bind, try_catch, await, Date_now. simpl.
  rewrite Hlist. reflexivity.
Qed.

(** C3, as the code has it.  When the directory answers with no account,
    the run ends normally, without an alert, and writes nothing: the
    store, the analytics and the alerts are as they were, and only the
    clock has been read, twice. *)
Theorem no_accounts_skips_sync (env : Externals) (w : World) :
  connectedXAccounts env = Ok [] ->
  fst (handleDailyXSync env w) = Ok tt /\
  SYNC_STATE (snd (handleDailyXSync env w)) = SYNC_STATE w /\
  puts (snd (handleDailyXSync env w)) = puts w /\
  ANALYTICS (snd (handleDailyXSync env w)) = ANALYTICS w /\
  alerts (snd (handleDailyXSync env w)) = alerts w /\
  clockReadings (snd (handleDailyXSync env w)) = S (S (clockReadings w)).
Proof.
  intros Hlist. rewrite (handleDailyXSync_skips env w Hlist).
  repeat split; reflexivity.
Qed.

Lemma no_accounts_skips_sync_witness :
  fst (handleDailyXSync Samples.noAccounts pristine) = Ok tt /\
  SYNC_STATE (snd (handleDailyXSync Samples.noAccounts pristine)) = ∅ /\
  puts (snd (handleDailyXSync Samples.noAccounts pristine)) = 0%nat /\
  ANALYTICS (snd (handleDailyXSync Samples.noAccounts pristine)) = [] /\
  alerts (snd (handleDailyXSync Samples.noAccounts pristine)) = [] /\
  clockReadings (snd (handleDailyXSync Samples.noAccounts pristine)) = 2%nat.
Proof.
  apply (no_accounts_skips_sync Samples.noAccounts pristine).
  reflexivity.
Defined.

(** C3, as the design document has it, fails: with an empty directory the
    run ends normally but no sync result is in the store afterwards. *)
Lemma no_accounts_persists_nothing :
  let '(outcome, w) := handleDailyXSync Samples.noAccounts pristine in
  outcome = Ok tt /\
  ~ exists key syncRun, SYNC_STATE w !! key = Some (JSON_stringify syncRun).
Proof.
  rewrite (handleDailyXSync_skips Samples.noAccounts pristine eq_refl).
  split; [reflexivity |].
  intros (key & syncRun & H). simpl in H. rewrite lookup_empty in H.
  discriminate.
Qed.

(** A run whose directory throws, and whose write to the store succeeds. *)
Lemma handleDailyXSync_fails env w message :
  connectedXAccounts env = Throw message ->
  putError env (puts w) = None ->
  handleDailyXSync env w =
  (Throw message,
   {| clockReadings := 4 + clockReadings w;
      puts := S (puts w);
      SYNC_STATE :=
        <[("sync-result-" ++ syncIdAt env w)%string :=
            JSON_stringify (failedRun env w message)]> (SYNC_STATE w);
      ANALYTICS := ANALYTICS w;
      alerts :=
        alerts w
          ++ [("Daily sync completely failed", failedRun env w message)] |}).
Proof.
  intros Hlist Hput.
  unfold handleDailyXSync, bind, try_catch, await, Date_now. simpl.
  rewrite Hlist. simpl.
  unfold saveSyncResult, SYNC_STATE_put. simpl. rewrite Hput.
  reflexivity.
Qed.

(** The directory throws and the store refuses the failure record. *)
Lemma handleDailyXSync_fails_unrecorded env w message refusal :
  connectedXAccounts env = Throw message ->
  putError env (puts w) = Some refusal ->
  handleDailyXSync env w =
  (Throw refusal,
   {| clockReadings := 4 + clockReadings w; puts := S (puts w);
      SYNC_STATE := SYNC_STATE w; ANALYTICS := ANALYTICS w;
      alerts := alerts w |}).
Proof.
  intros Hlist Hput.
  unfold handleDailyXSync, bind, try_catch, await, Date_now. simpl.
  rewrite Hlist. simpl.
  unfold saveSyncResult, SYNC_STATE_put. simpl. rewrite Hput.
  reflexivity.
Qed.

(** C6, as the code has it.  When listing the connected accounts
    throws, which is the one way the handler can fail before its loop,
    and the store accepts the failure record, the sync result that is
    stored has all four counts at 0 and exactly one entry in [errors],
    the message of the failure; exactly one alert is added, "Daily sync
    completely failed"; and the handler throws the same error again.
    When the store refuses the failure record, nothing is stored, no
    alert is raised, and the handler throws the store's error instead. *)
Theorem catastrophic_failure (env : Externals) (w : World) (message : string) :
  connectedXAccounts env = Throw message ->
  (putError env (puts w) = None ->
   exists syncRun,
     fst (handleDailyXSync env w) = Throw message /\
     SYNC_STATE (snd (handleDailyXSync env w))
       !! ("sync-result-" ++ id syncRun)%string = Some (JSON_stringify syncRun) /\
     totalAccounts (progress syncRun) = 0 /\
     processedAccounts (progress syncRun) = 0 /\
     successfulAccounts (progress syncRun) = 0 /\
     failedAccounts (progress syncRun) = 0 /\
     errors (progress syncRun) = [message] /\
     length (errors (progress syncRun)) = 1%nat /\
     alerts (snd (handleDailyXSync env w))
       = alerts w ++ [("Daily sync completely failed", syncRun)]) /\
  (forall refusal,
      putError env (puts w) = Some refusal ->
      fst (handleDailyXSync env w) = Throw refusal /\
      SYNC_STATE (snd (handleDailyXSync env w)) = SYNC_STATE w /\
      alerts (snd (handleDailyXSync env w)) = alerts w).
Proof.
  intros Hlist. split.
  - intros Hput. exists (failedRun env w message).
    rewrite (handleDailyXSync_fails env w message Hlist Hput).
    cbn [fst snd SYNC_STATE alerts failedRun id progress].
    repeat split. apply lookup_insert_eq.
  - intros refusal Hput.
    rewrite (handleDailyXSync_fails_unrecorded env w message refusal Hlist Hput).
    repeat split.
Qed.

Lemma catastrophic_failure_witness :
  exists syncRun,
    fst (handleDailyXSync Samples.directoryDown pristine)
      = Throw "connect ECONNREFUSED" /\
    SYNC_STATE (snd (handleDailyXSync Samples.directoryDown pristine))
      !! ("sync-result-" ++ id syncRun)%string = Some (JSON_stringify syncRun) /\
    totalAccounts (progress syncRun) = 0 /\
    processedAccounts (progress syncRun) = 0 /\
    successfulAccounts (progress syncRun) = 0 /\
    failedAccounts (progress syncRun) = 0 /\
    errors (progress syncRun) = ["connect ECONNREFUSED"] /\
    length (errors (progress syncRun)) = 1%nat /\
    alerts (snd (handleDailyXSync Samples.directoryDown pristine))
      = [] ++ [("Daily sync completely failed", syncRun)].
Proof.
  apply (proj1 (catastrophic_failure Samples.directoryDown pristine
                  "connect ECONNREFUSED" eq_refl)).
  reflexivity.
Defined.

(** C6, as the design document has it, fails when the store is down as
    well: listing the accounts throws, and afterwards no sync result is
    stored, no alert has been raised, and the error the handler throws is
    the store's, not the one that made the run fail. *)
Lemma catastrophic_failure_unrecorded :
  let '(outcome, w) := handleDailyXSync Samples.allDown pristine in
  connectedXAccounts Samples.allDown = Throw "connect ECONNREFUSED" /\
  outcome = Throw "KV put failed" /\
  SYNC_STATE w = ∅ /\
  alerts w = [].
Proof.
  rewrite (handleDailyXSync_fails_unrecorded Samples.allDown pristine
             "connect ECONNREFUSED" "KV put failed" eq_refl eq_refl).
  repeat split.
Qed.

(** ** The failure-rate alert *)

Lemma highFailureRate_ratio syncProgress :
  0 < totalAccounts syncProgress ->
  highFailureRate syncProgress = true <->
  ((2 # 10) <
   inject_Z (failedAccounts syncProgress) / inject_Z (totalAccounts syncProgress))%Q.
Proof.
  intros Hpos. unfold highFailureRate. rewrite Qlt_bool_iff.
  destruct (totalAccounts syncProgress) as [| total | total]; try lia.
  unfold Qlt, Qdiv, Qmult, Qinv, inject_Z. simpl. lia.
Qed.

Example highFailureRate_3_of_10 :
  alerts (snd (handleDailyXSync Samples.threeOfTen pristine)) <> [] /\
  map fst (alerts (snd (handleDailyXSync Samples.threeOfTen pristine)))
    = ["High failure rate in daily sync"].
Proof. vm_compute. split; [discriminate | reflexivity]. Qed.

Example highFailureRate_2_of_10 :
  alerts (snd (handleDailyXSync Samples.twoOfTen pristine)) = [].
Proof. vm_compute. reflexivity. Qed.

(** C7.  A run that goes through to the end (the directory answered with
    at least one account, so [totalAccounts > 0]) adds the alert "High
    failure rate in daily sync" if and only if
    [failedAccounts / totalAccounts > 0.2], and adds no alert otherwise.
    Three failures out of ten accounts raise it; two out of ten do not. *)
Theorem high_failure_alert (env : Externals) (w : World) (accounts : list Account) :
  connectedXAccounts env = Ok accounts ->
  accounts <> [] ->
  putError env (puts w) = None ->
  exists syncRun,
    SYNC_STATE (snd (handleDailyXSync env w))
      !! ("sync-result-" ++ id syncRun)%string = Some (JSON_stringify syncRun) /\
    0 < totalAccounts (progress syncRun) /\
    (((2 # 10) <
      inject_Z (failedAccounts (progress syncRun))
      / inject_Z (totalAccounts (progress syncRun)))%Q
     <-> alerts (snd (handleDailyXSync env w))
         = alerts w ++ [("High failure rate in daily sync", syncRun)]) /\
    (~ ((2 # 10) <
        inject_Z (failedAccounts (progress syncRun))
        / inject_Z (totalAccounts (progress syncRun)))%Q
     <-> alerts (snd (handleDailyXSync env w)) = alerts w) /\
    (totalAccounts (progress syncRun) = 10 ->
     failedAccounts (progress syncRun) = 3 ->
     alerts (snd (handleDailyXSync env w))
     = alerts w ++ [("High failure rate in daily sync", syncRun)]) /\
    (totalAccounts (progress syncRun) = 10 ->
     failedAccounts (progress syncRun) = 2 ->
     alerts (snd (handleDailyXSync env w)) = alerts w).
Proof.
  intros Hlist Hne Hput. exists (completedRun env w accounts).
  rewrite (handleDailyXSync_completes env w accounts Hlist Hne Hput).
  cbn [snd SYNC_STATE alerts].
  assert (Hpos : 0 < totalAccounts (progress (completedRun env w accounts))).
  { simpl. destruct accounts; [congruence | simpl; lia]. }
  pose proof (highFailureRate_ratio _ Hpos) as Hratio.
  set (syncRun := completedRun env w accounts) in *.
  assert (Hcases :
    (highFailureRate (progress syncRun) = true <->
     alerts w
       ++ (if highFailureRate (progress syncRun)
           then [("High failure rate in daily sync", syncRun)] else [])
     = alerts w ++ [("High failure rate in daily sync", syncRun)]) /\
    (highFailureRate (progress syncRun) <> true <->
     alerts w
       ++ (if highFailureRate (progress syncRun)
           then [("High failure rate in daily sync", syncRun)] else [])
     = alerts w)).
  { destruct (highFailureRate (progress syncRun)); split; split; intros H;
      first [ reflexivity | congruence | apply app_nil_r
            | exfalso; apply (f_equal (@length _)) in H;
              rewrite ?length_app in H; simpl in H; lia ]. }
  destruct Hcases as [Hyes Hno].
  split; [apply lookup_insert_eq |].
  split; [exact Hpos |].
  split; [rewrite <- Hratio; exact Hyes |].
  split; [rewrite <- Hratio; exact Hno |].
  split; intros Htotal Hfailed.
  - apply Hyes, Hratio. rewrite Htotal, Hfailed. reflexivity.
  - apply Hno. rewrite Hratio. rewrite Htotal, Hfailed. intros H. discriminate H.
Qed.

Lemma high_failure_alert_witness :
  exists syncRun,
    SYNC_STATE (snd (handleDailyXSync Samples.threeOfTen pristine))
      !! ("sync-result-" ++ id syncRun)%string = Some (JSON_stringify syncRun) /\
    0 < totalAccounts (progress syncRun) /\
    (((2 # 10) <
      inject_Z (failedAccounts (progress syncRun))
      / inject_Z (totalAccounts (progress syncRun)))%Q
     <-> alerts (snd (handleDailyXSync Samples.threeOfTen pristine))
         = [] ++ [("High failure rate in daily sync", syncRun)]) /\
    (~ ((2 # 10) <
        inject_Z (failedAccounts (progress syncRun))
        / inject_Z (totalAccounts (progress syncRun)))%Q
     <-> alerts (snd (handleDailyXSync Samples.threeOfTen pristine)) = []) /\
    (totalAccounts (progress syncRun) = 10 ->
     failedAccounts (progress syncRun) = 3 ->
     alerts (snd (handleDailyXSync Samples.threeOfTen pristine))
     = [] ++ [("High failure rate in daily sync", syncRun)]) /\
    (totalAccounts (progress syncRun) = 10 ->
     failedAccounts (progress syncRun) = 2 ->
     alerts (snd (handleDailyXSync Samples.threeOfTen pristine)) = []).
Proof.
  apply (high_failure_alert Samples.threeOfTen pristine Samples.tenAccounts).
  - reflexivity.
  - discriminate.
  - reflexivity.
Defined.

(** ** Freshness of the last successful sync *)

Lemma hours_lt_25 (now t : Z) :
  JS.lt (JS.div (JS.sub (JS.of_Z now) (JS.of_Z t)) (JS.of_Z (1000 * 60 * 60)))
        (JS.of_Z 25)
  = bool_decide (now - t < 25 * (60 * 60 * 1000)).
Proof.
  unfold JS.lt, JS.div, JS.sub, JS.of_Z.
  change (Qeq_bool (inject_Z (1000 * 60 * 60)) 0) with false. cbv iota.
  destruct (bool_decide_reflect (now - t < 25 * (60 * 60 * 1000))) as [H | H].
  - apply Qlt_bool_iff.
    unfold Qlt, Qdiv, Qminus, Qplus, Qopp, Qmult, Qinv, inject_Z. simpl. lia.
  - apply not_true_is_false. rewrite Qlt_bool_iff.
    unfold Qlt, Qdiv, Qminus, Qplus, Qopp, Qmult, Qinv, inject_Z. simpl. lia.
Qed.

(** C9.  When the store holds a non-empty [last-successful-sync] marker
    whose timestamp reads as the time [t], the check answers [true] if and
    only if the marker is less than 25 hours old when the check reads the
    clock.  A marker 26 hours old gives [false]; one 24 hours old gives
    [true]. *)
Theorem lastSync_fresh_within_25_hours (env : Externals) (w : World)
    (text : string) (t : Z) :
  getError env = None ->
  SYNC_STATE w !! "last-successful-sync" = Some (Text text) ->
  text <> "" ->
  markerTime env text = Ok (JS.of_Z t) ->
  let now := clock env (clockReadings w) in
  let hour := 60 * 60 * 1000 in
  (fst (checkLastSyncHealth env w) = Ok true <-> now - t < 25 * hour) /\
  (fst (checkLastSyncHealth env w) = Ok false <-> ~ now - t < 25 * hour) /\
  (now - t = 26 * hour -> fst (checkLastSyncHealth env w) = Ok false) /\
  (now - t = 24 * hour -> fst (checkLastSyncHealth env w) = Ok true).
Proof.
  intros Hget Hstored Hnonempty Htime now hour.
  assert (E : fst (checkLastSyncHealth env w)
              = Ok (bool_decide (now - t < 25 * hour))).
  { unfold checkLastSyncHealth, try_catch, bind, SYNC_STATE_get.
    rewrite Hget, Hstored. unfold isEmpty.
    apply String.eqb_neq in Hnonempty. rewrite Hnonempty.
    unfold lastSyncTimeOf, await. rewrite Htime.
    unfold Date_now, ret. cbn [fst]. rewrite hours_lt_25. reflexivity. }
  rewrite E.
  destruct (bool_decide_reflect (now - t < 25 * hour)) as [H | H].
  - repeat split; try (intros; subst hour; lia); try congruence.
  - repeat split; try (intros; subst hour; lia); try congruence.
Qed.

Lemma lastSync_fresh_within_25_hours_witness :
  let now := 1700000000000 in
  let t := 1700000000000 - 24 * (60 * 60 * 1000) in
  let hour := 60 * 60 * 1000 in
  let answer := fst (checkLastSyncHealth (Samples.checkedAfter 24) Samples.marked) in
  (answer = Ok true <-> now - t < 25 * hour) /\
  (answer = Ok false <-> ~ now - t < 25 * hour) /\
  (now - t = 26 * hour -> answer = Ok false) /\
  (now - t = 24 * hour -> answer = Ok true).
Proof.
  apply (lastSync_fresh_within_25_hours (Samples.checkedAfter 24) Samples.marked
           Samples.markerText (1700000000000 - 24 * (60 * 60 * 1000))).
  - reflexivity.
  - reflexivity.
  - discriminate.
  - reflexivity.
Defined.

Example lastSync_24_hours_old :
  fst (checkLastSyncHealth (Samples.checkedAfter 24) Samples.marked) = Ok true.
Proof. vm_compute. reflexivity. Qed.

Example lastSync_25_hours_old :
  fst (checkLastSyncHealth (Samples.checkedAfter 25) Samples.marked) = Ok false.
Proof. vm_compute. reflexivity. Qed.

Example lastSync_26_hours_old :
  fst (checkLastSyncHealth (Samples.checkedAfter 26) Samples.marked) = Ok false.
Proof. vm_compute. reflexivity. Qed.

Example lastSync_missing :
  fst (checkLastSyncHealth (Samples.checkedAfter 1) pristine) = Ok false.
Proof. vm_compute. reflexivity. Qed.

(** * Further properties *)

(** ** Configuration from the environment *)

(** [parseInt] returns the double nearest to the integer it reads. *)
Lemma parseInt_parseInteger (input : string) :
  JS.parseInt input =
  match JS.parseInteger input with
  | Some v => JS.nearest (inject_Z v)
  | None => JS.NaN
  end.
Proof.
  unfold JS.parseInt, JS.parseInteger.
  destruct (match JS.trimStart input with
            | String "-" rest => (-1, rest)
            | String "+" rest => (1, rest)
            | _ => (1, JS.trimStart input)
            end) as [sign s].
  destruct (match JS.stripHexPrefix s with
            | Some rest => (16, rest)
            | None => (10, s)
            end) as [radix s'].
  destruct (JS.parseDigits radix None s'); reflexivity.
Qed.

Lemma integer_or_nonzero n d : d <> 0 -> JS.integer_or n d <> 0.
Proof.
  intros Hd. unfold JS.integer_or. destruct n as [v |]; [| exact Hd].
  destruct (Z.eqb_spec v 0); assumption.
Qed.

(** X1.  Whatever the environment holds, the limiter that
    [createRateLimiter] makes has a 15 minute window and 3 retries, and
    neither its limit nor its pacing delay is 0: a variable that is not
    set, does not start with a number, or reads as 0 gives the default
    (200 requests, 4500 ms), and any other integer, negative ones
    included, is taken as it is. *)
Theorem createRateLimiter_config (env : LimiterEnv) :
  let config := createRateLimiter env in
  windowDurationMs config = 15 * 60 * 1000 /\
  maxRetries config = 3 /\
  maxRequestsPerWindow config <> 0 /\
  requestDelayMs config <> 0 /\
  (parseVariable (MAX_REQUESTS_PER_WINDOW env) = None \/
   parseVariable (MAX_REQUESTS_PER_WINDOW env) = Some 0 ->
   maxRequestsPerWindow config = 200) /\
  (parseVariable (REQUEST_DELAY_MS env) = None \/
   parseVariable (REQUEST_DELAY_MS env) = Some 0 ->
   requestDelayMs config = 4500) /\
  (forall v,
      v <> 0 ->
      (parseVariable (MAX_REQUESTS_PER_WINDOW env) = Some v ->
       maxRequestsPerWindow config = v) /\
      (parseVariable (REQUEST_DELAY_MS env) = Some v ->
       requestDelayMs config = v)).
Proof.
  intros config. subst config. unfold createRateLimiter. simpl.
  split; [reflexivity |]. split; [reflexivity |].
  split; [apply integer_or_nonzero; discriminate |].
  split; [apply integer_or_nonzero; discriminate |].
  split; [intros [-> | ->]; reflexivity |].
  split; [intros [-> | ->]; reflexivity |].
  intros v Hv. split; intros ->; unfold JS.integer_or;
    destruct (Z.eqb_spec v 0); congruence.
Qed.

Lemma createRateLimiter_config_witness :
  let config := createRateLimiter Samples.negativeLimit in
  maxRequestsPerWindow config = -5 /\ requestDelayMs config = 4500.
Proof.
  pose proof (createRateLimiter_config Samples.negativeLimit)
    as (_ & _ & _ & _ & _ & Hdelay & Hvalue).
  split.
  - apply (Hvalue (-5)); [discriminate | reflexivity].
  - apply Hdelay. left. reflexivity.
Defined.

(** ** The retry budget *)

Lemma backoff_budget_from config fn :
  forall (left : nat) (attempt : Z),
    Z.to_nat (maxRetries config - attempt) = left ->
    (1 <= invocations (snd (makeRequestWithBackoff config fn attempt))
       <= left + 1)%nat.
Proof.
  induction left as [| left IH]; intros attempt Hleft;
    rewrite makeRequestWithBackoff_unfold;
    pose proof (attemptOnce_no_invoke config (fn attempt)) as Hnone;
    destruct (attemptOnce config (fn attempt)) as [[response | error] events];
    simpl in Hnone; simpl; rewrite ?Hnone; try lia.
  - destruct (Z.ltb_spec attempt (maxRetries config)); [lia |].
    simpl. rewrite Hnone. lia.
  - destruct ((attempt <? maxRetries config) && isRetryableError error);
      simpl; [| rewrite Hnone; lia].
    rewrite invocations_app, Hnone. simpl.
    specialize (IH (attempt + 1) ltac:(lia)). lia.
Qed.

(** X2.  Whatever the unit of work does, the wrapper calls it at least
    once and at most [maxRetries + 1] times (once when [maxRetries] is
    negative); for a limiter made by [createRateLimiter] that is at most
    4 calls. *)
Theorem backoff_budget (config : RateLimiterConfig) (fn : RequestFn) :
  (1 <= invocations (snd (makeRequestWithBackoff config fn 0))
     <= Z.to_nat (maxRetries config) + 1)%nat /\
  (forall env,
      (invocations (snd (makeRequestWithBackoff (createRateLimiter env) fn 0))
       <= 4)%nat).
Proof.
  split.
  - apply backoff_budget_from. f_equal. lia.
  - intros env.
    pose proof (backoff_budget_from (createRateLimiter env) fn 3 0 eq_refl).
    lia.
Qed.

Lemma not_failsRetryably config outcome :
  ~ failsRetryably config outcome ->
  match fst (attemptOnce config outcome) with
  | Ok _ => True
  | Throw error => isRetryableError error = false
  end.
Proof.
  intros H. destruct (fst (attemptOnce config outcome)) as [r | error] eqn:E;
    [exact I |].
  destruct (isRetryableError error) eqn:R; [| reflexivity].
  exfalso. apply H. exists error. split; assumption.
Qed.

Lemma retried_from config fn (k : Z) :
  (forall j, 0 <= j < k -> failsRetryably config (fn j)) ->
  k <= maxRetries config ->
  ~ failsRetryably config (fn k) ->
  forall (left : nat) (attempt : Z),
    0 <= attempt ->
    attempt + Z.of_nat left = k ->
    makeRequestWithBackoff config fn attempt =
    (fst (attemptOnce config (fn k)),
     concat
       (map (fun j =>
               EvInvoke :: slowdownAfter config fn j
                 ++ [EvDelay (Z.min (1000 * 2 ^ j) 60000)])
            (seqZ attempt (Z.of_nat left)))
     ++ EvInvoke :: slowdownAfter config fn k).
Proof.
  intros Hfail Hk Hlast left.
  induction left as [| left IH]; intros attempt Hpos Hsum.
  - assert (attempt = k) as -> by lia.
    rewrite makeRequestWithBackoff_unfold.
    apply not_failsRetryably in Hlast.
    unfold slowdownAfter. simpl.
    destruct (attemptOnce config (fn k)) as [[response | error] events];
      simpl in *; [reflexivity |].
    rewrite Hlast, andb_false_r. reflexivity.
  - rewrite makeRequestWithBackoff_unfold.
    destruct (Hfail attempt ltac:(lia)) as (error & Herr & Hretry).
    rewrite (seqZ_cons attempt) by lia. simpl map. simpl concat.
    unfold slowdownAfter at 1.
    destruct (attemptOnce config (fn attempt)) as [r events].
    simpl in Herr. subst r.
    assert (Hlt : (attempt <? maxRetries config) = true) by (apply Z.ltb_lt; lia).
    rewrite Hlt, Hretry. simpl andb. cbv iota. cbv zeta.
    rewrite (IH (attempt + 1)) by lia.
    simpl fst. simpl snd.
    replace (Z.pred (Z.of_nat (S left))) with (Z.of_nat left) by lia.
    replace (Z.succ attempt) with (attempt + 1) by lia.
    unfold backoffTime. f_equal.
    simpl. f_equal. rewrite <- !app_assoc. reflexivity.
Qed.

Lemma invocations_retried config fn (ks : list Z) :
  invocations
    (concat
       (map (fun j =>
               EvInvoke :: slowdownAfter config fn j
                 ++ [EvDelay (Z.min (1000 * 2 ^ j) 60000)])
            ks))
  = length ks.
Proof.
  induction ks as [| k ks IH]; [reflexivity |].
  simpl. rewrite !invocations_app, IH.
  unfold slowdownAfter. rewrite attemptOnce_no_invoke. reflexivity.
Qed.

(** X3.  The wrapper stops at the first attempt that does not fail
    retryably.  When attempts [0 .. k-1] fail retryably and attempt
    [k <= maxRetries] succeeds or fails for good, the work is called
    [k + 1] times, the wrapper waits [min(1000 * 2^j, 60000)] ms after
    each failed attempt [j < k], and its result is that of attempt [k]:
    the response, or the permanent error, which is not retried. *)
Theorem backoff_stops_at_first_final_attempt (config : RateLimiterConfig)
    (fn : RequestFn) (k : Z) :
  0 <= k <= maxRetries config ->
  (forall j, 0 <= j < k -> failsRetryably config (fn j)) ->
  ~ failsRetryably config (fn k) ->
  let result := makeRequestWithBackoff config fn 0 in
  fst result = fst (attemptOnce config (fn k)) /\
  snd result = retriedSchedule config fn k /\
  invocations (snd result) = Z.to_nat (k + 1).
Proof.
  intros [Hk0 Hk] Hfail Hlast result.
  assert (E : result =
              (fst (attemptOnce config (fn k)), retriedSchedule config fn k)).
  { subst result. unfold retriedSchedule.
    rewrite (retried_from config fn k Hfail Hk Hlast (Z.to_nat k) 0) by lia.
    rewrite Z2Nat.id by lia. reflexivity. }
  rewrite E. simpl fst. simpl snd.
  split; [reflexivity |]. split; [reflexivity |].
  unfold retriedSchedule. rewrite invocations_app, invocations_retried.
  simpl. unfold slowdownAfter. rewrite attemptOnce_no_invoke.
  rewrite length_seqZ. lia.
Qed.

Lemma backoff_stops_at_first_final_attempt_witness :
  let result :=
    makeRequestWithBackoff DEFAULT_RATE_LIMIT_CONFIG Samples.throttledOnce 0 in
  fst result = Ok Samples.bareResponse /\
  snd result = [EvInvoke; EvDelay 1000; EvInvoke] /\
  invocations (snd result) = 2%nat.
Proof.
  apply (backoff_stops_at_first_final_attempt DEFAULT_RATE_LIMIT_CONFIG
           Samples.throttledOnce 1).
  - simpl. lia.
  - intros j Hj. assert (j = 0) as -> by lia.
    exists "Rate limited". split; reflexivity.
  - intros (error & Herr & _). discriminate Herr.
Defined.

(** ** Which failures are retried *)

Lemma show_5xx (status : Z) :
  500 <= status <= 599 -> exists rest, JS.show status = String "5" rest.
Proof.
  intros H.
  assert (Hall :
    forallb (fun s => match JS.show s with
                      | String "5" _ => true
                      | _ => false
                      end) (seqZ 500 100) = true)
    by (vm_compute; reflexivity).
  rewrite forallb_forall in Hall.
  specialize (Hall status).
  destruct (JS.show status) as [| c rest].
  - discriminate Hall. apply list_elem_of_In, elem_of_seqZ. lia.
  - exists rest.
    assert (Hc : match c with "5"%char => true | _ => false end = true)
      by (apply Hall; apply list_elem_of_In, elem_of_seqZ; lia).
    destruct c as [[] [] [] [] [] [] [] []]; try discriminate Hc. reflexivity.
Qed.

Lemma includes_prefix (needle hay : string) :
  String.prefix needle hay = true -> JS.includes needle hay = true.
Proof.
  intros H. destruct hay as [| c hay]; unfold JS.includes; fold JS.includes;
    rewrite H; reflexivity.
Qed.

(** A response is logged without an error when it carries no limit, or
    no reset time. *)
Lemma logRateLimitStatus_without_reset (response : Response) :
  headers response !! "x-rate-limit-reset" = None ->
  logRateLimitStatus (parseRateLimitHeaders response) = Ok tt.
Proof.
  intros H. unfold logRateLimitStatus, parseRateLimitHeaders. cbn [limit reset].
  rewrite H. destruct (JS.lt _ _); reflexivity.
Qed.

Lemma logRateLimitStatus_throws (rateLimit : XAPIRateLimit) :
  logRateLimitStatus rateLimit <> Ok tt ->
  logRateLimitStatus rateLimit = Throw "Invalid time value".
Proof.
  unfold logRateLimitStatus.
  destruct (JS.lt _ _); [| congruence].
  destruct (JS.isTimeValue _); congruence.
Qed.

(** X4.  Which failures are retried.  A response with status 429, or
    with any status from 500 to 599 whatever its status text, counts as
    a retryable failure provided its rate-limit headers can be logged,
    which they can when the limit or the reset time is missing; a call
    that rejects with a message that mentions "timeout" counts as one
    too.  A response whose reset time cannot be formatted for the log
    line is not retried, whatever its status: the attempt ends with the
    [RangeError], without a slowdown, and the wrapper throws it after
    that one call. *)
Theorem retried_failures (config : RateLimiterConfig) :
  (forall response,
      logRateLimitStatus (parseRateLimitHeaders response) = Ok tt ->
      status response = 429 \/ 500 <= status response <= 599 ->
      failsRetryably config (Fulfils response)) /\
  (forall message,
      JS.includes "timeout" message = true ->
      failsRetryably config (Rejects message)) /\
  (forall response,
      headers response !! "x-rate-limit-limit" = None \/
      headers response !! "x-rate-limit-reset" = None ->
      logRateLimitStatus (parseRateLimitHeaders response) = Ok tt) /\
  (forall response,
      logRateLimitStatus (parseRateLimitHeaders response) <> Ok tt ->
      ~ failsRetryably config (Fulfils response) /\
      attemptOnce config (Fulfils response) = (Throw "Invalid time value", []) /\
      forall fn attempt,
        fn attempt = Fulfils response ->
        makeRequestWithBackoff config fn attempt
        = (Throw "Invalid time value", [EvInvoke])).
Proof.
  split; [| split; [| split]].
  - intros response Hlog [H429 | H5xx]; unfold failsRetryably, attemptOnce;
      rewrite Hlog.
    + rewrite H429. simpl. exists "Rate limited". split; reflexivity.
    + destruct (Z.eqb_spec (status response) 429) as [E | _]; [lia |].
      assert (Hnok : ok response = false).
      { unfold ok. apply andb_false_iff. right. apply Z.leb_gt. lia. }
      rewrite Hnok. cbn [negb fst].
      destruct (show_5xx _ H5xx) as [rest Hshow].
      eexists. split; [reflexivity |].
      rewrite Hshow. unfold isRetryableError.
      destruct (JS.includes "Rate limited" _); [reflexivity |].
      change ("HTTP " ++ String "5" rest ++ ": " ++ statusText response)%string
        with ("HTTP 5" ++ (rest ++ ": " ++ statusText response))%string.
      rewrite includes_prefix by apply prefix_app. reflexivity.
  - intros message Hm. exists message. split; [reflexivity |].
    unfold isRetryableError.
    destruct (JS.includes "Rate limited" message); [reflexivity |].
    destruct (JS.includes "HTTP 5" message); [reflexivity |].
    rewrite Hm. reflexivity.
  - intros response [H | H].
    + apply logRateLimitStatus_without_limit.
      rewrite (parseRateLimitHeaders_missing_limit _ H). reflexivity.
    + apply logRateLimitStatus_without_reset, H.
  - intros response Hlog. apply logRateLimitStatus_throws in Hlog.
    assert (E : attemptOnce config (Fulfils response)
                = (Throw "Invalid time value", [])).
    { unfold attemptOnce. rewrite Hlog. reflexivity. }
    split; [| split; [exact E |]].
    + intros (error & Herr & Hretry). rewrite E in Herr.
      injection Herr as <-. discriminate Hretry.
    + intros fn attempt Hfn.
      rewrite makeRequestWithBackoff_unfold, Hfn, E.
      change (isRetryableError "Invalid time value") with false.
      rewrite andb_false_r. reflexivity.
Qed.

Lemma retried_failures_witness :
  failsRetryably DEFAULT_RATE_LIMIT_CONFIG (Fulfils Samples.unavailable) /\
  failsRetryably DEFAULT_RATE_LIMIT_CONFIG (Rejects "network timeout") /\
  logRateLimitStatus (parseRateLimitHeaders Samples.throttled) = Ok tt /\
  makeRequestWithBackoff DEFAULT_RATE_LIMIT_CONFIG Samples.alwaysUnreadable 0
  = (Throw "Invalid time value", [EvInvoke]).
Proof.
  pose proof (retried_failures DEFAULT_RATE_LIMIT_CONFIG)
    as (Hresponse & Hmessage & Hlogged & Hunlogged).
  split; [| split; [| split]].
  - apply Hresponse; [vm_compute; reflexivity | right; simpl; lia].
  - apply Hmessage. reflexivity.
  - apply Hlogged. left. reflexivity.
  - apply (Hunlogged Samples.unreadable); [vm_compute; discriminate | reflexivity].
Defined.

(** ** Rounding to a double *)

Lemma Qfloor_bounds (q : Q) :
  (inject_Z (Qfloor q) <= q /\ q < inject_Z (Qfloor q) + 1)%Q.
Proof.
  split; [apply Qfloor_le |].
  pose proof (Qlt_floor q) as H. rewrite inject_Z_plus in H. exact H.
Qed.

Lemma Qfloor_unique (q : Q) (n : Z) :
  (inject_Z n <= q)%Q -> (q < inject_Z n + 1)%Q -> Qfloor q = n.
Proof.
  intros Hle Hlt. destruct (Qfloor_bounds q) as [Hf Hf'].
  assert (A : (inject_Z n < inject_Z (Qfloor q + 1))%Q)
    by (rewrite inject_Z_plus; change (inject_Z 1) with 1%Q; lra).
  assert (B : (inject_Z (Qfloor q) < inject_Z (n + 1))%Q)
    by (rewrite inject_Z_plus; change (inject_Z 1) with 1%Q; lra).
  rewrite <- Zlt_Qlt in A, B. lia.
Qed.

Lemma roundHalfEven_cases (q : Q) :
  JS.roundHalfEven q = Qfloor q \/ JS.roundHalfEven q = Qfloor q + 1.
Proof.
  unfold JS.roundHalfEven.
  destruct (_ ?= _)%Q; [destruct (Z.even _) | |]; auto.
Qed.

Lemma roundHalfEven_le (q : Q) (n : Z) :
  (q <= inject_Z n)%Q -> JS.roundHalfEven q <= n.
Proof.
  intros H. destruct (Qfloor_bounds q) as [Hf Hf'].
  assert (F : Qfloor q <= n) by (rewrite Zle_Qle; lra).
  unfold JS.roundHalfEven.
  assert (G : (1 # 2 <= q - inject_Z (Qfloor q))%Q -> Qfloor q + 1 <= n).
  { intros Hhalf.
    assert (A : (inject_Z (Qfloor q) < inject_Z n)%Q) by lra.
    rewrite <- Zlt_Qlt in A. lia. }
  destruct (Qcompare_spec (q - inject_Z (Qfloor q)) (1 # 2)) as [E | E | E].
  - destruct (Z.even (Qfloor q)); [exact F |]. apply G. lra.
  - exact F.
  - apply G. lra.
Qed.

Lemma roundHalfEven_ge (q : Q) (n : Z) :
  (inject_Z n <= q)%Q -> n <= JS.roundHalfEven q.
Proof.
  intros H.
  assert (F : n <= Qfloor q).
  { rewrite <- (Qfloor_Z n). apply Qfloor_resp_le. exact H. }
  destruct (roundHalfEven_cases q) as [-> | ->]; lia.
Qed.

(** Up to an even integer [m], rounding stays at or below it up to and
    including the midpoint [m + 1/2]. *)
Lemma roundHalfEven_le_even (q : Q) (m : Z) :
  Z.even m = true ->
  JS.roundHalfEven q <= m <-> (q <= inject_Z m + (1 # 2))%Q.
Proof.
  intros Heven. split.
  - intros Hle.
    destruct (Qlt_le_dec (inject_Z m + (1 # 2)) q) as [Hgt | H]; [| exact H].
    exfalso.
    destruct (Qlt_le_dec q (inject_Z m + 1)) as [Hbelow | Habove].
    + assert (F : Qfloor q = m) by (apply Qfloor_unique; lra).
      unfold JS.roundHalfEven in Hle. rewrite F in Hle.
      destruct (Qcompare_spec (q - inject_Z m) (1 # 2)) as [E | E | E];
        try lra.
      lia.
    + assert (A : m + 1 <= JS.roundHalfEven q).
      { apply roundHalfEven_ge. rewrite inject_Z_plus.
        change (inject_Z 1) with 1%Q. lra. }
      lia.
  - intros Hle.
    destruct (Qlt_le_dec q (inject_Z m)) as [Hbelow | Habove].
    + apply roundHalfEven_le. lra.
    + assert (F : Qfloor q = m) by (apply Qfloor_unique; lra).
      unfold JS.roundHalfEven. rewrite F, Heven.
      destruct (Qcompare_spec (q - inject_Z m) (1 # 2)) as [E | E | E];
        try lra; lia.
Qed.

(** *** Powers of two *)

Lemma pow2_pos (e : Z) : (0 < 2 ^ e)%Q.
Proof. apply Qpower_0_lt. reflexivity. Qed.

Lemma pow2_plus (a b : Z) : (2 ^ (a + b) == 2 ^ a * 2 ^ b)%Q.
Proof. apply Qpower_plus. discriminate. Qed.

Lemma pow2_le (a b : Z) : a <= b -> (2 ^ a <= 2 ^ b)%Q.
Proof. intros H. apply Qpower_le_compat_l; [exact H | discriminate]. Qed.

Lemma pow2_inject (n : Z) : 0 <= n -> (inject_Z (2 ^ n) == 2 ^ n)%Q.
Proof. intros H. apply (Zpower_Qpower 2 n H). Qed.

Lemma inject_Z_pos (z : Z) : 0 < z -> (0 < inject_Z z)%Q.
Proof. intros H. change 0%Q with (inject_Z 0). rewrite <- Zlt_Qlt. exact H. Qed.

(** Fractions of integers compare as their cross products do. *)
Lemma Qdiv_lt_cross (n d a b : Z) :
  0 < d -> 0 < b -> n * b < a * d ->
  (inject_Z n / inject_Z d < inject_Z a / inject_Z b)%Q.
Proof.
  intros Hd Hb H.
  pose proof (inject_Z_pos d Hd) as Qd. pose proof (inject_Z_pos b Hb) as Qb.
  apply Qlt_shift_div_r; [exact Qd |].
  setoid_replace (inject_Z a / inject_Z b * inject_Z d)%Q
    with (inject_Z a * inject_Z d / inject_Z b)%Q
    using relation Qeq by (field; lra).
  apply Qlt_shift_div_l; [exact Qb |].
  rewrite <- !inject_Z_mult, <- Zlt_Qlt. exact H.
Qed.

Lemma exponent_spec (q : Q) :
  (0 < q)%Q ->
  (2 ^ JS.exponent q <= q /\ q < 2 ^ (JS.exponent q + 1))%Q.
Proof.
  intros Hpos. destruct q as [n d].
  assert (Hn : 0 < n) by (unfold Qlt in Hpos; simpl in Hpos; lia).
  unfold JS.exponent. cbn [Qnum Qden].
  set (ln := Z.log2 n). set (ld := Z.log2 (Z.pos d)).
  destruct (Z.log2_spec n Hn) as [Ln Un]. fold ln in Ln, Un.
  destruct (Z.log2_spec (Z.pos d) ltac:(lia)) as [Ld Ud]. fold ld in Ld, Ud.
  assert (Hln : 0 <= ln) by apply Z.log2_nonneg.
  assert (Hld : 0 <= ld) by apply Z.log2_nonneg.
  assert (Q1 : (n # d == inject_Z n / inject_Z (Z.pos d))%Q) by apply Qmake_Qdiv.
  assert (Pn : 0 < 2 ^ ln) by lia.
  assert (Pd : 0 < 2 ^ ld) by lia.
  assert (U : (n # d < 2 ^ (ln - ld + 1))%Q).
  { replace (ln - ld + 1) with (Z.succ ln - ld) by lia.
    rewrite Qpower_minus by discriminate.
    rewrite <- (pow2_inject (Z.succ ln)), <- (pow2_inject ld), Q1 by lia.
    apply Qdiv_lt_cross; [lia | lia | nia]. }
  assert (L : (2 ^ (ln - ld - 1) < n # d)%Q).
  { replace (ln - ld - 1) with (ln - Z.succ ld) by lia.
    rewrite Qpower_minus by discriminate.
    rewrite <- (pow2_inject ln), <- (pow2_inject (Z.succ ld)), Q1 by lia.
    apply Qdiv_lt_cross; [lia | lia | nia]. }
  destruct (Qle_bool (2 ^ (ln - ld)) (n # d)) eqn:E.
  - apply Qle_bool_iff in E. split; [exact E | exact U].
  - split; [apply Qlt_le_weak, L |].
    replace (ln - ld - 1 + 1) with (ln - ld) by lia.
    apply Qnot_le_lt. intros Hle. apply Qle_bool_iff in Hle. congruence.
Qed.

Lemma exponent_unique (q : Q) (e : Z) :
  (2 ^ e <= q)%Q -> (q < 2 ^ (e + 1))%Q -> JS.exponent q = e.
Proof.
  intros Hle Hlt.
  assert (Hpos : (0 < q)%Q) by (pose proof (pow2_pos e); lra).
  destruct (exponent_spec q Hpos) as [Sle Slt].
  assert (A : (2 ^ e < 2 ^ (JS.exponent q + 1))%Q) by lra.
  assert (B : (2 ^ JS.exponent q < 2 ^ (e + 1))%Q) by lra.
  apply Qpower_lt_compat_l_inv in A; [| reflexivity].
  apply Qpower_lt_compat_l_inv in B; [| reflexivity].
  lia.
Qed.

(** *** The nearest double *)

(** The multiple of [ulp] nearest to [a] is on the same side as [a] of
    every multiple of [ulp]. *)
Lemma grid_le (a ulp : Q) (k : Z) :
  (0 < ulp)%Q -> (a <= inject_Z k * ulp)%Q ->
  (inject_Z (JS.roundHalfEven (a / ulp)) * ulp <= inject_Z k * ulp)%Q.
Proof.
  intros Hulp H.
  apply Qmult_le_compat_r; [| lra].
  rewrite <- Zle_Qle. apply roundHalfEven_le.
  apply Qle_shift_div_r; assumption.
Qed.

Lemma grid_ge (a ulp : Q) (k : Z) :
  (0 < ulp)%Q -> (inject_Z k * ulp <= a)%Q ->
  (inject_Z k * ulp <= inject_Z (JS.roundHalfEven (a / ulp)) * ulp)%Q.
Proof.
  intros Hulp H.
  apply Qmult_le_compat_r; [| lra].
  rewrite <- Zle_Qle. apply roundHalfEven_ge.
  apply Qle_shift_div_l; assumption.
Qed.

Lemma nearestMagnitude_nonneg (a : Q) : (0 <= a)%Q -> (0 <= JS.nearestMagnitude a)%Q.
Proof.
  intros H. unfold JS.nearestMagnitude.
  set (ulp := (2 ^ _)%Q).
  assert (Hulp : (0 < ulp)%Q) by apply pow2_pos.
  pose proof (grid_ge a ulp 0 Hulp) as G.
  change (inject_Z 0) with 0%Q in G. lra.
Qed.

(** A power of two at or above the unit in the last place is a multiple
    of it. *)
Lemma pow2_on_grid (e k : Z) :
  e - 52 <= k -> (2 ^ k == inject_Z (2 ^ (k - (e - 52))) * 2 ^ (e - 52))%Q.
Proof.
  intros H. rewrite pow2_inject, <- pow2_plus by lia.
  replace (k - (e - 52) + (e - 52)) with k by lia. reflexivity.
Qed.

(** So is an integer, when the exponent is at most 52. *)
Lemma integer_on_grid (e b : Z) :
  e <= 52 -> (inject_Z b == inject_Z (b * 2 ^ (52 - e)) * 2 ^ (e - 52))%Q.
Proof.
  intros H. rewrite inject_Z_mult, pow2_inject, <- Qmult_assoc, <- pow2_plus by lia.
  replace (52 - e + (e - 52)) with 0 by lia.
  change (2 ^ 0)%Q with 1%Q. ring.
Qed.

(** Rounding does not cross an integer below 2^53, nor a power of two. *)
Lemma nearestMagnitude_le (a : Q) (b : Z) :
  (0 < a)%Q -> b < 2 ^ 53 -> (a <= inject_Z b)%Q ->
  (JS.nearestMagnitude a <= inject_Z b)%Q.
Proof.
  intros Hpos Hb H. unfold JS.nearestMagnitude.
  destruct (exponent_spec a Hpos) as [Sle _].
  assert (He : JS.exponent a < 53).
  { apply (Qpower_lt_compat_l_inv 2 (JS.exponent a) 53); [| reflexivity].
    rewrite <- (pow2_inject 53) by lia.
    assert (A : (inject_Z b < inject_Z (2 ^ 53))%Q) by (rewrite <- Zlt_Qlt; exact Hb).
    lra. }
  set (e := Z.max (JS.exponent a) (-1022)).
  assert (E : e <= 52) by lia.
  rewrite (integer_on_grid e b E) in H |- *.
  apply grid_le; [apply pow2_pos | exact H].
Qed.

Lemma nearestMagnitude_ge (a : Q) (b : Z) :
  0 < b <= 2 ^ 53 -> (inject_Z b <= a)%Q ->
  (inject_Z b <= JS.nearestMagnitude a)%Q.
Proof.
  intros Hb H. unfold JS.nearestMagnitude.
  assert (Hone : (1 <= a)%Q).
  { assert (A : (inject_Z 1 <= inject_Z b)%Q) by (rewrite <- Zle_Qle; lia).
    change (inject_Z 1) with 1%Q in A. lra. }
  assert (Hpos : (0 < a)%Q) by lra.
  destruct (exponent_spec a Hpos) as [Sle Slt].
  assert (He : 0 <= JS.exponent a).
  { assert (A : (2 ^ 0 < 2 ^ (JS.exponent a + 1))%Q)
      by (change (2 ^ 0)%Q with 1%Q; lra).
    apply (Qpower_lt_compat_l_inv 2 0 (JS.exponent a + 1)) in A; [lia | reflexivity]. }
  set (e := Z.max (JS.exponent a) (-1022)).
  assert (E : e = JS.exponent a) by lia.
  destruct (Z.le_gt_cases e 52) as [Small | Large].
  - rewrite (integer_on_grid e b Small) in H |- *.
    apply grid_ge; [apply pow2_pos | exact H].
  - assert (G : (2 ^ e
                 <= inject_Z (JS.roundHalfEven (a / 2 ^ (e - 52))) * 2 ^ (e - 52))%Q).
    { rewrite (pow2_on_grid e e) at 1 by lia.
      apply grid_ge; [apply pow2_pos |].
      rewrite <- (pow2_on_grid e e) by lia. rewrite E. exact Sle. }
    assert (P : (inject_Z b <= 2 ^ e)%Q).
    { apply Qle_trans with (2 ^ 53)%Q; [| apply pow2_le; lia].
      rewrite <- (pow2_inject 53) by lia. rewrite <- Zle_Qle. lia. }
    lra.
Qed.

(** [nearest] of a number that is not 0, by its sign. *)
Lemma nearest_positive (x : Q) :
  (0 < x)%Q ->
  JS.nearest x =
  if Qle_bool (2 ^ 1024) (JS.nearestMagnitude x) then JS.PInf
  else JS.Fin (Qred (JS.nearestMagnitude x)).
Proof.
  intros Hpos.
  destruct x as [[| p | p] d]; try (exfalso; revert Hpos; compute; congruence).
  reflexivity.
Qed.

Lemma nearest_negative (x : Q) :
  (x < 0)%Q ->
  JS.nearest x =
  if Qle_bool (2 ^ 1024) (JS.nearestMagnitude (- x)) then JS.NInf
  else JS.Fin (Qred (- JS.nearestMagnitude (- x))).
Proof.
  intros Hneg.
  destruct x as [[| p | p] d]; try (exfalso; revert Hneg; compute; congruence).
  reflexivity.
Qed.

Lemma nearest_zero (x : Q) : (x == 0)%Q -> JS.nearest x = JS.Fin 0.
Proof.
  intros H. unfold JS.nearest. apply Qeq_bool_iff in H. rewrite H. reflexivity.
Qed.

Lemma pow2_1024_large (b : Z) : b <= 2 ^ 53 -> (inject_Z b < 2 ^ 1024)%Q.
Proof.
  intros H. apply Qle_lt_trans with (2 ^ 53)%Q.
  - rewrite <- (pow2_inject 53) by lia. rewrite <- Zle_Qle. exact H.
  - apply Qpower_lt_compat_l; [lia | reflexivity].
Qed.

Lemma nearest_015 :
  JS.nearest (15 # 100) = JS.Fin (5404319552844595 # 36028797018963968).
Proof. vm_compute. reflexivity. Qed.

(** The double nearest to [x] is below the double [0.15] exactly when [x]
    is at most half-way between that double and the one before it. *)
Lemma nearest_lt_015 (x : Q) :
  JS.lt (JS.nearest x) (JS.nearest (15 # 100)) = true
  <-> (x <= 10808639105689189 # 72057594037927936)%Q.
Proof.
  rewrite nearest_015.
  destruct (Q_dec x 0) as [[Hneg | Hpos] | Hzero].
  - (* negative *)
    split; [intros _; lra | intros _].
    rewrite (nearest_negative x Hneg).
    destruct (Qle_bool _ _); [reflexivity |].
    unfold JS.lt. apply Qlt_bool_iff. rewrite Qred_correct.
    pose proof (nearestMagnitude_nonneg (- x) ltac:(lra)). lra.
  - (* positive *)
    rewrite (nearest_positive x Hpos). unfold JS.nearestMagnitude.
    set (e := Z.max (JS.exponent x) (-1022)).
    set (ulp := (2 ^ (e - 52))%Q).
    assert (Hulp : (0 < ulp)%Q) by apply pow2_pos.
    set (r := (inject_Z (JS.roundHalfEven (x / ulp)) * ulp)%Q).
    destruct (exponent_spec x Hpos) as [Sle Slt].
    destruct (Qlt_le_dec x (1 # 8)) as [Small | NotSmall].
    + (* below 1/8 *)
      assert (He : JS.exponent x < -3).
      { apply (Qpower_lt_compat_l_inv 2 (JS.exponent x) (-3)); [| reflexivity].
        change (2 ^ (-3))%Q with (1 # 8)%Q. lra. }
      assert (Hr : (r <= 1 # 8)%Q).
      { assert (A : (x <= inject_Z (2 ^ 53) * ulp)%Q).
        { subst ulp. rewrite pow2_inject, <- pow2_plus by lia.
          apply Qlt_le_weak. eapply Qlt_le_trans; [exact Slt |].
          apply pow2_le. lia. }
        pose proof (grid_le x ulp _ Hulp A) as G. fold r in G.
        assert (B : (inject_Z (2 ^ 53) * ulp <= 1 # 8)%Q).
        { subst ulp. rewrite pow2_inject, <- pow2_plus by lia.
          change (1 # 8)%Q with (2 ^ (-3))%Q. apply pow2_le. lia. }
        lra. }
      split; [intros _; lra | intros _].
      destruct (Qle_bool (2 ^ 1024) r) eqn:Over.
      * apply Qle_bool_iff in Over.
        pose proof (pow2_1024_large 1 ltac:(lia)) as C.
        change (inject_Z 1) with 1%Q in C. lra.
      * unfold JS.lt. apply Qlt_bool_iff. rewrite Qred_correct. lra.
    + destruct (Qlt_le_dec x (1 # 4)) as [Mid | Large].
      * (* the binade of 0.15 *)
        assert (He : JS.exponent x = -3).
        { apply exponent_unique.
          - change (2 ^ (-3))%Q with (1 # 8)%Q. exact NotSmall.
          - change (2 ^ (-3 + 1))%Q with (1 # 4)%Q. exact Mid. }
        assert (E : e = -3) by (subst e; rewrite He; reflexivity).
        assert (Eulp : ulp = (1 # 36028797018963968)%Q)
          by (subst ulp; rewrite E; reflexivity).
        set (m := JS.roundHalfEven (x / ulp)) in *.
        assert (F : (9007199254740992 # 36028797018963968 == 1 # 4)%Q)
          by reflexivity.
        assert (Hm : m <= 2 ^ 53).
        { apply roundHalfEven_le. apply Qle_shift_div_r; [exact Hulp |].
          rewrite Eulp.
          change (inject_Z (2 ^ 53) * (1 # 36028797018963968))%Q
            with (9007199254740992 # 36028797018963968)%Q.
          lra. }
        assert (Over : Qle_bool (2 ^ 1024) r = false).
        { destruct (Qle_bool (2 ^ 1024) r) eqn:Over; [| reflexivity].
          apply Qle_bool_iff in Over. exfalso.
          pose proof (pow2_1024_large 1 ltac:(lia)) as C.
          change (inject_Z 1) with 1%Q in C.
          assert (D : (r <= inject_Z (2 ^ 53) * ulp)%Q).
          { subst r. apply Qmult_le_compat_r; [| lra].
            rewrite <- Zle_Qle. exact Hm. }
          rewrite Eulp in D.
          change (inject_Z (2 ^ 53) * (1 # 36028797018963968))%Q
            with (9007199254740992 # 36028797018963968)%Q in D.
          lra. }
        rewrite Over. unfold JS.lt. rewrite Qlt_bool_iff, Qred_correct.
        assert (Even : Z.even 5404319552844594 = true) by reflexivity.
        pose proof (roundHalfEven_le_even (x / ulp) _ Even) as R. fold m in R.
        assert (Rm : (r < 5404319552844595 # 36028797018963968)%Q
                     <-> m <= 5404319552844594).
        { subst r. rewrite Eulp.
          assert (G : (inject_Z m * (1 # 36028797018963968)
                       == m # 36028797018963968)%Q).
          { unfold Qeq, Qmult, inject_Z. simpl. lia. }
          rewrite G. unfold Qlt. simpl. lia. }
        rewrite Rm, R. rewrite Eulp.
        assert (G : (x / (1 # 36028797018963968) == x * 36028797018963968)%Q)
          by field.
        rewrite G.
        change (inject_Z 5404319552844594) with (5404319552844594 # 1)%Q.
        split; intros H; lra.
      * (* from 1/4 on *)
        assert (He : -3 < JS.exponent x).
        { assert (A : (2 ^ (-3 + 1) < 2 ^ (JS.exponent x + 1))%Q).
          { change (2 ^ (-3 + 1))%Q with (1 # 4)%Q. lra. }
          apply (Qpower_lt_compat_l_inv 2 (-3 + 1) (JS.exponent x + 1)) in A;
            [lia | reflexivity]. }
        assert (E : e = JS.exponent x) by lia.
        assert (Hr : (1 # 4 <= r)%Q).
        { assert (A : (inject_Z (2 ^ 52) * ulp <= x)%Q).
          { subst ulp. rewrite pow2_inject, <- pow2_plus by lia.
            replace (52 + (e - 52)) with (JS.exponent x) by lia. exact Sle. }
          pose proof (grid_ge x ulp _ Hulp A) as G. fold r in G.
          assert (B : (1 # 4 <= inject_Z (2 ^ 52) * ulp)%Q).
          { subst ulp. rewrite pow2_inject, <- pow2_plus by lia.
            change (1 # 4)%Q with (2 ^ (-2))%Q. apply pow2_le. lia. }
          lra. }
        split; [| intros H; lra].
        destruct (Qle_bool (2 ^ 1024) r); [discriminate |].
        unfold JS.lt. rewrite Qlt_bool_iff, Qred_correct. intros H. lra.
  - (* zero *)
    rewrite (nearest_zero x Hzero).
    split; [intros _; lra | intros _; reflexivity].
Qed.

(** *** Integers *)

Lemma Qred_inject_Z (n : Z) : Qred (inject_Z n) = inject_Z n.
Proof.
  unfold Qred, inject_Z.
  pose proof (Z.ggcd_gcd n 1) as G.
  pose proof (Z.ggcd_correct_divisors n 1) as D.
  destruct (Z.ggcd n 1) as [g [a b]]. simpl in G, D.
  rewrite Z.gcd_1_r in G. subst g. destruct D as [Da Db].
  assert (Ea : a = n) by lia. assert (Eb : b = 1) by lia.
  rewrite Ea, Eb. reflexivity.
Qed.

(** An integer below 2^53 in magnitude is a double. *)
Lemma nearest_integer (n : Z) :
  Z.abs n < 2 ^ 53 -> JS.nearest (inject_Z n) = JS.of_Z n.
Proof.
  intros H.
  assert (Exact : forall k, 0 < k < 2 ^ 53 ->
            (JS.nearestMagnitude (inject_Z k) == inject_Z k)%Q).
  { intros k Hk.
    assert (P : (0 < inject_Z k)%Q) by (apply inject_Z_pos; lia).
    pose proof (nearestMagnitude_le (inject_Z k) k P ltac:(lia) ltac:(lra)).
    pose proof (nearestMagnitude_ge (inject_Z k) k ltac:(lia) ltac:(lra)).
    lra. }
  assert (Small : forall k r, k < 2 ^ 53 -> (r == inject_Z k)%Q ->
            Qle_bool (2 ^ 1024) r = false).
  { intros k r Hk Hr. apply not_true_is_false. intros Over.
    apply Qle_bool_iff in Over.
    pose proof (pow2_1024_large k ltac:(lia)). lra. }
  destruct (Z.lt_trichotomy n 0) as [Hneg | [-> | Hpos]].
  - assert (N : (inject_Z n < 0)%Q)
      by (change 0%Q with (inject_Z 0); rewrite <- Zlt_Qlt; exact Hneg).
    rewrite (nearest_negative _ N), <- inject_Z_opp.
    pose proof (Exact (- n) ltac:(lia)) as E.
    rewrite (Small (- n) _ ltac:(lia) E).
    unfold JS.of_Z. f_equal.
    transitivity (Qred (inject_Z n)); [| apply Qred_inject_Z].
    apply Qred_complete. rewrite E, inject_Z_opp. ring.
  - reflexivity.
  - pose proof (inject_Z_pos n Hpos) as P.
    rewrite (nearest_positive _ P).
    pose proof (Exact n ltac:(lia)) as E.
    rewrite (Small n _ ltac:(lia) E).
    unfold JS.of_Z. f_equal.
    transitivity (Qred (inject_Z n)); [| apply Qred_inject_Z].
    apply Qred_complete. exact E.
Qed.

(** From 2^53 on, the double nearest to an integer is at least 2^53 in
    magnitude, or an infinity. *)
Lemma nearest_large_integer (n : Z) :
  2 ^ 53 <= Z.abs n ->
  match JS.nearest (inject_Z n) with
  | JS.Fin q => (inject_Z (2 ^ 53) <= Qabs q)%Q
  | JS.NaN => False
  | _ => True
  end.
Proof.
  intros H.
  assert (Large : forall k, 2 ^ 53 <= k ->
            (inject_Z (2 ^ 53) <= JS.nearestMagnitude (inject_Z k))%Q).
  { intros k Hk. apply nearestMagnitude_ge; [lia |].
    rewrite <- Zle_Qle. exact Hk. }
  destruct (Z.lt_trichotomy n 0) as [Hneg | [-> | Hpos]].
  - assert (N : (inject_Z n < 0)%Q)
      by (change 0%Q with (inject_Z 0); rewrite <- Zlt_Qlt; exact Hneg).
    rewrite (nearest_negative _ N), <- inject_Z_opp.
    destruct (Qle_bool _ _); [exact I |].
    rewrite Qred_correct, Qabs_opp.
    pose proof (Large (- n) ltac:(lia)) as G.
    rewrite Qabs_pos; [exact G |].
    assert (P : (0 < inject_Z (2 ^ 53))%Q) by reflexivity. lra.
  - simpl in H. lia.
  - pose proof (inject_Z_pos n Hpos) as P.
    rewrite (nearest_positive _ P).
    destruct (Qle_bool _ _); [exact I |].
    rewrite Qred_correct.
    pose proof (Large n ltac:(lia)) as G.
    rewrite Qabs_pos; [exact G |].
    assert (P' : (0 < inject_Z (2 ^ 53))%Q) by reflexivity. lra.
Qed.

(** The double nearest to an integer is a time value exactly when the
    integer is within 8.64e15 of 0. *)
Lemma isTimeValue_nearest_integer (n : Z) :
  JS.isTimeValue (JS.nearest (inject_Z n)) = true
  <-> Z.abs n <= 8640000000000000.
Proof.
  destruct (Z.lt_ge_cases (Z.abs n) (2 ^ 53)) as [Small | Large].
  - rewrite (nearest_integer n Small). unfold JS.isTimeValue, JS.of_Z.
    rewrite Qle_bool_iff.
    change (Qabs (inject_Z n)) with (inject_Z (Z.abs n)).
    rewrite <- Zle_Qle. reflexivity.
  - pose proof (nearest_large_integer n Large) as H.
    split; [| lia].
    destruct (JS.nearest (inject_Z n)) as [| | | q]; try discriminate.
    unfold JS.isTimeValue. rewrite Qle_bool_iff. intros Hq. exfalso.
    assert (A : (inject_Z 8640000000000000 < inject_Z (2 ^ 53))%Q) by reflexivity.
    lra.
Qed.

(** *** Agreement with the Standard Library's IEEE 754 *)

(** On the sample pairs, rounding the exact quotient and the exact
    product with [nearest] gives what the Standard Library's [SFdiv] and
    [SFmul] give at 53 bits of precision and a maximal exponent of
    1024. *)
Example nearest_agrees_with_binary64 :
  map (fun '(a, b) => JS.nearest (inject_Z a / inject_Z b)) Samples.numberPairs
  = map (fun '(a, b) =>
           JS.of_spec_float
             (SFdiv 53 1024 (JS.binary64_of_Z a) (JS.binary64_of_Z b)))
        Samples.numberPairs
  /\
  map (fun '(a, b) => JS.nearest (inject_Z a * inject_Z b)) Samples.numberPairs
  = map (fun '(a, b) =>
           JS.of_spec_float
             (SFmul 53 1024 (JS.binary64_of_Z a) (JS.binary64_of_Z b)))
        Samples.numberPairs.
Proof. split; vm_compute; reflexivity. Qed.

(** ** The log line *)

(** Below 2^53 in magnitude, [parseInt] returns the integer it reads;
    beyond, the double nearest to it. *)
Lemma parseInt_exact (input : string) (v : Z) :
  JS.parseInteger input = Some v ->
  Z.abs v < 2 ^ 53 ->
  JS.parseInt input = JS.of_Z v.
Proof.
  intros H Hv. rewrite parseInt_parseInteger, H. apply nearest_integer, Hv.
Qed.

Example parseInt_rounds :
  JS.parseInt "9007199254740993" = JS.of_Z 9007199254740992.
Proof. vm_compute. reflexivity. Qed.

Lemma lt_0_of_Z (L : Z) : JS.lt (JS.of_Z 0) (JS.of_Z L) = (0 <? L).
Proof.
  unfold JS.lt, JS.of_Z. destruct (Z.ltb_spec 0 L) as [H | H].
  - apply Qlt_bool_iff. rewrite <- Zlt_Qlt. exact H.
  - apply not_true_is_false. rewrite Qlt_bool_iff, <- Zlt_Qlt. lia.
Qed.

(** X29.  When the log line throws.  [logRateLimitStatus] formats the
    reset time only for a limit above 0, so it never throws for a limit
    that is 0, negative or not a number.  For a limit above 0 it throws
    the [RangeError] when the reset time is not a number, which is what a
    header that does not start with a number parses to, and when it is
    more than 8 640 000 000 000 seconds from the epoch, the range of a
    [Date]; within that range it does not throw. *)
Theorem logRateLimitStatus_throws_iff (response : Response) :
  let rateLimit := parseRateLimitHeaders response in
  (limit rateLimit = JS.NaN -> logRateLimitStatus rateLimit = Ok tt) /\
  (forall L,
      limit rateLimit = JS.of_Z L -> L <= 0 ->
      logRateLimitStatus rateLimit = Ok tt) /\
  (forall L,
      limit rateLimit = JS.of_Z L -> 0 < L ->
      (forall text,
          headers response !! "x-rate-limit-reset" = Some text ->
          text <> "" ->
          JS.parseInteger text = None ->
          logRateLimitStatus rateLimit = Throw "Invalid time value") /\
      (forall T,
          reset rateLimit = JS.of_Z T ->
          (Z.abs T <= 8640000000000 -> logRateLimitStatus rateLimit = Ok tt) /\
          (8640000000000 < Z.abs T ->
           logRateLimitStatus rateLimit = Throw "Invalid time value"))).
Proof.
  intros rateLimit. split; [| split].
  - intros H. unfold logRateLimitStatus. rewrite H. reflexivity.
  - intros L H HL. unfold logRateLimitStatus. rewrite H, lt_0_of_Z.
    destruct (Z.ltb_spec 0 L); [lia | reflexivity].
  - intros L H HL.
    assert (Hlt : JS.lt (JS.of_Z 0) (limit rateLimit) = true).
    { rewrite H, lt_0_of_Z. apply Z.ltb_lt, HL. }
    split.
    + intros text Hheader Hne Hparse.
      assert (R : reset rateLimit = JS.NaN).
      { subst rateLimit. unfold parseRateLimitHeaders. cbn [reset].
        rewrite Hheader. unfold JS.or_default.
        destruct (String.eqb_spec text ""); [congruence |].
        rewrite parseInt_parseInteger, Hparse. reflexivity. }
      unfold logRateLimitStatus. rewrite Hlt, R. reflexivity.
    + intros T R.
      assert (V : JS.isTimeValue (JS.mul (reset rateLimit) (JS.of_Z 1000)) = true
                  <-> Z.abs T <= 8640000000000).
      { rewrite R. unfold JS.mul, JS.of_Z. rewrite <- inject_Z_mult.
        rewrite isTimeValue_nearest_integer. lia. }
      unfold logRateLimitStatus. rewrite Hlt.
      destruct (JS.isTimeValue _).
      * split; [reflexivity |]. intros Hfar.
        assert (Z.abs T <= 8640000000000) by (apply V; reflexivity). lia.
      * split; [| reflexivity]. intros Hnear.
        apply V in Hnear. discriminate Hnear.
Qed.

Lemma logRateLimitStatus_throws_iff_witness :
  logRateLimitStatus (parseRateLimitHeaders Samples.unreadable)
    = Throw "Invalid time value" /\
  logRateLimitStatus (parseRateLimitHeaders Samples.unavailable) = Ok tt.
Proof.
  split.
  - apply (proj1 (proj2 (proj2 (logRateLimitStatus_throws_iff Samples.unreadable))
                    300 eq_refl ltac:(lia)) "soon");
      [reflexivity | discriminate | reflexivity].
  - apply (proj2 (proj2 (proj2 (logRateLimitStatus_throws_iff Samples.unavailable))
                    300 eq_refl ltac:(lia)) 1700000000 eq_refl).
    simpl. lia.
Defined.

(** ** The proactive slowdown, when the limit is known *)

(** With a positive limit [L] and a remaining count [R], both as parsed,
    [shouldBackoff] compares the double nearest to [R / L] with the
    double nearest to 0.15, which is 5404319552844595 / 2^55. *)
Lemma shouldBackoff_integers (L R : Z) reset :
  0 < L ->
  shouldBackoff {| limit := JS.of_Z L; remaining := JS.of_Z R; reset := reset |}
  = (2 ^ 56 * R <=? 10808639105689189 * L).
Proof.
  intros HL. unfold shouldBackoff. cbn [limit remaining].
  assert (QL : (0 < inject_Z L)%Q) by (apply inject_Z_pos, HL).
  assert (Hz : Qeq_bool (inject_Z L) 0 = false).
  { apply not_true_is_false. intros H. apply Qeq_bool_iff in H. lra. }
  unfold JS.strict_eq, JS.div, JS.of_Z. change (inject_Z 0) with 0%Q.
  rewrite Hz. cbn [JS.round].
  pose proof (nearest_lt_015 (inject_Z R / inject_Z L)) as T.
  assert (C : (inject_Z R / inject_Z L <= 10808639105689189 # 72057594037927936)%Q
              <-> 2 ^ 56 * R <= 10808639105689189 * L).
  { change (10808639105689189 # 72057594037927936)%Q
      with (inject_Z 10808639105689189 / inject_Z (2 ^ 56))%Q.
    assert (P : (0 < inject_Z (2 ^ 56))%Q) by reflexivity.
    split.
    - intros H.
      assert (A : (inject_Z R * inject_Z (2 ^ 56)
                   <= inject_Z 10808639105689189 * inject_Z L)%Q).
      { apply (Qmult_le_compat_r _ _ (inject_Z L * inject_Z (2 ^ 56))) in H;
          [| apply Qlt_le_weak, Qmult_lt_0_compat; assumption].
        setoid_replace (inject_Z R / inject_Z L * (inject_Z L * inject_Z (2 ^ 56)))%Q
          with (inject_Z R * inject_Z (2 ^ 56))%Q
          using relation Qeq in H by (field; lra).
        setoid_replace (inject_Z 10808639105689189 / inject_Z (2 ^ 56)
                          * (inject_Z L * inject_Z (2 ^ 56)))%Q
          with (inject_Z 10808639105689189 * inject_Z L)%Q
          using relation Qeq in H by (field; discriminate).
        exact H. }
      rewrite <- !inject_Z_mult, <- Zle_Qle in A. lia.
    - intros H.
      apply Qle_shift_div_r; [exact QL |].
      setoid_replace (inject_Z 10808639105689189 / inject_Z (2 ^ 56) * inject_Z L)%Q
        with (inject_Z 10808639105689189 * inject_Z L / inject_Z (2 ^ 56))%Q
        using relation Qeq by (field; discriminate).
      apply Qle_shift_div_l; [exact P |].
      rewrite <- !inject_Z_mult, <- Zle_Qle. lia. }
  destruct (Z.leb_spec (2 ^ 56 * R) (10808639105689189 * L)) as [H | H].
  - apply T, C, H.
  - apply not_true_is_false. intros E. apply T, C in E. lia.
Qed.

(** X5.  When a response that can be logged carries a positive limit
    [L] and a remaining count [R], the wrapper inserts its extra delay of
    [2 * requestDelayMs] when the double nearest to [R / L] is below the
    double [0.15], that is exactly when [2^56 * R <= 10808639105689189 *
    L], whether the response is a success or an error.  So it never
    inserts the delay when 15% or more of the quota is left
    ([3 * L <= 20 * R]), and it inserts it whenever less than 15% is left
    ([20 * R < 3 * L]) as long as [28 * L <= 2^56]; for larger limits the
    quotient of a count just below 15% can round up to the double
    [0.15]. *)
Theorem slowdown_below_15_percent (config : RateLimiterConfig)
    (response : Response) (L R : Z) :
  0 < L ->
  limit (parseRateLimitHeaders response) = JS.of_Z L ->
  remaining (parseRateLimitHeaders response) = JS.of_Z R ->
  logRateLimitStatus (parseRateLimitHeaders response) = Ok tt ->
  let slowdown := snd (attemptOnce config (Fulfils response)) in
  slowdown
  = (if 2 ^ 56 * R <=? 10808639105689189 * L
     then [EvDelay (requestDelayMs config * 2)] else []) /\
  (3 * L <= 20 * R -> slowdown = []) /\
  (20 * R < 3 * L -> 28 * L <= 2 ^ 56 ->
   slowdown = [EvDelay (requestDelayMs config * 2)]).
Proof.
  intros HL Hlimit Hremaining Hlog slowdown.
  assert (E : shouldBackoff (parseRateLimitHeaders response)
              = (2 ^ 56 * R <=? 10808639105689189 * L)).
  { rewrite <- (shouldBackoff_integers L R
                  (reset (parseRateLimitHeaders response)) HL).
    rewrite <- Hlimit, <- Hremaining.
    destruct (parseRateLimitHeaders response); reflexivity. }
  assert (S : slowdown
              = if 2 ^ 56 * R <=? 10808639105689189 * L
                then [EvDelay (requestDelayMs config * 2)] else []).
  { subst slowdown. unfold attemptOnce. rewrite Hlog, E.
    destruct (status response =? 429); [reflexivity |].
    destruct (negb (ok response)); reflexivity. }
  split; [exact S |]. rewrite S.
  split.
  - intros H. destruct (Z.leb_spec (2 ^ 56 * R) (10808639105689189 * L)); [lia |].
    reflexivity.
  - intros H Hsmall.
    destruct (Z.leb_spec (2 ^ 56 * R) (10808639105689189 * L)); [reflexivity |].
    lia.
Qed.

Lemma slowdown_below_15_percent_witness :
  snd (attemptOnce DEFAULT_RATE_LIMIT_CONFIG (Fulfils Samples.nearlySpent))
  = [EvDelay 9000].
Proof.
  apply (proj2 (proj2 (slowdown_below_15_percent DEFAULT_RATE_LIMIT_CONFIG
                         Samples.nearlySpent 300 44
                         ltac:(lia) eq_refl eq_refl eq_refl))); lia.
Defined.

(** A limit and a remaining count so large that the quotient of a count
    below 15% rounds to the double [0.15]: no delay is inserted. *)
Example slowdown_lost_in_rounding :
  let rateLimit :=
    {| limit := JS.of_Z 4000000000000007;
       remaining := JS.of_Z 600000000000001;
       reset := JS.of_Z 0 |} in
  20 * 600000000000001 < 3 * 4000000000000007 /\
  shouldBackoff rateLimit = false.
Proof. split; [lia | vm_compute; reflexivity]. Qed.

(** ** The quota of one window *)

Lemma dispatched_snoc_slept journal ms :
  dispatched (journal ++ [Slept ms]) = dispatched journal.
Proof. rewrite dispatched_app. simpl. apply app_nil_r. Qed.

Lemma dispatched_snoc_cleared journal ps :
  dispatched (journal ++ [Cleared ps]) = dispatched journal.
Proof. rewrite dispatched_app. simpl. apply app_nil_r. Qed.

Lemma dispatched_snoc_dispatched journal p :
  dispatched (journal ++ [Dispatched p]) = dispatched journal ++ [p].
Proof. rewrite dispatched_app. reflexivity. Qed.

Lemma processQueue_loop_countsDispatches config now0 now sys :
  now - now0 < windowDurationMs config ->
  countsDispatches config now0 sys ->
  countsDispatches config now0 (processQueue_loop config now sys).
Proof.
  unfold countsDispatches. intros Hnow (Hstart & Hcount & Hmax).
  assert (Hl : rollover config now (this sys) = this sys)
    by (apply rollover_keeps; lia).
  destruct (processQueue_loop_cases config now sys)
    as (_ & [(HQ & _ & Hc & _ & HJ)
            | [(request & rest & _ & Hlt & Hc & Hw & _ & _ & HJ)
              | (_ & _ & Hthis & _ & HJ)]]);
    rewrite ?Hl in *.
  - rewrite HJ, Hc. unfold processQueue_loop. rewrite HQ. simpl. auto.
  - rewrite HJ, Hc, Hw, dispatched_snoc_dispatched, length_app. simpl.
    repeat split; lia.
  - rewrite HJ, Hthis, dispatched_snoc_slept. auto.
Qed.

Lemma step_countsDispatches config now0 sys s :
  Forall (fun now => now - now0 < windowDurationMs config) (readings [s]) ->
  countsDispatches config now0 sys ->
  countsDispatches config now0 (step config sys s).
Proof.
  intros Hnow H. destruct s as [fn now | k | now |]; simpl in *.
  - apply Forall_cons_1 in Hnow as [Hnow _].
    unfold makeRequest, processQueue. simpl.
    destruct (isProcessing (this sys) || _); [exact H |].
    apply processQueue_loop_countsDispatches; [exact Hnow | exact H].
  - unfold requestSettles.
    destruct (inFlight sys !! k); [| exact H].
    unfold countsDispatches in *.
    destruct (requestQueue (this sys)); simpl;
      rewrite ?dispatched_snoc_slept; exact H.
  - apply Forall_cons_1 in Hnow as [Hnow _].
    apply processQueue_loop_countsDispatches; assumption.
  - unfold countsDispatches in *. simpl. rewrite dispatched_snoc_cleared.
    exact H.
Qed.

Lemma readings_cons s steps : readings (s :: steps) = readings [s] ++ readings steps.
Proof. destruct s; reflexivity. Qed.

(** X6.  The quota of a window is kept.  As long as every reading of the
    clock falls inside the window that began when the limiter was
    constructed, the window is not replaced, [requestCount] is exactly
    the number of requests started, and that number does not exceed
    [maxRequestsPerWindow] (it is 0 when the limit is not positive),
    however many requests are made. *)
Theorem quota_within_window (config : RateLimiterConfig) (now0 : Z)
    (steps : list Step) :
  Forall (fun now => now - now0 < windowDurationMs config) (readings steps) ->
  let sys := run config steps (create now0) in
  windowStart (this sys) = now0 /\
  requestCount (this sys) = Z.of_nat (length (dispatched (journal sys))) /\
  Z.of_nat (length (dispatched (journal sys)))
    <= Z.max 0 (maxRequestsPerWindow config).
Proof.
  intros Hnow sys.
  assert (H : countsDispatches config now0 sys).
  { subst sys.
    assert (H0 : countsDispatches config now0 (create now0))
      by (unfold countsDispatches; simpl; repeat split; lia).
    revert H0 Hnow. generalize (create now0).
    induction steps as [| s steps IH]; intros sys0 H0 Hnow; simpl.
    - exact H0.
    - rewrite readings_cons in Hnow. apply Forall_app in Hnow as [Hs Hrest].
      apply IH; [| exact Hrest].
      apply step_countsDispatches; assumption. }
  destruct H as (Hstart & Hcount & Hmax).
  split; [exact Hstart |]. split; [exact Hcount |].
  rewrite <- Hcount. exact Hmax.
Qed.

Lemma quota_within_window_witness :
  let sys :=
    run Samples.tight
      [MakeRequest Samples.succeeds 0; MakeRequest Samples.succeeds 1;
       MakeRequest Samples.succeeds 2; Settles 0; Wakes 110; Settles 0;
       Wakes 220; Wakes 999]
      (create 0) in
  windowStart (this sys) = 0 /\
  requestCount (this sys) = Z.of_nat (length (dispatched (journal sys))) /\
  Z.of_nat (length (dispatched (journal sys))) <= 2.
Proof.
  apply (quota_within_window Samples.tight 0).
  simpl. repeat constructor; lia.
Defined.

(** ** A limit that is not positive *)

(** X7.  A limiter whose [maxRequestsPerWindow] is 0 or negative, which
    [createRateLimiter] makes for a negative [MAX_REQUESTS_PER_WINDOW],
    never starts a request: whatever is asked of it, nothing is
    dispatched, nothing is in flight and every promise it has handed out
    is still pending. *)
Theorem nonpositive_limit_starves (config : RateLimiterConfig) (now0 : Z)
    (steps : list Step) :
  maxRequestsPerWindow config <= 0 ->
  let sys := run config steps (create now0) in
  dispatched (journal sys) = [] /\
  inFlight sys = [] /\
  Forall (fun state => state = Pending) (promises sys).
Proof.
  intros Hmax sys.
  set (idle := fun s : System =>
         requestCount (this s) = 0 /\ dispatched (journal s) = [] /\
         inFlight s = [] /\ Forall (fun state => state = Pending) (promises s)).
  assert (Hloop : forall now s, idle s -> idle (processQueue_loop config now s)).
  { intros now s (Hc & HD & HF & HP). unfold idle.
    pose proof (rollover_count config now (this s)) as Hr.
    destruct (processQueue_loop_cases config now s)
      as (HP' & [(HQ & _ & Hc' & HF' & HJ)
                | [(request & rest & _ & Hlt & _)
                  | (_ & _ & Hthis & HF' & HJ)]]).
    - rewrite HP', Hc', HF', HJ. auto.
    - lia.
    - rewrite HP', Hthis, HF', HJ, dispatched_snoc_slept.
      repeat split; auto. lia. }
  assert (Hstep : forall s st, idle s -> idle (step config s st)).
  { intros s [fn now | k | now |] Hs; simpl.
    - unfold makeRequest, processQueue. simpl.
      destruct Hs as (Hc & HD & HF & HP).
      assert (Hidle : forall flag,
        idle {| this := {| requestQueue :=
                             requestQueue (this s)
                               ++ [{| promise := length (promises s);
                                      requestFn := fn |}];
                           requestCount := requestCount (this s);
                           windowStart := windowStart (this s);
                           isProcessing := flag |};
                promises := promises s ++ [Pending];
                inFlight := inFlight s; journal := journal s |}).
      { intros flag. unfold idle. simpl. repeat split; auto.
        apply Forall_app. split; [exact HP | repeat constructor]. }
      destruct (isProcessing (this s) || _); [apply Hidle |].
      apply Hloop, Hidle.
    - unfold requestSettles. destruct Hs as (Hc & HD & HF & HP).
      rewrite HF. simpl. unfold idle. auto.
    - apply Hloop, Hs.
    - destruct Hs as (Hc & HD & HF & HP). unfold idle. simpl.
      rewrite dispatched_snoc_cleared. auto. }
  assert (H : idle sys).
  { subst sys. assert (H0 : idle (create now0)) by (unfold idle; simpl; auto).
    revert H0. generalize (create now0).
    induction steps as [| s steps IH]; intros sys0 H0; simpl; auto. }
  destruct H as (_ & HD & HF & HP). auto.
Qed.

Lemma nonpositive_limit_starves_witness :
  let sys :=
    run (createRateLimiter Samples.negativeLimit) Samples.burst (create 0) in
  dispatched (journal sys) = [] /\
  inFlight sys = [] /\
  Forall (fun state => state = Pending) (promises sys).
Proof.
  apply (nonpositive_limit_starves (createRateLimiter Samples.negativeLimit) 0
           Samples.burst).
  vm_compute. discriminate.
Defined.

(** ** Waiting for the window to end *)

(** X8.  When a pass of the loop finds a request waiting and the window
    full, it sleeps until the window in force ends: provided the window
    has a positive length and the clock is not behind the window's start,
    the sleep is positive, at most [windowDurationMs], and over exactly
    [windowDurationMs] after the window started. *)
Theorem window_wait_ends_with_window (config : RateLimiterConfig) (now : Z)
    (sys : System) :
  0 < windowDurationMs config ->
  windowStart (this sys) <= now ->
  requestQueue (this sys) <> [] ->
  maxRequestsPerWindow config <= requestCount (rollover config now (this sys)) ->
  let sys' := processQueue_loop config now sys in
  exists ms,
    journal sys' = journal sys ++ [Slept ms] /\
    0 < ms <= windowDurationMs config /\
    now + ms = windowStart (this sys') + windowDurationMs config /\
    requestQueue (this sys') = requestQueue (this sys) /\
    inFlight sys' = inFlight sys.
Proof.
  intros Hdur Hclock Hne Hfull sys'.
  destruct (processQueue_loop_cases config now sys)
    as (_ & [(HQ & _) | [(request & rest & _ & Hlt & _)
                        | (_ & _ & Hthis & HF & HJ)]]);
    [congruence | lia |].
  eexists. split; [exact HJ |].
  subst sys'. rewrite Hthis, rollover_queue.
  split; [| split; [lia | split; [reflexivity | exact HF]]].
  unfold rollover.
  destruct (Z.geb_spec (now - windowStart (this sys)) (windowDurationMs config));
    simpl; lia.
Qed.

Lemma window_wait_ends_with_window_witness :
  let sys :=
    run Samples.tight
      [MakeRequest Samples.succeeds 0; MakeRequest Samples.succeeds 1;
       MakeRequest Samples.succeeds 2; Settles 0; Wakes 110; Settles 0]
      (create 0) in
  exists ms,
    journal (processQueue_loop Samples.tight 220 sys)
      = journal sys ++ [Slept ms] /\
    0 < ms <= 1000 /\
    220 + ms = windowStart (this (processQueue_loop Samples.tight 220 sys)) + 1000 /\
    requestQueue (this (processQueue_loop Samples.tight 220 sys))
      = requestQueue (this sys) /\
    inFlight (processQueue_loop Samples.tight 220 sys) = inFlight sys.
Proof.
  intros sys.
  apply (window_wait_ends_with_window Samples.tight 220 sys).
  - simpl. lia.
  - vm_compute. discriminate.
  - vm_compute. discriminate.
  - vm_compute. discriminate.
Defined.

(** ** Requests in flight *)

Lemma lookup_delete_elsewhere {A} (l : list A) (k : nat) (y : A) :
  y ∈ delete k l -> exists j, j <> k /\ l !! j = Some y.
Proof.
  intros Hy. apply list_elem_of_lookup in Hy as [j Hj].
  destruct (decide (j < k)%nat) as [Hlt | Hge].
  - exists j. split; [lia |]. rewrite list_lookup_delete_lt in Hj by exact Hlt.
    exact Hj.
  - exists (S j). split; [lia |]. rewrite list_lookup_delete_ge in Hj by lia.
    exact Hj.
Qed.

Lemma promise_apart (F : list QueuedRequest) k request other :
  NoDup (map promise F) ->
  F !! k = Some request ->
  other ∈ delete k F ->
  promise other <> promise request.
Proof.
  intros Hnd Hk Hother Heq.
  destruct (lookup_delete_elsewhere F k other Hother) as (j & Hjk & Hj).
  apply Hjk.
  eapply (NoDup_lookup (map promise F) j k (promise request)); [exact Hnd | |].
  - change (map promise F) with (promise <$> F).
    rewrite list_lookup_fmap, Hj. simpl. f_equal. exact Heq.
  - change (map promise F) with (promise <$> F).
    rewrite list_lookup_fmap, Hk. reflexivity.
Qed.

Lemma flightsPending_create now : flightsPending (create now).
Proof.
  unfold flightsPending, create. simpl. split; [constructor |].
  intros request H. inversion H.
Qed.

Lemma processQueue_loop_flightsPending config now sys :
  consistent sys -> flightsPending sys ->
  flightsPending (processQueue_loop config now sys).
Proof.
  unfold flightsPending. intros C [Hnd Hpend].
  destruct (processQueue_loop_cases config now sys)
    as (HP & [(_ & _ & _ & HF & _)
             | [(request & rest & HQ & _ & _ & _ & _ & HF & _)
               | (_ & _ & _ & HF & _)]]);
    rewrite HP, HF; [auto | | auto].
  unfold consistent, queued in C. rewrite HQ in C. simpl in C.
  split.
  - rewrite map_app. simpl. apply NoDup_app.
    split; [exact Hnd |]. split; [| repeat constructor; set_solver].
    intros p Hp Hin. apply list_elem_of_singleton in Hin. subst p.
    apply list_elem_of_fmap in Hp as (r & Hr & HrF).
    apply (started_not_waiting _ _ _ _ _ C (promise request)).
    + rewrite Hr. apply (started _ _ _ _ _ C). exact HrF.
    + set_solver.
  - intros r Hr. apply elem_of_app in Hr as [Hr | Hr]; [auto |].
    apply list_elem_of_singleton in Hr. subst r.
    apply (unsettled _ _ _ _ _ C). set_solver.
Qed.

Lemma enqueue_flightsPending sys request flag :
  flightsPending sys ->
  flightsPending
    {| this := {| requestQueue := requestQueue (this sys) ++ [request];
                  requestCount := requestCount (this sys);
                  windowStart := windowStart (this sys);
                  isProcessing := flag |};
       promises := promises sys ++ [Pending];
       inFlight := inFlight sys; journal := journal sys |}.
Proof.
  unfold flightsPending. simpl. intros [Hnd Hpend].
  split; [exact Hnd |].
  intros r Hr. apply lookup_app_l_Some. auto.
Qed.

Lemma enqueue_consistent sys fn flag :
  consistent sys ->
  consistent
    {| this := {| requestQueue :=
                    requestQueue (this sys)
                      ++ [{| promise := length (promises sys); requestFn := fn |}];
                  requestCount := requestCount (this sys);
                  windowStart := windowStart (this sys);
                  isProcessing := flag |};
       promises := promises sys ++ [Pending];
       inFlight := inFlight sys; journal := journal sys |}.
Proof.
  intros H. unfold consistent, queued in *. simpl. rewrite map_app. simpl.
  apply bookkeeping_enqueue, H.
Qed.

Lemma step_flightsPending config sys s :
  consistent sys -> flightsPending sys -> flightsPending (step config sys s).
Proof.
  intros C H. destruct s as [fn now | k | now |]; simpl.
  - unfold makeRequest, processQueue. simpl.
    destruct (isProcessing (this sys) || _).
    + apply enqueue_flightsPending, H.
    + apply processQueue_loop_flightsPending.
      * apply enqueue_consistent, C.
      * apply enqueue_flightsPending, H.
  - unfold requestSettles.
    destruct (inFlight sys !! k) as [request |] eqn:Hk; [| exact H].
    destruct H as [Hnd Hpend].
    assert (G : NoDup (map promise (delete k (inFlight sys))) /\
                forall r, r ∈ delete k (inFlight sys) ->
                  <[promise request := settlement config request]> (promises sys)
                    !! promise r = Some Pending).
    { split.
      - change (map promise (delete k (inFlight sys)))
          with (promise <$> delete k (inFlight sys)).
        rewrite list_fmap_delete.
        eapply sublist_NoDup; [exact Hnd | apply sublist_delete].
      - intros r Hr. rewrite list_lookup_insert_ne.
        + apply Hpend. eapply list_elem_of_delete_inv. exact Hr.
        + intros Heq. exact (promise_apart _ _ _ _ Hnd Hk Hr (eq_sym Heq)). }
    unfold flightsPending. destruct (requestQueue (this sys)); simpl; exact G.
  - apply processQueue_loop_flightsPending; assumption.
  - exact H.
Qed.

Lemma run_sound config steps sys :
  consistent sys -> flightsPending sys ->
  consistent (run config steps sys) /\ flightsPending (run config steps sys).
Proof.
  revert sys. induction steps as [| s steps IH]; intros sys C H; simpl.
  - split; assumption.
  - apply IH; [apply step_consistent, C | apply step_flightsPending; assumption].
Qed.

Lemma step_keeps_settled config sys s p state :
  flightsPending sys ->
  promises sys !! p = Some state -> state <> Pending ->
  promises (step config sys s) !! p = Some state.
Proof.
  intros [_ Hpend] Hp Hstate. destruct s as [fn now | k | now |]; simpl.
  - unfold makeRequest, processQueue. simpl.
    destruct (isProcessing (this sys) || _); simpl.
    + apply lookup_app_l_Some, Hp.
    + match goal with
      | |- promises (processQueue_loop config now ?s0) !! _ = _ =>
          destruct (processQueue_loop_cases config now s0) as [HP _]
      end.
      rewrite HP. simpl. apply lookup_app_l_Some, Hp.
  - unfold requestSettles.
    destruct (inFlight sys !! k) as [request |] eqn:Hk; [| exact Hp].
    assert (Hne : promise request <> p).
    { intros <-. rewrite (Hpend request) in Hp.
      - congruence.
      - eapply list_elem_of_lookup_2. exact Hk. }
    destruct (requestQueue (this sys)); simpl;
      rewrite list_lookup_insert_ne by exact Hne; exact Hp.
  - destruct (processQueue_loop_cases config now sys) as [HP _].
    rewrite HP. exact Hp.
  - exact Hp.
Qed.

(** X9.  A promise is settled at most once: once the promise of a
    request has been resolved or rejected, nothing the limiter does
    afterwards changes its state. *)
Theorem settled_promise_is_final (config : RateLimiterConfig) (now0 : Z)
    (before after : list Step) (p : nat) (state : PromiseState) :
  promises (run config before (create now0)) !! p = Some state ->
  state <> Pending ->
  promises (run config after (run config before (create now0))) !! p
  = Some state.
Proof.
  intros Hp Hstate.
  destruct (run_sound config before (create now0)
              (consistent_create now0) (flightsPending_create now0)) as [C F].
  revert C F Hp. generalize (run config before (create now0)).
  induction after as [| s after IH]; intros sys C F Hp; simpl.
  - exact Hp.
  - apply IH.
    + apply step_consistent, C.
    + apply step_flightsPending; assumption.
    + apply step_keeps_settled; assumption.
Qed.

Lemma settled_promise_is_final_witness :
  promises
    (run Samples.tight
       [MakeRequest Samples.alwaysUnavailable 5; Settles 0; Wakes 200; ClearQueue]
       (run Samples.tight
          [MakeRequest Samples.succeeds 0; Settles 0] (create 0)))
    !! 0%nat
  = Some (Resolved "{}").
Proof.
  apply (settled_promise_is_final Samples.tight 0
           [MakeRequest Samples.succeeds 0; Settles 0]
           [MakeRequest Samples.alwaysUnavailable 5; Settles 0; Wakes 200;
            ClearQueue]
           0%nat (Resolved "{}")).
  - vm_compute. reflexivity.
  - discriminate.
Defined.

(** X10.  [clearQueue()] does not touch a request that has been started:
    it stays in flight, its promise is pending, and when it settles after
    the call its promise is resolved or rejected with the outcome of the
    request, as if the queue had not been cleared. *)
Theorem clearQueue_spares_request_in_flight (config : RateLimiterConfig)
    (now0 : Z) (steps : list Step) (k : nat) (request : QueuedRequest) :
  let sys := run config steps (create now0) in
  inFlight sys !! k = Some request ->
  inFlight (clearQueue sys) = inFlight sys /\
  promises (clearQueue sys) !! promise request = Some Pending /\
  promises (requestSettles config k (clearQueue sys)) !! promise request
  = Some (settlement config request).
Proof.
  intros sys Hk.
  destruct (run_sound config steps (create now0)
              (consistent_create now0) (flightsPending_create now0)) as [C [_ F]].
  fold sys in C, F.
  assert (Hin : request ∈ inFlight sys)
    by (eapply list_elem_of_lookup_2; exact Hk).
  split; [reflexivity |]. split; [apply F, Hin |].
  unfold requestSettles, clearQueue. simpl. rewrite Hk. simpl.
  apply list_lookup_insert_eq.
  apply lookup_lt_is_Some. rewrite (F request Hin). eauto.
Qed.

Lemma clearQueue_spares_request_in_flight_witness :
  let sys := run DEFAULT_RATE_LIMIT_CONFIG Samples.oneWaiting (create 0) in
  inFlight (clearQueue sys) = inFlight sys /\
  promises (clearQueue sys) !! 0%nat = Some Pending /\
  promises (requestSettles DEFAULT_RATE_LIMIT_CONFIG 0 (clearQueue sys)) !! 0%nat
  = Some (settlement DEFAULT_RATE_LIMIT_CONFIG
            {| promise := 0; requestFn := Samples.succeeds |}).
Proof.
  apply (clearQueue_spares_request_in_flight DEFAULT_RATE_LIMIT_CONFIG 0
           Samples.oneWaiting 0 {| promise := 0; requestFn := Samples.succeeds |}).
  reflexivity.
Defined.

(** ** When [makeRequest] starts the request itself *)

(** An idle limiter with an empty queue and room in the window starts
    the request it is given. *)
Lemma makeRequest_idle_start config fn now sys :
  isProcessing (this sys) = false ->
  requestQueue (this sys) = [] ->
  requestCount (rollover config now (this sys)) < maxRequestsPerWindow config ->
  let request := {| promise := length (promises sys); requestFn := fn |} in
  let sys' := makeRequest config fn now sys in
  requestQueue (this sys') = [] /\
  inFlight sys' = inFlight sys ++ [request] /\
  journal sys' = journal sys ++ [Dispatched (length (promises sys))] /\
  isProcessing (this sys') = true /\
  requestCount (this sys') = requestCount (rollover config now (this sys)) + 1.
Proof.
  intros Hidle Hempty H request sys'. subst sys' request.
  unfold makeRequest, processQueue. simpl. rewrite Hidle, Hempty. simpl.
  unfold processQueue_loop, rollover. simpl.
  unfold rollover in H.
  destruct (now - windowStart (this sys) >=? windowDurationMs config);
    simpl in *;
    match goal with
    | |- context [?a <? ?b] => destruct (Z.ltb_spec a b); [| lia]
    end;
    simpl; repeat split; reflexivity.
Qed.

(** X11.  [makeRequest] always hands out one new pending promise.  While
    a worker is running ([isProcessing]) it only appends the request to
    the queue: nothing is started, counted or recorded.  On an idle
    limiter with an empty queue it starts the request at once if the
    window in force has room, and otherwise leaves it at the head of the
    queue with the worker asleep until the window ends. *)
Theorem makeRequest_starts_only_when_idle (config : RateLimiterConfig)
    (fn : RequestFn) (now : Z) (sys : System) :
  let request := {| promise := length (promises sys); requestFn := fn |} in
  let sys' := makeRequest config fn now sys in
  promises sys' = promises sys ++ [Pending] /\
  (isProcessing (this sys) = true ->
   requestQueue (this sys') = requestQueue (this sys) ++ [request] /\
   inFlight sys' = inFlight sys /\
   journal sys' = journal sys /\
   requestCount (this sys') = requestCount (this sys) /\
   windowStart (this sys') = windowStart (this sys)) /\
  (isProcessing (this sys) = false ->
   requestQueue (this sys) = [] ->
   (requestCount (rollover config now (this sys)) < maxRequestsPerWindow config ->
    requestQueue (this sys') = [] /\
    inFlight sys' = inFlight sys ++ [request] /\
    journal sys' = journal sys ++ [Dispatched (length (promises sys))] /\
    isProcessing (this sys') = true) /\
   (maxRequestsPerWindow config <= requestCount (rollover config now (this sys)) ->
    requestQueue (this sys') = [request] /\
    inFlight sys' = inFlight sys /\
    isProcessing (this sys') = true)).
Proof.
  intros request sys'. subst sys'. unfold makeRequest, processQueue. simpl.
  split; [| split].
  - destruct (isProcessing (this sys) || _); [reflexivity |].
    match goal with
    | |- promises (processQueue_loop config now ?s0) = _ =>
        destruct (processQueue_loop_cases config now s0) as [HP _]
    end.
    exact HP.
  - intros ->. simpl. repeat split; reflexivity.
  - intros -> ->. simpl.
    unfold processQueue_loop, rollover. simpl.
    split; intros H.
    + unfold rollover in H.
      destruct (now - windowStart (this sys) >=? windowDurationMs config);
        simpl in *;
        (destruct (Z.ltb_spec 0 (maxRequestsPerWindow config));
         destruct (Z.ltb_spec (requestCount (this sys))
                              (maxRequestsPerWindow config));
         try lia; simpl; repeat split; reflexivity).
    + unfold rollover in H.
      destruct (now - windowStart (this sys) >=? windowDurationMs config);
        simpl in *;
        (destruct (Z.ltb_spec 0 (maxRequestsPerWindow config));
         destruct (Z.ltb_spec (requestCount (this sys))
                              (maxRequestsPerWindow config));
         try lia; simpl; repeat split; reflexivity).
Qed.

Lemma makeRequest_starts_only_when_idle_witness :
  let sys := run Samples.tight [MakeRequest Samples.succeeds 0] (create 0) in
  let sys' := makeRequest Samples.tight Samples.succeeds 1 sys in
  requestQueue (this sys')
    = requestQueue (this sys) ++ [{| promise := 1; requestFn := Samples.succeeds |}] /\
  inFlight sys' = inFlight sys /\
  journal sys' = journal sys /\
  requestCount (this sys') = requestCount (this sys) /\
  windowStart (this sys') = windowStart (this sys).
Proof.
  intros sys sys'.
  apply (proj1 (proj2 (makeRequest_starts_only_when_idle Samples.tight
                         Samples.succeeds 1 sys))).
  reflexivity.
Defined.

(** X12.  [clearQueue()] clears [isProcessing] even while a worker is
    waiting for its request, so the next [makeRequest] starts a second
    worker: if the window has room the new request is started at once,
    next to whatever is still in flight. *)
Theorem clearQueue_lets_another_request_start (config : RateLimiterConfig)
    (fn : RequestFn) (now : Z) (sys : System) :
  requestCount (rollover config now (this sys)) < maxRequestsPerWindow config ->
  let sys' := makeRequest config fn now (clearQueue sys) in
  inFlight sys'
    = inFlight sys ++ [{| promise := length (promises sys); requestFn := fn |}] /\
  length (inFlight sys') = S (length (inFlight sys)) /\
  isProcessing (this sys') = true /\
  requestCount (this sys') = requestCount (rollover config now (this sys)) + 1.
Proof.
  intros Hroom sys'.
  assert (Hroll : rollover config now (this (clearQueue sys))
                  = {| requestQueue := [];
                       requestCount := requestCount (rollover config now (this sys));
                       windowStart := windowStart (rollover config now (this sys));
                       isProcessing := false |}).
  { unfold rollover, clearQueue. simpl.
    destruct (now - windowStart (this sys) >=? windowDurationMs config);
      reflexivity. }
  destruct (makeRequest_idle_start config fn now (clearQueue sys)
              eq_refl eq_refl) as (_ & HF & _ & HP & HC).
  { rewrite Hroll. exact Hroom. }
  fold sys' in HF, HP, HC. rewrite Hroll in HC. simpl in HF, HC.
  split; [exact HF |].
  split; [rewrite HF, length_app; simpl; lia |].
  split; [exact HP | exact HC].
Qed.

Lemma clearQueue_lets_another_request_start_witness :
  let sys := run Samples.tight [MakeRequest Samples.succeeds 0] (create 0) in
  let sys' := makeRequest Samples.tight Samples.succeeds 1 (clearQueue sys) in
  inFlight sys'
    = inFlight sys ++ [{| promise := 1; requestFn := Samples.succeeds |}] /\
  length (inFlight sys') = 2%nat /\
  isProcessing (this sys') = true /\
  requestCount (this sys') = 1 + 1.
Proof.
  intros sys sys'.
  apply (clearQueue_lets_another_request_start Samples.tight Samples.succeeds 1 sys).
  vm_compute. reflexivity.
Defined.

(** ** The daily sync when the store fails *)

(** The loop is done, the store refuses the result and then accepts the
    failure record. *)
Lemma handleDailyXSync_late_failure env w accounts refusal :
  connectedXAccounts env = Ok accounts ->
  accounts <> [] ->
  putError env (puts w) = Some refusal ->
  putError env (S (puts w)) = None ->
  handleDailyXSync env w =
  (Throw refusal,
   {| clockReadings := 6 + clockReadings w; puts := S (S (puts w));
      SYNC_STATE :=
        <[resultKeyAt env w := JSON_stringify (lateFailedRun env w refusal)]>
          (SYNC_STATE w);
      ANALYTICS := ANALYTICS w;
      alerts :=
        alerts w
          ++ [("Daily sync completely failed", lateFailedRun env w refusal)] |}).
Proof.
  intros Hlist Hne Hput Hput'.
  unfold handleDailyXSync, bind, try_catch, await, Date_now. simpl.
  rewrite Hlist.
  destruct accounts as [| account rest]; [congruence |].
  cbn [length Nat.eqb].
  rewrite syncAccounts_tally.
  unfold saveSyncResult, SYNC_STATE_put. cbn [puts id clockReadings].
  rewrite Hput. cbn [puts]. rewrite Hput'.
  reflexivity.
Qed.

(** The loop is done and the store refuses both the result and the
    failure record. *)
Lemma handleDailyXSync_late_failure_unrecorded env w accounts refusal refusal' :
  connectedXAccounts env = Ok accounts ->
  accounts <> [] ->
  putError env (puts w) = Some refusal ->
  putError env (S (puts w)) = Some refusal' ->
  handleDailyXSync env w =
  (Throw refusal',
   {| clockReadings := 6 + clockReadings w; puts := S (S (puts w));
      SYNC_STATE := SYNC_STATE w; ANALYTICS := ANALYTICS w;
      alerts := alerts w |}).
Proof.
  intros Hlist Hne Hput Hput'.
  unfold handleDailyXSync, bind, try_catch, await, Date_now. simpl.
  rewrite Hlist.
  destruct accounts as [| account rest]; [congruence |].
  cbn [length Nat.eqb].
  rewrite syncAccounts_tally.
  unfold saveSyncResult, SYNC_STATE_put. cbn [puts id clockReadings].
  rewrite Hput. cbn [puts]. rewrite Hput'.
  reflexivity.
Qed.

(** Case analysis on how a run goes: the directory's answer and the
    store's answers to the one or two writes. *)
Ltac sync_cases env w :=
  let accounts := fresh "accounts" in
  let account := fresh "account" in
  let rest := fresh "rest" in
  let message := fresh "message" in
  let refusal := fresh "refusal" in
  let refusal' := fresh "refusal'" in
  let Hlist := fresh "Hlist" in
  let Hne := fresh "Hne" in
  let Hput := fresh "Hput" in
  let Hput' := fresh "Hput'" in
  destruct (connectedXAccounts env) as [accounts | message] eqn:Hlist;
  [ destruct accounts as [| account rest];
    [ rewrite (handleDailyXSync_skips env w Hlist)
    | assert (Hne : account :: rest <> []) by discriminate;
      destruct (putError env (puts w)) as [refusal |] eqn:Hput;
      [ destruct (putError env (S (puts w))) as [refusal' |] eqn:Hput';
        [ rewrite (handleDailyXSync_late_failure_unrecorded
                     env w _ _ _ Hlist Hne Hput Hput')
        | rewrite (handleDailyXSync_late_failure env w _ _ Hlist Hne Hput Hput') ]
      | rewrite (handleDailyXSync_completes env w _ Hlist Hne Hput) ] ]
  | destruct (putError env (puts w)) as [refusal |] eqn:Hput;
    [ rewrite (handleDailyXSync_fails_unrecorded env w _ _ Hlist Hput)
    | rewrite (handleDailyXSync_fails env w _ Hlist Hput) ] ].

Lemma handleDailyXSync_frame env w key :
  key <> resultKeyAt env w ->
  SYNC_STATE (snd (handleDailyXSync env w)) !! key = SYNC_STATE w !! key.
Proof.
  intros Hkey.
  sync_cases env w; simpl; try reflexivity;
    apply lookup_insert_ne; intros E; apply Hkey; rewrite <- E; reflexivity.
Qed.

(** X13.  A run writes to the store under its own key only,
    ["sync-result-"] followed by its identifier: the value under every
    other key, the marker ["last-successful-sync"] among them, is what it
    was before the run, however the run ends; and the store is written to
    at most twice. *)
Theorem handleDailyXSync_writes_only_its_key (env : Externals) (w : World) :
  (forall key,
      key <> resultKeyAt env w ->
      SYNC_STATE (snd (handleDailyXSync env w)) !! key = SYNC_STATE w !! key) /\
  SYNC_STATE (snd (handleDailyXSync env w)) !! "last-successful-sync"
    = SYNC_STATE w !! "last-successful-sync" /\
  (puts w <= puts (snd (handleDailyXSync env w)) <= S (S (puts w)))%nat.
Proof.
  split; [intros key; apply handleDailyXSync_frame |].
  split; [apply handleDailyXSync_frame; discriminate |].
  sync_cases env w; simpl; lia.
Qed.

Lemma handleDailyXSync_writes_only_its_key_witness :
  SYNC_STATE (snd (handleDailyXSync Samples.twoOfFive Samples.marked))
    !! "sync-result-sync-1600000000000"
  = SYNC_STATE Samples.marked !! "sync-result-sync-1600000000000".
Proof.
  apply (proj1 (handleDailyXSync_writes_only_its_key
                  Samples.twoOfFive Samples.marked)).
  vm_compute. discriminate.
Defined.

(** X14.  A run raises at most one alert and writes at most one data
    point.  The alert "High failure rate in daily sync" is raised only by
    a run that returns normally, the alert "Daily sync completely failed"
    only by a run that throws, and a run that throws writes no data
    point. *)
Theorem handleDailyXSync_alerts_once (env : Externals) (w : World) :
  exists raised points,
    alerts (snd (handleDailyXSync env w)) = alerts w ++ raised /\
    ANALYTICS (snd (handleDailyXSync env w)) = ANALYTICS w ++ points /\
    (length raised <= 1)%nat /\
    (length points <= 1)%nat /\
    (forall message data,
        (message, data) ∈ raised ->
        (message = "High failure rate in daily sync" /\
         fst (handleDailyXSync env w) = Ok tt) \/
        (message = "Daily sync completely failed" /\
         exists thrown, fst (handleDailyXSync env w) = Throw thrown)) /\
    (forall thrown,
        fst (handleDailyXSync env w) = Throw thrown -> points = []).
Proof.
  sync_cases env w; cbn [fst snd alerts ANALYTICS].
  - exists [], []. rewrite !app_nil_r.
    repeat split; simpl; try lia; try (intros; reflexivity). set_solver.
  - exists [], []. rewrite !app_nil_r.
    repeat split; simpl; try lia; try (intros; reflexivity). set_solver.
  - eexists _, [].
    split; [reflexivity |]. split; [symmetry; apply app_nil_r |].
    repeat split; simpl; try lia.
    intros message data Hin. apply list_elem_of_singleton in Hin.
    injection Hin as -> _. right. eauto.
  - eexists _, _. split; [reflexivity |]. split; [reflexivity |].
    destruct (highFailureRate _); repeat split; simpl; try lia;
      try discriminate; set_solver.
  - exists [], []. rewrite !app_nil_r.
    repeat split; simpl; try lia; try (intros; reflexivity). set_solver.
  - eexists _, [].
    split; [reflexivity |]. split; [symmetry; apply app_nil_r |].
    repeat split; simpl; try lia.
    intros m data Hin. apply list_elem_of_singleton in Hin.
    injection Hin as -> _. right. eauto.
Qed.

Lemma handleDailyXSync_alerts_once_witness :
  exists raised points,
    alerts (snd (handleDailyXSync Samples.twoOfFive pristine)) = [] ++ raised /\
    ANALYTICS (snd (handleDailyXSync Samples.twoOfFive pristine)) = [] ++ points /\
    (length raised <= 1)%nat /\
    (length points <= 1)%nat /\
    (forall message data,
        (message, data) ∈ raised ->
        (message = "High failure rate in daily sync" /\
         fst (handleDailyXSync Samples.twoOfFive pristine) = Ok tt) \/
        (message = "Daily sync completely failed" /\
         exists thrown,
           fst (handleDailyXSync Samples.twoOfFive pristine) = Throw thrown)) /\
    (forall thrown,
        fst (handleDailyXSync Samples.twoOfFive pristine) = Throw thrown ->
        points = []).
Proof. exact (handleDailyXSync_alerts_once Samples.twoOfFive pristine). Defined.

(** X15.  When every account has been processed but the store refuses
    the result, the run is recorded as a complete failure: the record
    written by the second attempt has all four counts at 0 and the
    store's error as its only entry of [errors], whatever the accounts
    did; the alert "Daily sync completely failed" is raised, no data
    point is written, and the handler throws the store's error. *)
Theorem refused_result_is_recorded_as_failure (env : Externals) (w : World)
    (accounts : list Account) (refusal : string) :
  connectedXAccounts env = Ok accounts ->
  accounts <> [] ->
  putError env (puts w) = Some refusal ->
  putError env (S (puts w)) = None ->
  exists syncRun,
    fst (handleDailyXSync env w) = Throw refusal /\
    SYNC_STATE (snd (handleDailyXSync env w)) !! resultKeyAt env w
      = Some (JSON_stringify syncRun) /\
    totalAccounts (progress syncRun) = 0 /\
    processedAccounts (progress syncRun) = 0 /\
    successfulAccounts (progress syncRun) = 0 /\
    failedAccounts (progress syncRun) = 0 /\
    errors (progress syncRun) = [refusal] /\
    alerts (snd (handleDailyXSync env w))
      = alerts w ++ [("Daily sync completely failed", syncRun)] /\
    ANALYTICS (snd (handleDailyXSync env w)) = ANALYTICS w.
Proof.
  intros Hlist Hne Hput Hput'. exists (lateFailedRun env w refusal).
  rewrite (handleDailyXSync_late_failure env w accounts refusal
             Hlist Hne Hput Hput').
  cbn [fst snd SYNC_STATE alerts ANALYTICS lateFailedRun progress].
  repeat split. apply lookup_insert_eq.
Qed.

Lemma refused_result_is_recorded_as_failure_witness :
  exists syncRun,
    fst (handleDailyXSync Samples.storeHiccup pristine) = Throw "KV put failed" /\
    SYNC_STATE (snd (handleDailyXSync Samples.storeHiccup pristine))
      !! resultKeyAt Samples.storeHiccup pristine
      = Some (JSON_stringify syncRun) /\
    totalAccounts (progress syncRun) = 0 /\
    processedAccounts (progress syncRun) = 0 /\
    successfulAccounts (progress syncRun) = 0 /\
    failedAccounts (progress syncRun) = 0 /\
    errors (progress syncRun) = ["KV put failed"] /\
    alerts (snd (handleDailyXSync Samples.storeHiccup pristine))
      = [] ++ [("Daily sync completely failed", syncRun)] /\
    ANALYTICS (snd (handleDailyXSync Samples.storeHiccup pristine)) = [].
Proof.
  apply (refused_result_is_recorded_as_failure Samples.storeHiccup pristine
           Samples.fiveAccounts "KV put failed").
  - reflexivity.
  - discriminate.
  - reflexivity.
  - reflexivity.
Defined.

(** X16.  When the store also refuses the failure record, the failure
    leaves no trace: nothing is stored, no alert is raised, no data point
    is written, and what the handler throws is the store's error, not the
    error that made the run fail. *)
Theorem refused_failure_record_leaves_no_trace (env : Externals) (w : World) :
  (forall message refusal,
      connectedXAccounts env = Throw message ->
      putError env (puts w) = Some refusal ->
      fst (handleDailyXSync env w) = Throw refusal /\
      SYNC_STATE (snd (handleDailyXSync env w)) = SYNC_STATE w /\
      alerts (snd (handleDailyXSync env w)) = alerts w /\
      ANALYTICS (snd (handleDailyXSync env w)) = ANALYTICS w) /\
  (forall accounts refusal refusal',
      connectedXAccounts env = Ok accounts ->
      accounts <> [] ->
      putError env (puts w) = Some refusal ->
      putError env (S (puts w)) = Some refusal' ->
      fst (handleDailyXSync env w) = Throw refusal' /\
      SYNC_STATE (snd (handleDailyXSync env w)) = SYNC_STATE w /\
      alerts (snd (handleDailyXSync env w)) = alerts w /\
      ANALYTICS (snd (handleDailyXSync env w)) = ANALYTICS w).
Proof.
  split.
  - intros message refusal Hlist Hput.
    rewrite (handleDailyXSync_fails_unrecorded env w message refusal Hlist Hput).
    repeat split.
  - intros accounts refusal refusal' Hlist Hne Hput Hput'.
    rewrite (handleDailyXSync_late_failure_unrecorded
               env w accounts refusal refusal' Hlist Hne Hput Hput').
    repeat split.
Qed.

Lemma refused_failure_record_leaves_no_trace_witness :
  fst (handleDailyXSync Samples.storeDown pristine) = Throw "KV put failed" /\
  SYNC_STATE (snd (handleDailyXSync Samples.storeDown pristine)) = ∅ /\
  alerts (snd (handleDailyXSync Samples.storeDown pristine)) = [] /\
  ANALYTICS (snd (handleDailyXSync Samples.storeDown pristine)) = [].
Proof.
  apply (proj2 (refused_failure_record_leaves_no_trace Samples.storeDown pristine)
           Samples.fiveAccounts "KV put failed" "KV put failed").
  - reflexivity.
  - discriminate.
  - reflexivity.
  - reflexivity.
Defined.

(** X17.  What the accounts' syncs do never makes the handler throw.
    A run that throws had its directory throw, or had accounts and a
    store that refused the result; a run that returns normally had its
    directory answer, with no account or with a result that the store
    accepted.  The runs that wait for no account's sync always end: with
    an empty directory the handler returns normally, and with a directory
    that throws it throws, the directory's error or the store's. *)
Theorem handleDailyXSync_throws_for_directory_or_store (env : Externals)
    (w : World) :
  (forall thrown,
      fst (handleDailyXSync env w) = Throw thrown ->
      (exists message, connectedXAccounts env = Throw message) \/
      (exists accounts refusal,
          connectedXAccounts env = Ok accounts /\
          accounts <> [] /\
          putError env (puts w) = Some refusal)) /\
  (fst (handleDailyXSync env w) = Ok tt ->
   exists accounts,
     connectedXAccounts env = Ok accounts /\
     (accounts = [] \/ putError env (puts w) = None)) /\
  (connectedXAccounts env = Ok [] -> fst (handleDailyXSync env w) = Ok tt) /\
  (forall message,
      connectedXAccounts env = Throw message ->
      exists thrown,
        fst (handleDailyXSync env w) = Throw thrown /\
        (thrown = message \/ putError env (puts w) = Some thrown)).
Proof.
  split; [| split; [| split]].
  - intros thrown. sync_cases env w; cbn [fst]; try discriminate; intros _.
    all: try (left; eexists; reflexivity).
    all: right; eexists _, _; repeat split; eauto.
  - sync_cases env w; cbn [fst]; try discriminate;
      intros _; eexists; (split; [reflexivity |]); auto.
  - intros Hlist. rewrite (handleDailyXSync_skips env w Hlist). reflexivity.
  - intros message Hlist.
    destruct (putError env (puts w)) as [refusal |] eqn:Hput.
    + rewrite (handleDailyXSync_fails_unrecorded env w message refusal Hlist Hput).
      exists refusal. auto.
    + rewrite (handleDailyXSync_fails env w message Hlist Hput).
      exists message. auto.
Qed.

Lemma handleDailyXSync_throws_for_directory_or_store_witness :
  (exists message, connectedXAccounts Samples.storeDown = Throw message) \/
  (exists accounts refusal,
      connectedXAccounts Samples.storeDown = Ok accounts /\
      accounts <> [] /\
      putError Samples.storeDown (puts pristine) = Some refusal).
Proof.
  apply (proj1 (handleDailyXSync_throws_for_directory_or_store
                  Samples.storeDown pristine) "KV put failed").
  vm_compute. reflexivity.
Defined.

(** ** The failure-rate alert, in whole numbers *)

Lemma highFailureRate_integers (syncProgress : SyncProgress) :
  highFailureRate syncProgress
  = (totalAccounts syncProgress <? 5 * failedAccounts syncProgress).
Proof.
  unfold highFailureRate.
  destruct (Z.ltb_spec (totalAccounts syncProgress)
                       (5 * failedAccounts syncProgress)) as [H | H].
  - apply Qlt_bool_iff. unfold Qlt, Qmult, inject_Z. simpl. lia.
  - apply not_true_is_false. rewrite Qlt_bool_iff.
    unfold Qlt, Qmult, inject_Z. simpl. lia.
Qed.

(** X18.  The alert for a high failure rate is raised exactly when
    [5 * failedAccounts > totalAccounts].  So a run in which every
    account fails always raises it, and a run in which no account fails
    never does. *)
Theorem high_failure_alert_in_whole_numbers (env : Externals) (w : World)
    (accounts : list Account) :
  connectedXAccounts env = Ok accounts ->
  accounts <> [] ->
  putError env (puts w) = None ->
  let failed := Z.of_nat (length (failures env 0 accounts)) in
  let total := Z.of_nat (length accounts) in
  let syncRun := completedRun env w accounts in
  (total < 5 * failed ->
   alerts (snd (handleDailyXSync env w))
   = alerts w ++ [("High failure rate in daily sync", syncRun)]) /\
  (5 * failed <= total -> alerts (snd (handleDailyXSync env w)) = alerts w) /\
  (successes env 0 accounts = [] ->
   alerts (snd (handleDailyXSync env w))
   = alerts w ++ [("High failure rate in daily sync", syncRun)]) /\
  (failures env 0 accounts = [] ->
   alerts (snd (handleDailyXSync env w)) = alerts w).
Proof.
  intros Hlist Hne Hput failed total syncRun.
  rewrite (handleDailyXSync_completes env w accounts Hlist Hne Hput).
  cbn [snd alerts]. fold syncRun.
  rewrite highFailureRate_integers.
  change (totalAccounts (progress syncRun)) with total.
  change (failedAccounts (progress syncRun)) with failed.
  pose proof (failures_successes_length env 0 accounts) as Hsum.
  assert (Hpos : 0 < total)
    by (subst total; destruct accounts; [congruence | simpl; lia]).
  assert (Hyes : total < 5 * failed ->
                 alerts w
                   ++ (if total <? 5 * failed
                       then [("High failure rate in daily sync", syncRun)]
                       else [])
                 = alerts w ++ [("High failure rate in daily sync", syncRun)]).
  { intros H. destruct (Z.ltb_spec total (5 * failed)); [reflexivity | lia]. }
  assert (Hno : 5 * failed <= total ->
                alerts w
                  ++ (if total <? 5 * failed
                      then [("High failure rate in daily sync", syncRun)]
                      else [])
                = alerts w).
  { intros H. destruct (Z.ltb_spec total (5 * failed)); [lia |].
    apply app_nil_r. }
  split; [exact Hyes |]. split; [exact Hno |].
  split; intros Hnone.
  - apply Hyes. rewrite Hnone in Hsum. simpl in Hsum. subst failed total. lia.
  - apply Hno. subst failed. rewrite Hnone. simpl. lia.
Qed.

Lemma high_failure_alert_in_whole_numbers_witness :
  alerts (snd (handleDailyXSync Samples.allOfFive pristine))
  = [] ++ [("High failure rate in daily sync",
            completedRun Samples.allOfFive pristine Samples.fiveAccounts)]
  /\ alerts (snd (handleDailyXSync Samples.noneOfFive pristine)) = [].
Proof.
  split.
  - apply (high_failure_alert_in_whole_numbers Samples.allOfFive pristine
             Samples.fiveAccounts eq_refl ltac:(discriminate) eq_refl).
    reflexivity.
  - apply (high_failure_alert_in_whole_numbers Samples.noneOfFive pristine
             Samples.fiveAccounts eq_refl ltac:(discriminate) eq_refl).
    reflexivity.
Defined.

(** X19.  A run that goes through to the end writes exactly one data
    point: its blobs are the run's identifier and [env.ENVIRONMENT], its
    doubles are the total of the tweets of the accounts that were synced,
    which is also the stored [totalTweets], and the run's duration (the
    fourth reading of the clock less the first), and its index is the
    number of accounts that were synced. *)
Theorem completed_run_writes_one_data_point (env : Externals) (w : World)
    (accounts : list Account) :
  connectedXAccounts env = Ok accounts ->
  accounts <> [] ->
  putError env (puts w) = None ->
  exists syncRun,
    SYNC_STATE (snd (handleDailyXSync env w)) !! resultKeyAt env w
      = Some (JSON_stringify syncRun) /\
    totalTweets (progress syncRun) = sumZ (map snd (successes env 0 accounts)) /\
    duration syncRun
      = clock env (3 + clockReadings w) - clock env (clockReadings w) /\
    ANALYTICS (snd (handleDailyXSync env w))
    = ANALYTICS w
        ++ [{| blobs := [id syncRun; ENVIRONMENT env];
               doubles := [totalTweets (progress syncRun); duration syncRun];
               indexes := [successfulAccounts (progress syncRun)] |}] /\
    successfulAccounts (progress syncRun)
      = Z.of_nat (length (successes env 0 accounts)).
Proof.
  intros Hlist Hne Hput. exists (completedRun env w accounts).
  rewrite (handleDailyXSync_completes env w accounts Hlist Hne Hput).
  cbn [snd SYNC_STATE ANALYTICS].
  repeat split. apply lookup_insert_eq.
Qed.

Lemma completed_run_writes_one_data_point_witness :
  exists syncRun,
    SYNC_STATE (snd (handleDailyXSync Samples.twoOfFive pristine))
      !! resultKeyAt Samples.twoOfFive pristine
      = Some (JSON_stringify syncRun) /\
    totalTweets (progress syncRun) = 21 /\
    duration syncRun = 3000 /\
    ANALYTICS (snd (handleDailyXSync Samples.twoOfFive pristine))
    = [] ++ [{| blobs := [id syncRun; "production"];
                doubles := [totalTweets (progress syncRun); duration syncRun];
                indexes := [successfulAccounts (progress syncRun)] |}] /\
    successfulAccounts (progress syncRun) = 3.
Proof.
  apply (completed_run_writes_one_data_point Samples.twoOfFive pristine
           Samples.fiveAccounts).
  - reflexivity.
  - discriminate.
  - reflexivity.
Defined.

(** ** The freshness check on bad input *)

Import Worker.

(** X20.  The freshness check never throws and changes nothing but the
    count of clock readings.  Its answer is [false] when reading the
    store throws, when there is no marker, when the marker is the empty
    string, when the marker cannot be parsed, and when its timestamp is
    not a date. *)
Theorem checkLastSyncHealth_fails_closed (env : Externals) (w : World) :
  exists answer,
    fst (checkLastSyncHealth env w) = Ok answer /\
    SYNC_STATE (snd (checkLastSyncHealth env w)) = SYNC_STATE w /\
    puts (snd (checkLastSyncHealth env w)) = puts w /\
    alerts (snd (checkLastSyncHealth env w)) = alerts w /\
    ANALYTICS (snd (checkLastSyncHealth env w)) = ANALYTICS w /\
    (clockReadings w <= clockReadings (snd (checkLastSyncHealth env w))
       <= S (clockReadings w))%nat /\
    ((exists message, getError env = Some message) -> answer = false) /\
    (SYNC_STATE w !! "last-successful-sync" = None -> answer = false) /\
    (SYNC_STATE w !! "last-successful-sync" = Some (Text "") -> answer = false) /\
    (forall text message,
        SYNC_STATE w !! "last-successful-sync" = Some (Text text) ->
        markerTime env text = Throw message -> answer = false) /\
    (forall text,
        SYNC_STATE w !! "last-successful-sync" = Some (Text text) ->
        markerTime env text = Ok JS.NaN -> answer = false).
Proof.
  unfold checkLastSyncHealth, try_catch, bind, SYNC_STATE_get, ret.
  destruct (getError env) as [message |] eqn:Hget.
  { exists false. simpl. repeat split; try lia; intros; reflexivity. }
  destruct (SYNC_STATE w !! "last-successful-sync") as [[result | text] |] eqn:Hm.
  - simpl. eexists. split; [reflexivity |].
    repeat split; try lia; try discriminate.
    intros [message H]. discriminate H.
  - unfold isEmpty.
    destruct (String.eqb_spec text "") as [-> | Hne].
    + exists false. simpl. repeat split; try lia; intros; reflexivity.
    + unfold lastSyncTimeOf, await, Date_now.
      destruct (markerTime env text) as [time | message] eqn:Ht.
      * eexists. split; [reflexivity |]. cbn [fst snd SYNC_STATE puts alerts
          ANALYTICS clockReadings].
        repeat split; try lia.
        -- intros [message H]. discriminate H.
        -- discriminate.
        -- intros H. congruence.
        -- intros text' message H. injection H as <-. congruence.
        -- intros text' H. injection H as <-. rewrite Ht.
           intros H'. injection H' as ->. reflexivity.
      * exists false. simpl. repeat split; try lia; intros; reflexivity.
  - exists false. simpl. repeat split; try lia; intros; reflexivity.
Qed.

Lemma checkLastSyncHealth_fails_closed_witness :
  fst (checkLastSyncHealth (Samples.checkedAfter 1) pristine) = Ok false.
Proof.
  destruct (checkLastSyncHealth_fails_closed (Samples.checkedAfter 1) pristine)
    as (answer & Hanswer & _ & _ & _ & _ & _ & _ & Hmissing & _).
  rewrite Hanswer. f_equal. apply Hmissing. reflexivity.
Defined.

(** The check on a marker that can be read. *)
Lemma checkLastSyncHealth_marker env w text t :
  getError env = None ->
  SYNC_STATE w !! "last-successful-sync" = Some (Text text) ->
  text <> "" ->
  markerTime env text = Ok (JS.of_Z t) ->
  fst (checkLastSyncHealth env w)
  = Ok (bool_decide (clock env (clockReadings w) - t < 25 * (60 * 60 * 1000))).
Proof.
  intros Hget Hstored Hnonempty Htime.
  unfold checkLastSyncHealth, try_catch, bind, SYNC_STATE_get.
  rewrite Hget, Hstored. unfold isEmpty.
  apply String.eqb_neq in Hnonempty. rewrite Hnonempty.
  unfold lastSyncTimeOf, await. rewrite Htime.
  unfold Date_now, ret. cbn [fst]. rewrite hours_lt_25. reflexivity.
Qed.

(** ** The time of the next sync *)

Lemma nextSyncAfter_spec (now : Z) :
  let next := nextSyncAfter now in
  now < next /\
  next - now <= msPerDay /\
  next mod msPerDay = syncTimeOfDay /\
  (forall t, now < t < next -> t mod msPerDay <> syncTimeOfDay).
Proof.
  intros next. subst next. unfold nextSyncAfter.
  pose proof (Z.mod_pos_bound now msPerDay ltac:(unfold msPerDay; lia)) as Hr.
  pose proof (Z.div_mod now msPerDay ltac:(unfold msPerDay; lia)) as Hdm.
  assert (Hmod : forall q, (msPerDay * q + syncTimeOfDay) mod msPerDay
                           = syncTimeOfDay).
  { intros q. symmetry.
    apply (Z.mod_unique _ _ q); [left; unfold syncTimeOfDay, msPerDay; lia | lia]. }
  unfold msPerDay, syncTimeOfDay in *.
  destruct (Z.leb_spec (now - now mod (24 * 60 * 60 * 1000)
                        + (2 * 60 + 30) * 60 * 1000) now) as [Hle | Hgt].
  - split; [lia |]. split; [lia |]. split.
    + replace (now - now mod (24 * 60 * 60 * 1000)
               + (2 * 60 + 30) * 60 * 1000 + 24 * 60 * 60 * 1000)
        with (24 * 60 * 60 * 1000 * (now / (24 * 60 * 60 * 1000) + 1)
              + (2 * 60 + 30) * 60 * 1000) by lia.
      apply Hmod.
    + intros t Ht Hsync.
      pose proof (Z.div_mod t (24 * 60 * 60 * 1000) ltac:(lia)) as Htdm.
      rewrite Hsync in Htdm. lia.
  - split; [lia |]. split; [lia |]. split.
    + replace (now - now mod (24 * 60 * 60 * 1000) + (2 * 60 + 30) * 60 * 1000)
        with (24 * 60 * 60 * 1000 * (now / (24 * 60 * 60 * 1000))
              + (2 * 60 + 30) * 60 * 1000) by lia.
      apply Hmod.
    + intros t Ht Hsync.
      pose proof (Z.div_mod t (24 * 60 * 60 * 1000) ltac:(lia)) as Htdm.
      rewrite Hsync in Htdm. lia.
Qed.

(** X21.  [getNextSyncTime] reads the clock once and answers with a time
    that is strictly after that reading, at most a day after it, at
    02:30:00.000 UTC, and the first such time: no instant between the
    reading and the answer is at 02:30:00.000 UTC. *)
Theorem nextSync_is_the_next_0230 (env : Externals) (w : World) :
  let now := clock env (clockReadings w) in
  exists next,
    fst (getNextSyncTime env w) = Ok next /\
    clockReadings (snd (getNextSyncTime env w)) = S (clockReadings w) /\
    now < next /\
    next - now <= msPerDay /\
    next mod msPerDay = syncTimeOfDay /\
    (forall t, now < t < next -> t mod msPerDay <> syncTimeOfDay).
Proof.
  intros now. exists (nextSyncAfter now).
  split; [reflexivity |]. split; [reflexivity |].
  apply nextSyncAfter_spec.
Qed.

Example nextSync_examples :
  nextSyncAfter 1700000000000 = 1700015400000 /\
  nextSyncAfter 1700015400000 = 1700101800000 /\
  nextSyncAfter 1700015399999 = 1700015400000.
Proof. repeat split; reflexivity. Qed.

Lemma nextSync_is_the_next_0230_witness :
  exists next,
    fst (getNextSyncTime Samples.noAccounts pristine) = Ok next /\
    next = 1700015400000 /\
    (1700000000001 mod msPerDay = syncTimeOfDay -> False).
Proof.
  destruct (nextSync_is_the_next_0230 Samples.noAccounts pristine)
    as (next & Hnext & _ & _ & _ & _ & Hfirst).
  exists next. split; [exact Hnext |].
  assert (E : next = 1700015400000)
    by (vm_compute in Hnext; injection Hnext as <-; reflexivity).
  split; [exact E |].
  apply Hfirst. subst next. vm_compute. split; reflexivity.
Defined.

(** ** The health check *)

(** The world after one reading of the clock. *)
Lemma Date_now_world env w :
  Date_now env w =
  (Ok (clock env (clockReadings w)),
   {| clockReadings := S (clockReadings w); puts := puts w;
      SYNC_STATE := SYNC_STATE w; ANALYTICS := ANALYTICS w;
      alerts := alerts w |}).
Proof. reflexivity. Qed.

(** X22.  The cache check is a round trip through the cache: it writes
    the clock's reading under ["health-check-test"] for 60 seconds and
    reads it back.  It never throws; it answers [true] exactly when
    neither the write nor the read throws; the test value stays in the
    cache when the write is accepted, and the cache is untouched when it
    is not. *)
Theorem checkCacheHealth_round_trip (sur : Surroundings) (s : State) :
  let now := clock (cronEnv sur) (clockReadings (world s)) in
  let s' := snd (checkCacheHealth sur s) in
  exists answer,
    fst (checkCacheHealth sur s) = Ok answer /\
    (answer = true <->
     cachePutError sur (cachePuts s) = None /\ cacheGetError sur = None) /\
    cachePuts s' = S (cachePuts s) /\
    healthAlerts s' = healthAlerts s /\
    world s' = snd (Date_now (cronEnv sur) (world s)) /\
    (cachePutError sur (cachePuts s) = None ->
     CACHE s' = <["health-check-test" := (Plain (JS.show now), 60)]> (CACHE s)) /\
    (cachePutError sur (cachePuts s) <> None -> CACHE s' = CACHE s).
Proof.
  intros now s'. subst s'.
  unfold checkCacheHealth, wtry, wbind, lift, CACHE_put, CACHE_get, wret.
  rewrite Date_now_world. cbn [cachePuts world CACHE healthAlerts].
  destruct (cachePutError sur (cachePuts s)) as [refusal |] eqn:Hput.
  - exists false. cbn [fst snd cachePuts world CACHE healthAlerts].
    repeat split; try discriminate; try congruence.
    intros [H _]. discriminate H.
  - destruct (cacheGetError sur) as [message |] eqn:Hget.
    + exists false. cbn [fst snd cachePuts world CACHE healthAlerts].
      repeat split; try discriminate; try congruence.
      intros [_ H]. discriminate H.
    + exists true. cbn [fst snd cachePuts world CACHE healthAlerts].
      rewrite lookup_insert_eq. simpl. fold now. rewrite String.eqb_refl.
      repeat split; congruence.
Qed.

Lemma checkCacheHealth_round_trip_witness :
  let s := atRest pristine in
  let s' := snd (checkCacheHealth (Samples.healthy Samples.noAccounts) s) in
  CACHE s' = <["health-check-test" := (Plain "1700000000000", 60)]> ∅.
Proof.
  intros s s'.
  destruct (checkCacheHealth_round_trip (Samples.healthy Samples.noAccounts) s)
    as (answer & _ & _ & _ & _ & _ & Hwritten & _).
  apply Hwritten. reflexivity.
Defined.

Lemma checkLastSyncHealth_answers env w :
  exists answer, fst (checkLastSyncHealth env w) = Ok answer.
Proof.
  unfold checkLastSyncHealth, try_catch, bind, SYNC_STATE_get, ret.
  destruct (getError env); [eexists; reflexivity |].
  destruct (SYNC_STATE w !! "last-successful-sync") as [data |];
    [| eexists; reflexivity].
  destruct (isEmpty data); [eexists; reflexivity |].
  unfold lastSyncTimeOf, await, Date_now.
  destruct data as [result | text]; [eexists; reflexivity |].
  destruct (markerTime env text); eexists; reflexivity.
Qed.

Lemma checkCacheHealth_unfold sur s :
  checkCacheHealth sur s =
  (Ok (match cachePutError sur (cachePuts s), cacheGetError sur with
       | None, None => true
       | _, _ => false
       end),
   {| world := snd (Date_now (cronEnv sur) (world s));
      CACHE :=
        match cachePutError sur (cachePuts s) with
        | None =>
            <["health-check-test" :=
                (Plain (JS.show (clock (cronEnv sur) (clockReadings (world s)))),
                 60)]> (CACHE s)
        | Some _ => CACHE s
        end;
      cachePuts := S (cachePuts s);
      healthAlerts := healthAlerts s |}).
Proof.
  unfold checkCacheHealth, wtry, wbind, lift, CACHE_put, CACHE_get, wret.
  rewrite Date_now_world. cbn [cachePuts world CACHE healthAlerts snd].
  destruct (cachePutError sur (cachePuts s)) as [refusal |]; [reflexivity |].
  destruct (cacheGetError sur) as [message |]; [reflexivity |].
  cbn [CACHE]. rewrite lookup_insert_eq. simpl. rewrite String.eqb_refl.
  reflexivity.
Qed.

(** The health check, step by step: the four answers, the alert for an
    unhealthy system, and the write of the snapshot, whose refusal raises
    a second alert. *)
Lemma handleHealthCheck_unfold sur s :
  let env := cronEnv sur in
  let judged := checkLastSyncHealth env (worldAtFreshnessCheck sur s) in
  let raised :=
    if allHealthy sur s then []
    else [("Health check failed", Checks (checksOf sur s))] in
  let date := clock env (clockReadings (snd judged)) in
  handleHealthCheck sur s =
  (Ok tt,
   match cachePutError sur (S (cachePuts s)) with
   | None =>
       {| world := snd (Date_now env (snd judged));
          CACHE :=
            <["health-check" :=
                (HealthSnapshot date (checksOf sur s) (allHealthy sur s),
                 6 * 60 * 60)]>
              (cacheAfterTest sur s);
          cachePuts := S (S (cachePuts s));
          healthAlerts := healthAlerts s ++ raised |}
   | Some refusal =>
       {| world := snd (Date_now env (snd judged));
          CACHE := cacheAfterTest sur s;
          cachePuts := S (S (cachePuts s));
          healthAlerts :=
            (healthAlerts s ++ raised)
              ++ [("Health check error", ErrorMessage refusal)] |}
   end).
Proof.
  intros env judged raised date.
  destruct (checkLastSyncHealth_answers env (worldAtFreshnessCheck sur s))
    as [answer Hanswer].
  assert (Hfresh : freshnessAnswer sur s = answer).
  { unfold freshnessAnswer. fold env. rewrite Hanswer. reflexivity. }
  subst raised date. unfold allHealthy, checksOf. rewrite Hfresh.
  subst judged. unfold worldAtFreshnessCheck in *. fold env in Hanswer |- *.
  destruct (checkLastSyncHealth env (snd (Date_now env (world s))))
    as [outcome w2] eqn:Hl.
  simpl in Hanswer. subst outcome. cbn [snd].
  unfold handleHealthCheck, checkDatabaseHealth, checkXAPIHealth.
  unfold wtry, wbind, wret.
  unfold probeAnswer, cacheAnswer, cacheAfterTest.
  destruct (xApiProbe sur) as [b | message]; cbv iota;
    rewrite checkCacheHealth_unfold;
    unfold lift; cbn [world CACHE cachePuts healthAlerts]; fold env;
    rewrite Hl;
    match goal with
    | |- context [negb ?h] => destruct h
    end;
    cbn [negb]; unfold sendHealthAlert; cbv beta iota;
    cbn [world CACHE cachePuts healthAlerts];
    rewrite !Date_now_world; cbv beta iota;
    unfold CACHE_put; cbn [world CACHE cachePuts healthAlerts snd];
    destruct (cachePutError sur (S (cachePuts s)));
    cbn [world CACHE cachePuts healthAlerts snd];
    rewrite ?app_nil_r; reflexivity.
Qed.

Lemma checkLastSyncHealth_frame env w :
  SYNC_STATE (snd (checkLastSyncHealth env w)) = SYNC_STATE w /\
  puts (snd (checkLastSyncHealth env w)) = puts w /\
  alerts (snd (checkLastSyncHealth env w)) = alerts w /\
  ANALYTICS (snd (checkLastSyncHealth env w)) = ANALYTICS w.
Proof.
  unfold checkLastSyncHealth, try_catch, bind, SYNC_STATE_get, ret.
  destruct (getError env); [simpl; auto |].
  destruct (SYNC_STATE w !! "last-successful-sync") as [data |]; [| simpl; auto].
  destruct (isEmpty data); [simpl; auto |].
  unfold lastSyncTimeOf, await, Date_now.
  destruct data as [result | text]; [simpl; auto |].
  destruct (markerTime env text); simpl; auto.
Qed.

(** X23.  The health check never throws, whatever fails.  It leaves the
    sync store, the sync alerts and the analytics alone, writes to the
    cache twice (the test value and the snapshot) and touches no other
    key of it, and raises at most two alerts. *)
Theorem handleHealthCheck_never_throws (sur : Surroundings) (s : State) :
  let s' := snd (handleHealthCheck sur s) in
  fst (handleHealthCheck sur s) = Ok tt /\
  SYNC_STATE (world s') = SYNC_STATE (world s) /\
  puts (world s') = puts (world s) /\
  alerts (world s') = alerts (world s) /\
  ANALYTICS (world s') = ANALYTICS (world s) /\
  cachePuts s' = S (S (cachePuts s)) /\
  (forall key,
      key <> "health-check" -> key <> "health-check-test" ->
      CACHE s' !! key = CACHE s !! key) /\
  exists raised,
    healthAlerts s' = healthAlerts s ++ raised /\ (length raised <= 2)%nat.
Proof.
  intros s'. subst s'. rewrite handleHealthCheck_unfold. cbn [fst snd].
  destruct (checkLastSyncHealth_frame (cronEnv sur) (worldAtFreshnessCheck sur s))
    as (HS & HP & HA & HN).
  unfold worldAtFreshnessCheck in *. rewrite Date_now_world in *.
  cbn [snd SYNC_STATE puts alerts ANALYTICS] in *.
  assert (Htest : forall key, key <> "health-check-test" ->
                    cacheAfterTest sur s !! key = CACHE s !! key).
  { intros key Hkey. unfold cacheAfterTest.
    destruct (cachePutError sur (cachePuts s)); [reflexivity |].
    apply lookup_insert_ne. congruence. }
  split; [reflexivity |].
  destruct (cachePutError sur (S (cachePuts s))) as [refusal |];
    cbn [world CACHE cachePuts healthAlerts SYNC_STATE puts alerts ANALYTICS];
    (split; [exact HS |]); (split; [exact HP |]); (split; [exact HA |]);
    (split; [exact HN |]); (split; [reflexivity |]); split.
  - intros key _ Hkey. apply Htest, Hkey.
  - eexists. rewrite <- app_assoc. split; [reflexivity |].
    destruct (allHealthy sur s); simpl; lia.
  - intros key Hkey Hkey'. rewrite lookup_insert_ne by congruence.
    apply Htest, Hkey'.
  - eexists. split; [reflexivity |].
    destruct (allHealthy sur s); simpl; lia.
Qed.

Lemma handleHealthCheck_never_throws_witness :
  CACHE (snd (handleHealthCheck (Samples.healthy Samples.noAccounts)
                (atRest pristine))) !! "rate-limit-status"
  = CACHE (atRest pristine) !! "rate-limit-status".
Proof.
  destruct (handleHealthCheck_never_throws
              (Samples.healthy Samples.noAccounts) (atRest pristine))
    as (_ & _ & _ & _ & _ & _ & Hframe & _).
  apply Hframe; discriminate.
Defined.

(** X24.  When the cache accepts the snapshot, the health check stores
    under ["health-check"], for six hours, the four answers and their
    conjunction.  The database answer is always [true]; the system is
    healthy exactly when the probe of the X API answers ok, the cache
    accepts and returns the test value, and the last sync is fresh; and
    the alert "Health check failed", with the four answers, is raised
    exactly when it is not healthy. *)
Theorem health_snapshot (sur : Surroundings) (s : State) :
  cachePutError sur (S (cachePuts s)) = None ->
  let s' := snd (handleHealthCheck sur s) in
  (exists date,
      CACHE s' !! "health-check"
      = Some (HealthSnapshot date (checksOf sur s) (allHealthy sur s),
              6 * 60 * 60)) /\
  database (checksOf sur s) = true /\
  (allHealthy sur s = true <->
   xApiProbe sur = Ok true /\
   cachePutError sur (cachePuts s) = None /\
   cacheGetError sur = None /\
   fst (checkLastSyncHealth (cronEnv sur) (worldAtFreshnessCheck sur s))
     = Ok true) /\
  (allHealthy sur s = true -> healthAlerts s' = healthAlerts s) /\
  (allHealthy sur s = false ->
   healthAlerts s'
   = healthAlerts s ++ [("Health check failed", Checks (checksOf sur s))]).
Proof.
  intros Hput s'. subst s'. rewrite handleHealthCheck_unfold, Hput.
  cbn [snd CACHE healthAlerts].
  split; [eexists; apply lookup_insert_eq |].
  split; [reflexivity |].
  split.
  - unfold allHealthy, probeAnswer, cacheAnswer, freshnessAnswer.
    destruct (checkLastSyncHealth_answers (cronEnv sur)
                (worldAtFreshnessCheck sur s)) as [answer Hanswer].
    rewrite Hanswer.
    destruct (xApiProbe sur) as [[|] |];
      destruct (cachePutError sur (cachePuts s));
      destruct (cacheGetError sur); destruct answer; simpl;
      split; try discriminate; try (intros (? & ? & ? & ?); congruence);
      auto.
  - split; intros ->; [apply app_nil_r | reflexivity].
Qed.

Lemma health_snapshot_witness :
  let sur := Samples.healthy (Samples.checkedAfter 24) in
  let s := atRest Samples.marked in
  allHealthy sur s = true /\
  healthAlerts (snd (handleHealthCheck sur s)) = [].
Proof.
  intros sur s.
  destruct (health_snapshot sur s eq_refl) as (_ & _ & Hiff & Hquiet & _).
  assert (H : allHealthy sur s = true).
  { apply Hiff. repeat split; vm_compute; reflexivity. }
  split; [exact H | exact (Hquiet H)].
Defined.

(** X25.  When the cache refuses the snapshot, the health check still
    returns normally: nothing is stored under ["health-check"] and the
    alert "Health check error" is raised with the cache's error.  When
    the cache had already refused the test value, the cache answer is
    [false] and this is the second alert of the run, after "Health check
    failed". *)
Theorem refused_snapshot_raises_error_alert (sur : Surroundings) (s : State)
    (refusal : string) :
  cachePutError sur (S (cachePuts s)) = Some refusal ->
  let s' := snd (handleHealthCheck sur s) in
  fst (handleHealthCheck sur s) = Ok tt /\
  CACHE s' !! "health-check" = CACHE s !! "health-check" /\
  (exists earlier,
      healthAlerts s'
      = earlier ++ [("Health check error", ErrorMessage refusal)]) /\
  (cachePutError sur (cachePuts s) <> None ->
   cache (checksOf sur s) = false /\
   CACHE s' = CACHE s /\
   healthAlerts s'
   = healthAlerts s
       ++ [("Health check failed", Checks (checksOf sur s));
           ("Health check error", ErrorMessage refusal)]).
Proof.
  intros Hput s'. subst s'. rewrite handleHealthCheck_unfold, Hput.
  cbn [fst snd CACHE healthAlerts].
  split; [reflexivity |]. split.
  { unfold cacheAfterTest. destruct (cachePutError sur (cachePuts s));
      [reflexivity | apply lookup_insert_ne; discriminate]. }
  split; [eexists; reflexivity |].
  intros Hdown.
  assert (Hcache : cacheAnswer sur s = false).
  { unfold cacheAnswer. destruct (cachePutError sur (cachePuts s));
      [reflexivity | congruence]. }
  split; [exact Hcache |]. split.
  - unfold cacheAfterTest. destruct (cachePutError sur (cachePuts s));
      [reflexivity | congruence].
  - unfold allHealthy. rewrite Hcache, andb_false_r. simpl.
    rewrite <- app_assoc. reflexivity.
Qed.

Lemma refused_snapshot_raises_error_alert_witness :
  let sur := Samples.cacheDown (Samples.checkedAfter 24) in
  let s := atRest Samples.marked in
  healthAlerts (snd (handleHealthCheck sur s))
  = [] ++ [("Health check failed", Checks (checksOf sur s));
           ("Health check error", ErrorMessage "KV put failed")].
Proof.
  intros sur s.
  destruct (refused_snapshot_raises_error_alert sur s "KV put failed" eq_refl)
    as (_ & _ & _ & Hboth).
  apply Hboth. discriminate.
Defined.

(** ** Scheduled events *)

(** The daily event: the sync, then the marker. *)
Lemma handleScheduled_daily sur s :
  let env := cronEnv sur in
  handleScheduled sur "30 2 * * *" s =
  match handleDailyXSync env (world s) with
  | (Throw message, w) =>
      (Throw message,
       {| world := w; CACHE := CACHE s; cachePuts := cachePuts s;
          healthAlerts := healthAlerts s |})
  | (Ok _, w) =>
      match putError env (puts w) with
      | Some refusal =>
          (Throw refusal,
           {| world :=
                {| clockReadings := S (clockReadings w); puts := S (puts w);
                   SYNC_STATE := SYNC_STATE w; ANALYTICS := ANALYTICS w;
                   alerts := alerts w |};
              CACHE := CACHE s; cachePuts := cachePuts s;
              healthAlerts := healthAlerts s |})
      | None =>
          (Ok tt,
           {| world :=
                {| clockReadings := S (clockReadings w); puts := S (puts w);
                   SYNC_STATE :=
                     <["last-successful-sync" :=
                         Text (stringifyMarker sur
                                 (clock env (clockReadings w)) "30 2 * * *")]>
                       (SYNC_STATE w);
                   ANALYTICS := ANALYTICS w; alerts := alerts w |};
              CACHE := CACHE s; cachePuts := cachePuts s;
              healthAlerts := healthAlerts s |})
      end
  end.
Proof.
  intros env. unfold handleScheduled, wtry, wbind, lift, wthrow.
  change (String.eqb "30 2 * * *" "30 2 * * *") with true. cbv beta iota.
  fold env.
  destruct (handleDailyXSync env (world s)) as [[[] | message] w];
    [| reflexivity].
  cbn [world CACHE cachePuts healthAlerts].
  rewrite Date_now_world. unfold SYNC_STATE_put.
  cbn [world CACHE cachePuts healthAlerts puts clockReadings SYNC_STATE
       ANALYTICS alerts].
  destruct (putError env (puts w)); reflexivity.
Qed.

(** X26.  The daily event marks a sync as successful exactly when the
    sync handler returns normally, whatever its accounts did: then, if
    the store accepts it, the marker ["last-successful-sync"] holds the
    reading of the clock after the run.  When the sync handler throws,
    the scheduled handler throws the same error and the marker is what it
    was. *)
Theorem scheduled_sync_marks_success (sur : Surroundings) (s : State) :
  let env := cronEnv sur in
  let ran := handleDailyXSync env (world s) in
  let s' := snd (handleScheduled sur "30 2 * * *" s) in
  (fst ran = Ok tt ->
   putError env (puts (snd ran)) = None ->
   fst (handleScheduled sur "30 2 * * *" s) = Ok tt /\
   SYNC_STATE (world s') !! "last-successful-sync"
   = Some (Text (stringifyMarker sur (clock env (clockReadings (snd ran)))
                   "30 2 * * *"))) /\
  (forall thrown,
      fst ran = Throw thrown ->
      fst (handleScheduled sur "30 2 * * *" s) = Throw thrown /\
      SYNC_STATE (world s') !! "last-successful-sync"
      = SYNC_STATE (world s) !! "last-successful-sync") /\
  (forall refusal,
      fst ran = Ok tt ->
      putError env (puts (snd ran)) = Some refusal ->
      fst (handleScheduled sur "30 2 * * *" s) = Throw refusal /\
      SYNC_STATE (world s') !! "last-successful-sync"
      = SYNC_STATE (world s) !! "last-successful-sync").
Proof.
  intros env ran s'. subst s'.
  pose proof (handleDailyXSync_frame env (world s) "last-successful-sync"
                ltac:(discriminate)) as Hframe.
  fold ran in Hframe.
  rewrite handleScheduled_daily. fold env. fold ran.
  destruct ran as [[[] | message] w]; cbn [fst snd] in *.
  - split; [| split].
    + intros _ Hput. rewrite Hput. cbn [fst snd world SYNC_STATE].
      split; [reflexivity | apply lookup_insert_eq].
    + intros thrown H. discriminate H.
    + intros refusal _ Hput. rewrite Hput. cbn [fst snd world SYNC_STATE].
      split; [reflexivity | exact Hframe].
  - split; [| split].
    + intros H. discriminate H.
    + intros thrown H. injection H as ->. cbn [fst snd world].
      split; [reflexivity | exact Hframe].
    + intros refusal H. discriminate H.
Qed.

Lemma scheduled_sync_marks_success_witness :
  let sur := Samples.healthy Samples.allOfFive in
  let s := atRest pristine in
  fst (handleScheduled sur "30 2 * * *" s) = Ok tt /\
  SYNC_STATE (world (snd (handleScheduled sur "30 2 * * *" s)))
    !! "last-successful-sync"
  = Some (Text "1700000004000").
Proof.
  intros sur s.
  apply (proj1 (scheduled_sync_marks_success sur s)).
  - vm_compute. reflexivity.
  - reflexivity.
Defined.

(** X27.  Marker and freshness check fit together.  After a daily event
    that returned normally, in any world that holds the marker it wrote,
    the freshness check answers [true] exactly when less than 25 hours
    have passed between the reading of the clock written in the marker
    and the one the check makes; this holds provided the store can be
    read and parsing the marker's text gives back the time it was made
    from. *)
Theorem marker_keeps_freshness_check_true (sur : Surroundings) (s : State)
    (w : World) :
  let env := cronEnv sur in
  let ran := handleDailyXSync env (world s) in
  let s' := snd (handleScheduled sur "30 2 * * *" s) in
  let marked := clock env (clockReadings (snd ran)) in
  fst ran = Ok tt ->
  putError env (puts (snd ran)) = None ->
  getError env = None ->
  stringifyMarker sur marked "30 2 * * *" <> "" ->
  markerTime env (stringifyMarker sur marked "30 2 * * *") = Ok (JS.of_Z marked) ->
  SYNC_STATE w !! "last-successful-sync"
    = SYNC_STATE (world s') !! "last-successful-sync" ->
  let now := clock env (clockReadings w) in
  (fst (checkLastSyncHealth env w) = Ok true <->
   now - marked < 25 * (60 * 60 * 1000)) /\
  (fst (checkLastSyncHealth env w) = Ok false <->
   25 * (60 * 60 * 1000) <= now - marked).
Proof.
  intros env ran s' marked Hran Hput Hget Hnonempty Hparse Hsame now.
  assert (Hmarker : SYNC_STATE w !! "last-successful-sync"
                    = Some (Text (stringifyMarker sur marked "30 2 * * *"))).
  { rewrite Hsame. subst s'. rewrite handleScheduled_daily. fold env. fold ran.
    destruct ran as [[[] | message] w1]; cbn [fst snd] in *; [| discriminate].
    rewrite Hput. cbn [snd world SYNC_STATE]. apply lookup_insert_eq. }
  rewrite (checkLastSyncHealth_marker env w _ marked Hget Hmarker Hnonempty Hparse).
  fold now.
  destruct (bool_decide_reflect (now - marked < 25 * (60 * 60 * 1000)));
    split; split; intros H; try reflexivity; try congruence; lia.
Qed.

Lemma marker_keeps_freshness_check_true_witness :
  let sur := Samples.healthy (Samples.readsMarker (Ok Samples.fiveAccounts) [1%nat]) in
  let s' := snd (handleScheduled sur "30 2 * * *" (atRest pristine)) in
  fst (checkLastSyncHealth (cronEnv sur) (world s')) = Ok true <->
  1700000005000 - 1700000004000 < 25 * (60 * 60 * 1000).
Proof.
  intros sur s'.
  refine (proj1 (marker_keeps_freshness_check_true sur (atRest pristine) (world s')
                   _ _ _ _ _ _)).
  - vm_compute. reflexivity.
  - reflexivity.
  - reflexivity.
  - vm_compute. discriminate.
  - vm_compute. reflexivity.
  - reflexivity.
Defined.

(** X28.  Only the daily event can make the scheduled handler throw or
    write to the sync store.  For every other pattern it returns normally
    and leaves the sync store as it was; the six-hourly event runs the
    health check; the monthly event reads the clock and changes nothing
    else; an unknown pattern changes nothing at all. *)
Theorem other_events_never_throw (sur : Surroundings) (s : State) (cron : string) :
  cron <> "30 2 * * *" ->
  let s' := snd (handleScheduled sur cron s) in
  fst (handleScheduled sur cron s) = Ok tt /\
  SYNC_STATE (world s') = SYNC_STATE (world s) /\
  (cron = "0 */6 * * *" -> s' = snd (handleHealthCheck sur s)) /\
  (cron = "0 0 1 * *" ->
   world s' = snd (Date_now (cronEnv sur) (world s)) /\
   CACHE s' = CACHE s /\ healthAlerts s' = healthAlerts s) /\
  (cron <> "0 */6 * * *" -> cron <> "0 0 1 * *" -> s' = s).
Proof.
  intros Hdaily s'. subst s'.
  unfold handleScheduled, wtry.
  apply String.eqb_neq in Hdaily. rewrite Hdaily.
  destruct (String.eqb_spec cron "0 */6 * * *") as [-> | Hsix].
  - pose proof (handleHealthCheck_unfold sur s) as E. cbv zeta in E.
    destruct (checkLastSyncHealth_frame (cronEnv sur)
                (worldAtFreshnessCheck sur s)) as (HS & _).
    unfold worldAtFreshnessCheck in HS. rewrite Date_now_world in HS.
    cbn [snd SYNC_STATE] in HS.
    rewrite E. cbn [fst snd].
    split; [reflexivity |]. split.
    + destruct (cachePutError sur (S (cachePuts s))); cbn [world SYNC_STATE];
        exact HS.
    + split; [reflexivity |]. split; [discriminate | congruence].
  - destruct (String.eqb_spec cron "0 0 1 * *") as [-> | Hmonth].
    + unfold handleMonthlyCleanup, wtry, wbind, lift, wret.
      rewrite Date_now_world. cbn [fst snd world CACHE healthAlerts SYNC_STATE].
      repeat split; congruence.
    + unfold wret. cbn [fst snd]. repeat split; congruence.
Qed.

Lemma other_events_never_throw_witness :
  snd (handleScheduled (Samples.healthy Samples.twoOfFive) "* * * * *"
         (atRest pristine))
  = atRest pristine.
Proof.
  destruct (other_events_never_throw (Samples.healthy Samples.twoOfFive)
              (atRest pristine) "* * * * *" ltac:(discriminate))
    as (_ & _ & _ & _ & Hnothing).
  apply Hnothing; discriminate.
Defined.
